(** * MafiaGame: a shallow embedding of the on-chain game-state machine

    The contract [MafiaGame] (Solidity ^0.8.27) keeps a registry of
    four-seat games, seats players, assigns roles with a Fisher-Yates
    shuffle at start and lets the Werewolf attack other seats.

    Integers are modelled as [Z]; the checked arithmetic of Solidity 0.8
    is written out ([Panic 0x11] on overflow or underflow, [Panic 0x12] on
    a zero modulus) and so is the bounds check of fixed-size arrays
    ([Panic 0x32]).  Mappings are finite maps read with a zero default.
    A call runs in a state-and-error monad; a revert discards every effect
    of the call.

    The file gives the data model and the contract first, then the
    definitions the statements need (post-states, the invariant, traces, a
    concrete run), then the proofs: storage lemmas, one lemma per
    operation, preservation of the invariant, and the main theorems. *)

From Stdlib Require Import ZArith List Lia Bool.
From stdpp Require Import base option list numbers gmap.

Local Open Scope Z_scope.

(** ** Fixed-size arrays of four slots (address[4], uint8[4], bool[4], euint8[4]) *)

Record array4 (A : Type) : Type := Array4 { slot0 : A; slot1 : A; slot2 : A; slot3 : A }.
Arguments Array4 {A} _ _ _ _.
Arguments slot0 {A} _.
Arguments slot1 {A} _.
Arguments slot2 {A} _.
Arguments slot3 {A} _.

Definition get4 {A : Type} (v : array4 A) (i : Z) : option A :=
  match i with
  | 0 => Some (slot0 v)
  | 1 => Some (slot1 v)
  | 2 => Some (slot2 v)
  | 3 => Some (slot3 v)
  | _ => None
  end.

Definition set4 {A : Type} (v : array4 A) (i : Z) (x : A) : option (array4 A) :=
  match i with
  | 0 => Some (Array4 x (slot1 v) (slot2 v) (slot3 v))
  | 1 => Some (Array4 (slot0 v) x (slot2 v) (slot3 v))
  | 2 => Some (Array4 (slot0 v) (slot1 v) x (slot3 v))
  | 3 => Some (Array4 (slot0 v) (slot1 v) (slot2 v) x)
  | _ => None
  end.

Definition to_list4 {A : Type} (v : array4 A) : list A :=
  [slot0 v; slot1 v; slot2 v; slot3 v].

Definition fill4 {A : Type} (x : A) : array4 A := Array4 x x x x.

(** ** Data model *)

Definition MAX_UINT256 : Z := Eval cbv in 2 ^ 256 - 1.
Definition MAX_UINT8 : Z := 255.

Record Game : Type := mkGame {
  creator : Z;
  players : array4 Z;
  encryptedRoles : array4 Z;
  roles : array4 Z;
  alive : array4 bool;
  playerCount : Z;
  started : bool
}.

(** The value of a storage slot that was never written. *)
Definition zeroGame : Game :=
  mkGame 0 (fill4 0) (fill4 0) (fill4 0) (fill4 false) 0 false.

Inductive Event : Type :=
  | GameCreated (gameId creator : Z)
  | PlayerJoined (gameId player : Z)
  | GameStarted (gameId : Z)
  | PlayerAttacked (gameId attacker target : Z).

Inductive Error : Type :=
  | GameNotFound
  | GameFull
  | PlayerAlreadyJoined
  | PlayerNotInGame
  | GameAlreadyStarted
  | GameNotReady
  | GameNotStarted
  | PlayerAlreadyDead
  | NotWerewolf
  | CannotAttackSelf
  | Panic (code : Z).

(** Modelled from the spec: the confidential value engine behind
    [FHE.asEuint8], [FHE.allowThis] and [FHE.allow] is an external library.
    The spec gives its contract: [encrypt(value) -> handle] and
    [grantAccess(handle, address)], idempotent and additive only.  Which
    handle an encryption returns is the engine's business and is left
    open: [handle_of v n] is the handle for the plaintext [v] at the
    engine's [n]-th encryption.  An engine may hand out a new handle at
    every call or, as a deterministic encryption of a plaintext does, one
    handle per value.  All that is asked of it is that a handle stands
    for one value. *)
Class ValueEngine : Type := mkValueEngine {
  handle_of : Z -> Z -> Z;
  handle_value : forall v n v' n', handle_of v n = handle_of v' n' -> v = v'
}.

(** The engine's state: the number of encryptions so far, the value
    behind each handle and the access list. *)
Record Engine : Type := mkEngine {
  encryptions : Z;
  cleartext : gmap Z Z;
  acl : gset (Z * Z)
}.

Definition engine0 : Engine := mkEngine 0 ∅ ∅.

Definition encrypt {engine : ValueEngine} (v : Z) (e : Engine) : Z * Engine :=
  (handle_of v (encryptions e),
   mkEngine (encryptions e + 1) (<[handle_of v (encryptions e) := v]> (cleartext e)) (acl e)).

Definition grantAccess (h a : Z) (e : Engine) : Engine :=
  mkEngine (encryptions e) (cleartext e) ({[ (h, a) ]} ∪ acl e).

Definition allowed (e : Engine) (h a : Z) : Prop := (h, a) ∈ acl e.

Arguments encrypt : simpl never.
Arguments grantAccess : simpl never.

Record State : Type := mkState {
  _nextGameId : Z;
  _games : gmap Z Game;
  _playerIndex : gmap (Z * Z) Z;
  fhe : Engine;
  events : list Event
}.

(** Storage right after deployment: every slot is zero. *)
Definition init : State := mkState 0 ∅ ∅ engine0 [].

(** A Solidity mapping is total: an absent key reads as the zero value. *)
Definition game_at (s : State) (gameId : Z) : Game :=
  default zeroGame (_games s !! gameId).

Definition index_at (s : State) (gameId player : Z) : Z :=
  default 0 (_playerIndex s !! (gameId, player)).

Arguments game_at : simpl never.
Arguments index_at : simpl never.

Definition set_nextGameId (n : Z) (s : State) : State :=
  mkState n (_games s) (_playerIndex s) (fhe s) (events s).

Definition set_game (gameId : Z) (g : Game) (s : State) : State :=
  mkState (_nextGameId s) (<[gameId := g]> (_games s)) (_playerIndex s) (fhe s) (events s).

Definition set_index (gameId player i : Z) (s : State) : State :=
  mkState (_nextGameId s) (_games s) (<[(gameId, player) := i]> (_playerIndex s))
          (fhe s) (events s).

Definition set_fhe (e : Engine) (s : State) : State :=
  mkState (_nextGameId s) (_games s) (_playerIndex s) e (events s).

Definition add_event (ev : Event) (s : State) : State :=
  mkState (_nextGameId s) (_games s) (_playerIndex s) (fhe s) (events s ++ [ev]).

Definition with_creator (a : Z) (g : Game) : Game :=
  mkGame a (players g) (encryptedRoles g) (roles g) (alive g) (playerCount g) (started g).
Definition with_players (p : array4 Z) (g : Game) : Game :=
  mkGame (creator g) p (encryptedRoles g) (roles g) (alive g) (playerCount g) (started g).
Definition with_encryptedRoles (h : array4 Z) (g : Game) : Game :=
  mkGame (creator g) (players g) h (roles g) (alive g) (playerCount g) (started g).
Definition with_roles (r : array4 Z) (g : Game) : Game :=
  mkGame (creator g) (players g) (encryptedRoles g) r (alive g) (playerCount g) (started g).
Definition with_alive (a : array4 bool) (g : Game) : Game :=
  mkGame (creator g) (players g) (encryptedRoles g) (roles g) a (playerCount g) (started g).
Definition with_playerCount (n : Z) (g : Game) : Game :=
  mkGame (creator g) (players g) (encryptedRoles g) (roles g) (alive g) n (started g).
Definition with_started (b : bool) (g : Game) : Game :=
  mkGame (creator g) (players g) (encryptedRoles g) (roles g) (alive g) (playerCount g) b.

(** ** The execution monad

    A computation either returns a value and the state it reached, or
    reverts with an error; [Revert] keeps the state at the point of
    failure, which the transaction wrapper [exec] throws away. *)

Inductive Result (A : Type) : Type :=
  | Ok (a : A) (s : State)
  | Revert (e : Error) (s : State).
Arguments Ok {A} _ _.
Arguments Revert {A} _ _.

Definition M (A : Type) : Type := State -> Result A.

Definition ret {A : Type} (a : A) : M A := fun s => Ok a s.

Definition bind {A B : Type} (m : M A) (f : A -> M B) : M B :=
  fun s => match m s with
           | Ok a s1 => f a s1
           | Revert e s1 => Revert e s1
           end.

Notation "'let*' x := m 'in' k" := (bind m (fun x => k))
  (at level 10, x name, m at level 100, k at level 200).
Notation "m ;;; k" := (bind m (fun _ => k))
  (at level 100, k at level 200, right associativity).

Definition revert {A : Type} (e : Error) : M A := fun s => Revert e s.
Definition gets {A : Type} (f : State -> A) : M A := fun s => Ok (f s) s.
Definition modify (f : State -> State) : M unit := fun s => Ok tt (f s).

(** [if (c) { revert E(); }] *)
Definition revert_if (c : bool) (e : Error) : M unit :=
  if c then revert e else ret tt.

(** Array access: an index out of bounds panics with code 0x32. *)
Definition index {A : Type} (o : option A) : M A :=
  match o with
  | Some a => ret a
  | None => revert (Panic 0x32)
  end.

(** Checked arithmetic: code 0x11. *)
Definition checked_add (max a b : Z) : M Z :=
  if a + b <=? max then ret (a + b) else revert (Panic 0x11).

Definition checked_sub (a b : Z) : M Z :=
  if b <=? a then ret (a - b) else revert (Panic 0x11).

Definition emit (ev : Event) : M unit := modify (add_event ev).

(** Writes through the storage pointer [Game storage game = _games[gameId]]. *)
Definition update_game (gameId : Z) (f : Game -> Game) : M unit :=
  modify (fun s => set_game gameId (f (game_at s gameId)) s).

Definition load {A : Type} (gameId : Z) (field : Game -> A) : M A :=
  gets (fun s => field (game_at s gameId)).

Definition load_at {A : Type} (gameId : Z) (field : Game -> array4 A) (i : Z) : M A :=
  let* arr := load gameId field in index (get4 arr i).

Definition store_at {A : Type} (gameId : Z) (field : Game -> array4 A)
    (upd : array4 A -> Game -> Game) (i : Z) (x : A) : M unit :=
  let* arr := load gameId field in
  let* arr' := index (set4 arr i x) in
  update_game gameId (upd arr').

(** Execution context of a call. *)
Record Ctx : Type := mkCtx {
  msg_sender : Z;
  block_prevrandao : Z;
  block_timestamp : Z
}.

(** ** Environment *)

(** What the contract takes from its environment: the keccak256 hash, taken
    on the list of the 32-byte words that [abi.encode] produces and left
    abstract, and [address(this)], the contract's own address. *)
Class Env : Type := mkEnv {
  keccak256 : list Z -> Z;
  this : Z
}.

(** ** The contract *)

Section Contract.

Context {env : Env} {engine : ValueEngine}.

(** [uint256(bytes32)] *)
Definition to_uint256 (x : Z) : Z := x mod (MAX_UINT256 + 1).

Definition checked_mod (a b : Z) : M Z :=
  if b =? 0 then revert (Panic 0x12) else ret (a mod b).

(** The FHE library calls, on the engine held in the state. *)
Definition asEuint8 (v : Z) : M Z :=
  fun s => Ok (fst (encrypt v (fhe s))) (set_fhe (snd (encrypt v (fhe s))) s).

Definition allowThis (h : Z) : M unit :=
  modify (fun s => set_fhe (grantAccess h this (fhe s)) s).

Definition allow (h a : Z) : M unit :=
  modify (fun s => set_fhe (grantAccess h a (fhe s)) s).

(** [for] loops over a fixed index range, with the loop-carried locals
    threaded through [acc]. *)
Fixpoint for_each {A : Type} (idx : list Z) (body : Z -> A -> M A) (acc : A) : M A :=
  match idx with
  | [] => ret acc
  | i :: rest => let* acc' := body i acc in for_each rest body acc'
  end.

Definition _addPlayer (gameId player : Z) : M unit :=
  let* newIndex := load gameId playerCount in
  store_at gameId players with_players newIndex player ;;;
  let* n := load gameId playerCount in
  let* n' := checked_add MAX_UINT8 n 1 in
  update_game gameId (with_playerCount n') ;;;
  let* ix := checked_add MAX_UINT8 newIndex 1 in
  modify (set_index gameId player ix) ;;;
  store_at gameId alive with_alive newIndex true.

Definition createGame (ctx : Ctx) : M Z :=
  let* gameId := gets _nextGameId in
  let* next := checked_add MAX_UINT256 gameId 1 in
  modify (set_nextGameId next) ;;;
  update_game gameId (with_creator (msg_sender ctx)) ;;;
  _addPlayer gameId (msg_sender ctx) ;;;
  emit (GameCreated gameId (msg_sender ctx)) ;;;
  ret gameId.

Definition joinGame (ctx : Ctx) (gameId : Z) : M unit :=
  let* c := load gameId creator in
  revert_if (c =? 0) GameNotFound ;;;
  let* st := load gameId started in
  revert_if st GameAlreadyStarted ;;;
  let* n := load gameId playerCount in
  revert_if (4 <=? n) GameFull ;;;
  let* ix := gets (fun s => index_at s gameId (msg_sender ctx)) in
  revert_if (negb (ix =? 0)) PlayerAlreadyJoined ;;;
  _addPlayer gameId (msg_sender ctx) ;;;
  emit (PlayerJoined gameId (msg_sender ctx)).

(** Body of [for (uint256 i = 3; i > 0; i--)]: the locals are the memory
    array [roles] and [randomSeed]. *)
Definition shuffle_body (i : Z) (locals : array4 Z * Z) : M (array4 Z * Z) :=
  let rs := fst locals in
  let randomSeed := snd locals in
  let* m := checked_add MAX_UINT256 i 1 in
  let* swapIndex := checked_mod randomSeed m in
  let randomSeed' := to_uint256 (keccak256 [randomSeed; i]) in
  let* temp := index (get4 rs i) in
  let* x := index (get4 rs swapIndex) in
  let* rs1 := index (set4 rs i x) in
  let* rs2 := index (set4 rs1 swapIndex temp) in
  ret (rs2, randomSeed').

(** Body of [for (uint256 i = 0; i < 4; i++)]. *)
Definition assign_seat (gameId : Z) (rs : array4 Z) (i : Z) (_ : unit) : M unit :=
  let* assignedRole := index (get4 rs i) in
  store_at gameId roles with_roles i assignedRole ;;;
  let* h := asEuint8 assignedRole in
  store_at gameId encryptedRoles with_encryptedRoles i h ;;;
  let* h1 := load_at gameId encryptedRoles i in
  allowThis h1 ;;;
  let* h2 := load_at gameId encryptedRoles i in
  let* p := load_at gameId players i in
  allow h2 p ;;;
  store_at gameId alive with_alive i true.

Definition startGame (ctx : Ctx) (gameId : Z) : M unit :=
  let* c := load gameId creator in
  revert_if (c =? 0) GameNotFound ;;;
  let* st := load gameId started in
  revert_if st GameAlreadyStarted ;;;
  let* ix := gets (fun s => index_at s gameId (msg_sender ctx)) in
  revert_if (ix =? 0) PlayerNotInGame ;;;
  let* n := load gameId playerCount in
  revert_if (negb (n =? 4)) GameNotReady ;;;
  let rs0 := Array4 1 1 2 3 in
  let randomSeed :=
    to_uint256 (keccak256 [block_prevrandao ctx; block_timestamp ctx; msg_sender ctx; gameId]) in
  let* locals := for_each [3; 2; 1] shuffle_body (rs0, randomSeed) in
  for_each [0; 1; 2; 3] (assign_seat gameId (fst locals)) tt ;;;
  update_game gameId (with_started true) ;;;
  emit (GameStarted gameId).

Definition attack (ctx : Ctx) (gameId target : Z) : M unit :=
  let* c := load gameId creator in
  revert_if (c =? 0) GameNotFound ;;;
  let* st := load gameId started in
  revert_if (negb st) GameNotStarted ;;;
  let* attackerIndex := gets (fun s => index_at s gameId (msg_sender ctx)) in
  revert_if (attackerIndex =? 0) PlayerNotInGame ;;;
  let* attackerPosition := checked_sub attackerIndex 1 in
  let* a := load_at gameId alive attackerPosition in
  revert_if (negb a) PlayerAlreadyDead ;;;
  let* r := load_at gameId roles attackerPosition in
  revert_if (negb (r =? 2)) NotWerewolf ;;;
  let* targetIndex := gets (fun s => index_at s gameId target) in
  revert_if (targetIndex =? 0) PlayerNotInGame ;;;
  let* targetPosition := checked_sub targetIndex 1 in
  let* t := load_at gameId alive targetPosition in
  revert_if (negb t) PlayerAlreadyDead ;;;
  revert_if (targetPosition =? attackerPosition) CannotAttackSelf ;;;
  store_at gameId alive with_alive targetPosition false ;;;
  emit (PlayerAttacked gameId (msg_sender ctx) target).

(** *** The shuffle as the specification words it

    Canonical order, seed from (block entropy, timestamp, caller, game id);
    for [i] from 3 down to 1: [swapIndex = seed mod (i+1)], swap the roles
    at [i] and [swapIndex], then re-derive the seed by hashing it together
    with [i]. *)

Definition nth4 (v : array4 Z) (k : Z) : Z := default 0 (get4 v k).

Definition swap4 (v : array4 Z) (i j : Z) : array4 Z :=
  let pick k :=
    if decide (k = i) then nth4 v j else if decide (k = j) then nth4 v i else nth4 v k in
  Array4 (pick 0) (pick 1) (pick 2) (pick 3).

Definition rehash (seed i : Z) : Z := to_uint256 (keccak256 [seed; i]).

Fixpoint fisher_yates (n : nat) (rs : array4 Z) (seed : Z) : array4 Z :=
  match n with
  | O => rs
  | S n' =>
      let i := Z.of_nat n in
      let swapIndex := seed mod (i + 1) in
      fisher_yates n' (swap4 rs i swapIndex) (rehash seed i)
  end.

Definition canonical_roles : array4 Z := Array4 1 1 2 3.

Definition derive_seed (ctx : Ctx) (gameId : Z) : Z :=
  to_uint256 (keccak256 [block_prevrandao ctx; block_timestamp ctx; msg_sender ctx; gameId]).

Definition reference_roles (ctx : Ctx) (gameId : Z) : array4 Z :=
  fisher_yates 3 canonical_roles (derive_seed ctx gameId).

(** *** Views *)

Definition getGameDetails (ctx : Ctx) (gameId : Z)
    : M (Z * array4 Z * bool * array4 bool * Z) :=
  let* c := load gameId creator in
  revert_if (c =? 0) GameNotFound ;;;
  let* g := gets (fun s => game_at s gameId) in
  ret (creator g, players g, started g, alive g, playerCount g).

Definition getPlayerEncryptedRole (ctx : Ctx) (gameId player : Z) : M Z :=
  let* c := load gameId creator in
  revert_if (c =? 0) GameNotFound ;;;
  let* st := load gameId started in
  revert_if (negb st) GameNotStarted ;;;
  let* indexPlusOne := gets (fun s => index_at s gameId player) in
  revert_if (indexPlusOne =? 0) PlayerNotInGame ;;;
  let* pos := checked_sub indexPlusOne 1 in
  load_at gameId encryptedRoles pos.

Definition getNextGameId (ctx : Ctx) : M Z := gets _nextGameId.

(** Body of the counting loop of [getAlivePlayerCount]. *)
Definition count_seat (gameId : Z) (i : Z) (aliveCount : Z) : M Z :=
  let* p := load_at gameId players i in
  let* a := load_at gameId alive i in
  if negb (p =? 0) && a then checked_add MAX_UINT8 aliveCount 1 else ret aliveCount.

Definition getAlivePlayerCount (ctx : Ctx) (gameId : Z) : M Z :=
  let* c := load gameId creator in
  revert_if (c =? 0) GameNotFound ;;;
  for_each [0; 1; 2; 3] (count_seat gameId) 0.

Definition getPlayerStatus (ctx : Ctx) (gameId player : Z) : M bool :=
  let* c := load gameId creator in
  revert_if (c =? 0) GameNotFound ;;;
  let* indexPlusOne := gets (fun s => index_at s gameId player) in
  revert_if (indexPlusOne =? 0) PlayerNotInGame ;;;
  let* pos := checked_sub indexPlusOne 1 in
  load_at gameId alive pos.

(** *** Transactions *)

Inductive Call : Type :=
  | CreateGame
  | JoinGame (gameId : Z)
  | StartGame (gameId : Z)
  | Attack (gameId target : Z).

Inductive Receipt : Type :=
  | Created (gameId : Z)
  | Done
  | Failed (e : Error).

Definition run_call (ctx : Ctx) (c : Call) : M Receipt :=
  match c with
  | CreateGame => let* gameId := createGame ctx in ret (Created gameId)
  | JoinGame gameId => joinGame ctx gameId ;;; ret Done
  | StartGame gameId => startGame ctx gameId ;;; ret Done
  | Attack gameId target => attack ctx gameId target ;;; ret Done
  end.

(** A transaction commits the state reached by the call, or, on a revert,
    leaves the state it started from. *)
Definition exec (ctx : Ctx) (c : Call) (s : State) : State * Receipt :=
  match run_call ctx c s with
  | Ok r s' => (s', r)
  | Revert e _ => (s, Failed e)
  end.

(** States the contract can be in: the deployed state and whatever
    transactions of externally owned (non-zero) senders lead to. *)
Inductive reachable : State -> Prop :=
  | reachable_init : reachable init
  | reachable_exec ctx c s :
      reachable s -> msg_sender ctx <> 0 -> reachable (fst (exec ctx c s)).

(** ** Post-states

    The state a successful call leaves behind, written in closed form; the
    lemmas [createGame_ok], [joinGame_inv], [startGame_unfold] and
    [attack_unfold] derive them from the code. *)

(** The record [createGame] writes for [sender]. *)
Definition created_game (sender : Z) : Game :=
  mkGame sender (Array4 sender 0 0 0) (fill4 0) (fill4 0) (Array4 true false false false) 1 false.

(** What one iteration of the seat loop writes. *)
Definition seat_engine (r p : Z) (e : Engine) : Engine :=
  grantAccess (fst (encrypt r e)) p (grantAccess (fst (encrypt r e)) this (snd (encrypt r e))).

(** The engine after the four iterations of the seat loop. *)
Definition started_engine (rs ps : array4 Z) (e : Engine) : Engine :=
  seat_engine (slot3 rs) (slot3 ps)
    (seat_engine (slot2 rs) (slot2 ps)
       (seat_engine (slot1 rs) (slot1 ps)
          (seat_engine (slot0 rs) (slot0 ps) e))).

(** The handles of the four encryptions of the seat loop, the first of
    which is the engine's [n]-th. *)
Definition started_handles (rs : array4 Z) (n : Z) : array4 Z :=
  Array4 (handle_of (slot0 rs) n) (handle_of (slot1 rs) (n + 1))
         (handle_of (slot2 rs) (n + 2)) (handle_of (slot3 rs) (n + 3)).

(** The game record after [startGame]; [n] counts the encryptions before it. *)
Definition started_game (ctx : Ctx) (gameId : Z) (n : Z) (g : Game) : Game :=
  mkGame (creator g) (players g) (started_handles (reference_roles ctx gameId) n)
         (reference_roles ctx gameId) (fill4 true) (playerCount g) true.

Definition started_state (ctx : Ctx) (gameId : Z) (s : State) : State :=
  let g := game_at s gameId in
  add_event (GameStarted gameId)
    (set_game gameId (started_game ctx gameId (encryptions (fhe s)) g)
       (set_fhe (started_engine (reference_roles ctx gameId) (players g) (fhe s)) s)).

(** Total readings of a seat, for indices known to be in range. *)
Definition seat_alive (g : Game) (i : Z) : bool := default false (get4 (alive g) i).

Definition seat_role (g : Game) (i : Z) : Z := default 0 (get4 (roles g) i).

Definition seat_player (g : Game) (i : Z) : Z := default 0 (get4 (players g) i).

(** The handle stored for seat [i]. *)
Definition seat_handle (g : Game) (i : Z) : Z := default 0 (get4 (encryptedRoles g) i).

(** [game.alive[i] = false] *)
Definition kill_seat (g : Game) (i : Z) : Game :=
  with_alive (default (alive g) (set4 (alive g) i false)) g.

Definition attacked_state (ctx : Ctx) (gameId target : Z) (s : State) : State :=
  add_event (PlayerAttacked gameId (msg_sender ctx) target)
    (set_game gameId (kill_seat (game_at s gameId) (index_at s gameId target - 1)) s).

(** ** Well-formed states: the invariant of the reachable states *)

(** The engine only grew: access, once granted, stays. *)
Definition extends (e e' : Engine) : Prop :=
  forall h a, allowed e h a -> allowed e' h a.

(** Per game: an absent game is all zero; seats are filled from the left by
    non-zero addresses and the seat index is their inverse; a started game
    is full, holds a permutation of the four roles with the Werewolf alive,
    and each seat's handle is readable by the contract and by the seat's
    player. *)
Record game_wf (s : State) (gameId : Z) : Prop := {
  wf_absent :
    creator (game_at s gameId) = 0 ->
    game_at s gameId = zeroGame /\ forall p, index_at s gameId p = 0;
  wf_count : 0 <= playerCount (game_at s gameId) <= 4;
  wf_index :
    forall p, index_at s gameId p <> 0 ->
      p <> 0 /\ 1 <= index_at s gameId p <= playerCount (game_at s gameId) /\
      get4 (players (game_at s gameId)) (index_at s gameId p - 1) = Some p;
  wf_seats :
    forall i p, 0 <= i < playerCount (game_at s gameId) ->
      get4 (players (game_at s gameId)) i = Some p -> p <> 0;
  wf_started :
    started (game_at s gameId) = true ->
      playerCount (game_at s gameId) = 4 /\
      Permutation (to_list4 (roles (game_at s gameId))) [1; 1; 2; 3] /\
      forall i, get4 (roles (game_at s gameId)) i = Some 2 ->
                get4 (alive (game_at s gameId)) i = Some true;
  wf_handles :
    started (game_at s gameId) = true ->
      forall i h p, get4 (encryptedRoles (game_at s gameId)) i = Some h ->
        get4 (players (game_at s gameId)) i = Some p ->
        allowed (fhe s) h this /\ allowed (fhe s) h p
}.

(** Whole state: identifiers at or above the counter are unused. *)
Record wf (s : State) : Prop := {
  wf_next : 0 <= _nextGameId s;
  wf_fresh : forall gameId, _nextGameId s <= gameId -> creator (game_at s gameId) = 0;
  wf_games : forall gameId, game_wf s gameId
}.

(** ** The alive count as a sum over the seats *)

(** Seat [i] counts when it is occupied and alive. *)
Definition seat_counts (g : Game) (i : Z) : Z :=
  if negb (seat_player g i =? 0) && seat_alive g i then 1 else 0.

Definition alive_count (g : Game) : Z :=
  seat_counts g 0 + seat_counts g 1 + seat_counts g 2 + seat_counts g 3.

(** ** Sequences of transactions *)

Inductive steps : State -> State -> Prop :=
  | steps_refl s : steps s s
  | steps_exec ctx c s s1 :
      steps s s1 -> msg_sender ctx <> 0 -> steps s (fst (exec ctx c s1)).

(** What a started game keeps across any transaction: everything but [alive]. *)
Definition same_setup (g g' : Game) : Prop :=
  creator g' = creator g /\ players g' = players g /\
  encryptedRoles g' = encryptedRoles g /\ roles g' = roles g /\
  playerCount g' = playerCount g /\ started g' = started g.

(** The precedence of [attack]'s failures as the specification lists
    them; [None] when no precondition is violated. *)
Definition attack_error (s : State) (caller gameId target : Z) : option Error :=
  let g := game_at s gameId in
  let callerSeat := index_at s gameId caller - 1 in
  let targetSeat := index_at s gameId target - 1 in
  if creator g =? 0 then Some GameNotFound
  else if negb (started g) then Some GameNotStarted
  else if index_at s gameId caller =? 0 then Some PlayerNotInGame
  else if negb (seat_alive g callerSeat) then Some PlayerAlreadyDead
  else if negb (seat_role g callerSeat =? 2) then Some NotWerewolf
  else if index_at s gameId target =? 0 then Some PlayerNotInGame
  else if negb (seat_alive g targetSeat) then Some PlayerAlreadyDead
  else if targetSeat =? callerSeat then Some CannotAttackSelf
  else None.

(** ** Traces from deployment *)

Fixpoint run_trace (txs : list (Ctx * Call)) (s : State) : State * list Receipt :=
  match txs with
  | [] => (s, [])
  | tx :: rest =>
      let r1 := exec (fst tx) (snd tx) s in
      let r2 := run_trace rest (fst r1) in
      (fst r2, snd r1 :: snd r2)
  end.

(** The identifiers handed out by the transactions of a trace, in order. *)
Fixpoint created_ids (rs : list Receipt) : list Z :=
  match rs with
  | [] => []
  | Created gameId :: rest => gameId :: created_ids rest
  | _ :: rest => created_ids rest
  end.

(** Transactions are sent by externally owned accounts, never by address 0. *)
Definition external (tx : Ctx * Call) : Prop := msg_sender (fst tx) <> 0.

(** A computation that ends, by return or revert, in the state it started from. *)
Definition read_only {A : Type} (m : M A) (s : State) : Prop :=
  match m s with
  | Ok _ s' => s' = s
  | Revert _ s' => s' = s
  end.

(** ** What one transaction does

    The possible outcomes of [exec] in closed form: a failure leaves the
    state, a success is one of four post-states. *)

Definition created_state (ctx : Ctx) (s : State) : State :=
  add_event (GameCreated (_nextGameId s) (msg_sender ctx))
    (set_game (_nextGameId s) (created_game (msg_sender ctx))
       (set_index (_nextGameId s) (msg_sender ctx) 1
          (set_nextGameId (_nextGameId s + 1) s))).

(** [_addPlayer] on a game with a free seat. *)
Definition seat_added (player : Z) (g : Game) : Game :=
  mkGame (creator g)
         (default (players g) (set4 (players g) (playerCount g) player))
         (encryptedRoles g) (roles g)
         (default (alive g) (set4 (alive g) (playerCount g) true))
         (playerCount g + 1) (started g).

Definition joined_state (ctx : Ctx) (gameId : Z) (s : State) : State :=
  add_event (PlayerJoined gameId (msg_sender ctx))
    (set_game gameId (seat_added (msg_sender ctx) (game_at s gameId))
       (set_index gameId (msg_sender ctx) (playerCount (game_at s gameId) + 1) s)).

Inductive outcome (ctx : Ctx) (s : State) : Call -> State -> Receipt -> Prop :=
  | outcome_failed c e : outcome ctx s c s (Failed e)
  | outcome_created :
      _nextGameId s < MAX_UINT256 ->
      game_at s (_nextGameId s) = zeroGame ->
      (forall p, index_at s (_nextGameId s) p = 0) ->
      outcome ctx s CreateGame (created_state ctx s) (Created (_nextGameId s))
  | outcome_joined gameId :
      creator (game_at s gameId) <> 0 ->
      started (game_at s gameId) = false ->
      0 <= playerCount (game_at s gameId) < 4 ->
      index_at s gameId (msg_sender ctx) = 0 ->
      outcome ctx s (JoinGame gameId) (joined_state ctx gameId s) Done
  | outcome_started gameId :
      creator (game_at s gameId) <> 0 ->
      started (game_at s gameId) = false ->
      index_at s gameId (msg_sender ctx) <> 0 ->
      playerCount (game_at s gameId) = 4 ->
      outcome ctx s (StartGame gameId) (started_state ctx gameId s) Done
  | outcome_attacked gameId target :
      creator (game_at s gameId) <> 0 ->
      started (game_at s gameId) = true ->
      1 <= index_at s gameId (msg_sender ctx) <= 4 ->
      1 <= index_at s gameId target <= 4 ->
      seat_alive (game_at s gameId) (index_at s gameId (msg_sender ctx) - 1) = true ->
      seat_role (game_at s gameId) (index_at s gameId (msg_sender ctx) - 1) = 2 ->
      seat_alive (game_at s gameId) (index_at s gameId target - 1) = true ->
      index_at s gameId target <> index_at s gameId (msg_sender ctx) ->
      outcome ctx s (Attack gameId target) (attacked_state ctx gameId target s) Done.

(** ** Seating: further facts about the reachable states *)

(** Per game: the seat index inverts the seating, free seats hold address
    0, the creator sits at seat 0; before the start no role or handle is
    written and exactly the taken seats are alive; after it the engine
    holds each seat's role under the seat's handle. *)
Record game_seating (s : State) (gameId : Z) : Prop := {
  st_inverse :
    forall i, 0 <= i < playerCount (game_at s gameId) ->
      index_at s gameId (seat_player (game_at s gameId) i) = i + 1;
  st_empty :
    forall i, playerCount (game_at s gameId) <= i <= 3 ->
      seat_player (game_at s gameId) i = 0;
  st_creator :
    creator (game_at s gameId) <> 0 ->
      1 <= playerCount (game_at s gameId) /\
      seat_player (game_at s gameId) 0 = creator (game_at s gameId);
  st_lobby :
    started (game_at s gameId) = false ->
      roles (game_at s gameId) = fill4 0 /\
      encryptedRoles (game_at s gameId) = fill4 0 /\
      forall i, 0 <= i <= 3 ->
        seat_alive (game_at s gameId) i = (i <? playerCount (game_at s gameId));
  st_roles :
    started (game_at s gameId) = true ->
      forall i, 0 <= i <= 3 ->
        cleartext (fhe s) !! seat_handle (game_at s gameId) i =
        Some (seat_role (game_at s gameId) i)
}.

(** Whole state: the identifiers below the counter are all in use, and
    every value the engine holds came from an encryption of it. *)
Record seating (s : State) : Prop := {
  st_exists :
    forall gameId, 0 <= gameId < _nextGameId s -> creator (game_at s gameId) <> 0;
  st_engine :
    forall h v, cleartext (fhe s) !! h = Some v -> exists n, h = handle_of v n;
  st_games : forall gameId, game_seating s gameId
}.

(** ** The failures of [joinGame] and [startGame], in the order of their guards *)

Definition joinGame_error (s : State) (caller gameId : Z) : option Error :=
  let g := game_at s gameId in
  if creator g =? 0 then Some GameNotFound
  else if started g then Some GameAlreadyStarted
  else if 4 <=? playerCount g then Some GameFull
  else if negb (index_at s gameId caller =? 0) then Some PlayerAlreadyJoined
  else None.

Definition startGame_error (s : State) (caller gameId : Z) : option Error :=
  let g := game_at s gameId in
  if creator g =? 0 then Some GameNotFound
  else if started g then Some GameAlreadyStarted
  else if index_at s gameId caller =? 0 then Some PlayerNotInGame
  else if negb (playerCount g =? 4) then Some GameNotReady
  else None.

(** The game a call addresses; [createGame] addresses the next free slot. *)
Definition addressed (c : Call) (s : State) : Z :=
  match c with
  | CreateGame => _nextGameId s
  | JoinGame gameId => gameId
  | StartGame gameId => gameId
  | Attack gameId _ => gameId
  end.

(** The event a successful call logs. *)
Definition logged (ctx : Ctx) (c : Call) (r : Receipt) : list Event :=
  match r, c with
  | Created gameId, _ => [GameCreated gameId (msg_sender ctx)]
  | Done, JoinGame gameId => [PlayerJoined gameId (msg_sender ctx)]
  | Done, StartGame gameId => [GameStarted gameId]
  | Done, Attack gameId target => [PlayerAttacked gameId (msg_sender ctx) target]
  | _, _ => []
  end.

(** ** The draws of the shuffle

    The roles the loop of [startGame] leaves in memory, as a function of
    the seed. *)
Definition shuffled (seed : Z) : option (array4 Z) :=
  match for_each [3; 2; 1] shuffle_body (Array4 1 1 2 3, seed) init with
  | Ok locals _ => Some (fst locals)
  | Revert _ _ => None
  end.

(** ** The repository's test

    The scenario of the test suite: [players[0]] creates the game, the
    next three signers join, a fifth is turned away, [players[1]] starts;
    every player decrypts the own role; a non-Werewolf and the Werewolf
    try the attacks the test lists.  [blk k] gives the block values of
    the [k]-th transaction. *)

(** Modelled from the spec: user decryption by the external engine gives
    the value behind a handle when both the contract and the user were
    granted access to it. *)
Definition userDecrypt (e : Engine) (h contract user : Z) : option Z :=
  if decide ((h, contract) ∈ acl e /\ (h, user) ∈ acl e) then cleartext e !! h else None.

(** [expect(...).to.be.revertedWithCustomError(contract, e)] *)
Definition reverted_with {A : Type} (r : Result A) (e : Error) : Prop :=
  match r with
  | Revert e' _ => e' = e
  | Ok _ _ => False
  end.

(** The value of a view call that did not revert satisfies [P]. *)
Definition returned {A : Type} (r : Result A) (P : A -> Prop) : Prop :=
  match r with
  | Ok a _ => P a
  | Revert _ _ => False
  end.

(** [Number(n)] of a bigint is exact for the integers a double holds
    exactly, up to 2^53 in absolute value; the model gives no value beyond. *)
Definition Number (n : Z) : option Z :=
  if decide (Z.abs n <= 2 ^ 53) then Some n else None.

(** [Number(await contract.getNextGameId()) - 1]: the identifier the test
    and the front end's [handleCreateGame] take for the game just created. *)
Definition latest_game_id (ctx : Ctx) (s : State) : option Z :=
  match getNextGameId ctx s with
  | Ok n _ => (fun x => x - 1) <$> Number n
  | Revert _ _ => None
  end.


Section Test.

Variable players : Z -> Z.
Variable blk : Z -> Z * Z.

Definition call_ctx (k : Z) (sender : Z) : Ctx := mkCtx sender (fst (blk k)) (snd (blk k)).

(** Views are called through the deploying signer, [players[0]]. *)
Definition view_ctx : Ctx := call_ctx 0 (players 0).

Definition test_create : State * Receipt := exec (call_ctx 0 (players 0)) CreateGame init.

Definition test_created : State := fst test_create.

(** [createdGameId]; the test stops when the read fails. *)
Definition test_id : Z := default (-1) (latest_game_id view_ctx test_created).

Definition test_joins : State * list Receipt :=
  run_trace [(call_ctx 1 (players 1), JoinGame test_id);
             (call_ctx 2 (players 2), JoinGame test_id);
             (call_ctx 3 (players 3), JoinGame test_id)] test_created.

Definition test_lobby : State := fst test_joins.

(** The fifth signer's attempt. *)
Definition test_fifth : State * Receipt :=
  exec (call_ctx 4 (players 4)) (JoinGame test_id) test_lobby.

Definition test_start : State * Receipt :=
  exec (call_ctx 5 (players 1)) (StartGame test_id) (fst test_fifth).

Definition test_started : State := fst test_start.

(** [getPlayerEncryptedRole] followed by [userDecryptEuint] for the
    contract's address and [players[i]]. *)
Definition test_clear_role (i : Z) : option Z :=
  match getPlayerEncryptedRole view_ctx test_id (players i) test_started with
  | Ok cipher _ => userDecrypt (fhe test_started) cipher this (players i)
  | Revert _ _ => None
  end.

(** [roleCounts[r]] after the loop over the four players. *)
Definition test_role_count (r : Z) : nat :=
  length (List.filter (fun i => bool_decide (test_clear_role i = Some r)) [0; 1; 2; 3]).

(** The loop's [werewolfIndex], starting from -1. *)
Definition test_werewolf : Z :=
  fold_left (fun w i => if decide (test_clear_role i = Some 2) then i else w) [0; 1; 2; 3] (-1).

(** [targetIndex]: the first index that is not the Werewolf's. *)
Definition test_target : Z := if decide (0 = test_werewolf) then 1 else 0.

(** The target attacks the Werewolf. *)
Definition test_denied : State * Receipt :=
  exec (call_ctx 6 (players test_target)) (Attack test_id (players test_werewolf)) test_started.

(** The Werewolf attacks itself. *)
Definition test_self : State * Receipt :=
  exec (call_ctx 7 (players test_werewolf)) (Attack test_id (players test_werewolf))
    (fst test_denied).

Definition test_attack : State * Receipt :=
  exec (call_ctx 8 (players test_werewolf)) (Attack test_id (players test_target))
    (fst test_self).

Definition test_attacked : State := fst test_attack.

(** The same attack once more. *)
Definition test_again : State * Receipt :=
  exec (call_ctx 9 (players test_werewolf)) (Attack test_id (players test_target))
    test_attacked.

(** Every expectation of the test holds and every transaction it awaits
    goes through. *)
Definition test_passes : Prop :=
  (exists gameId, snd test_create = Created gameId) /\
  reverted_with (getPlayerEncryptedRole view_ctx test_id (players 0) test_created)
    GameNotStarted /\
  snd test_joins = [Done; Done; Done] /\
  snd test_fifth = Failed GameFull /\
  returned (getGameDetails view_ctx test_id (fst test_fifth))
    (fun d => snd d = 4 /\ snd (fst (fst d)) = false) /\
  snd test_start = Done /\
  returned (getGameDetails view_ctx test_id test_started)
    (fun d => snd (fst (fst d)) = true) /\
  (forall i, In i [0; 1; 2; 3] ->
     (exists r, test_clear_role i = Some r) /\
     returned (getPlayerStatus view_ctx test_id (players i) test_started) (fun a => a = true)) /\
  test_role_count 1 = 2%nat /\
  test_role_count 2 = 1%nat /\
  test_role_count 3 = 1%nat /\
  test_werewolf <> -1 /\
  snd test_denied = Failed NotWerewolf /\
  snd test_self = Failed CannotAttackSelf /\
  snd test_attack = Done /\
  returned (getPlayerStatus view_ctx test_id (players test_target) test_attacked)
    (fun a => a = false) /\
  snd test_again = Failed PlayerAlreadyDead /\
  returned (getAlivePlayerCount view_ctx test_id (fst test_again)) (fun n => n = 3).

End Test.

End Contract.

(** ** A concrete run *)

Module Scenario.

(** A stand-in for keccak256, enough to run the contract. *)
Definition sample_hash (words : list Z) : Z := fold_left (fun acc w => 31 * acc + w) words 7.

Definition contract : Z := 4096.

Definition sample_env : Env := mkEnv sample_hash contract.
#[local] Existing Instance sample_env.

(** An engine that derives the handle from the plaintext alone, one
    handle per value, as a deterministic encryption does. *)
Definition plain_engine : ValueEngine :=
  mkValueEngine (fun v _ => 1000 + v) (fun v _ v' _ H => Z.add_reg_l 1000 v v' H).
#[local] Existing Instance plain_engine.

Definition alice : Z := 11.

Definition bob : Z := 12.

Definition carol : Z := 13.

Definition dave : Z := 14.

Definition erin : Z := 15.

Definition by_ (sender : Z) : Ctx := mkCtx sender 1000 2002.

Definition lobby_trace : list (Ctx * Call) :=
  [(by_ alice, CreateGame); (by_ bob, JoinGame 0); (by_ carol, JoinGame 0);
   (by_ dave, JoinGame 0)].

(** Game 0 with four players seated, not started. *)
Definition lobby : State := fst (run_trace lobby_trace init).

(** Game 0 after [bob] started it. *)
Definition game_on : State := fst (exec (by_ bob) (StartGame 0) lobby).

(** Game 0 after the Werewolf, [alice], attacked [bob]. *)
Definition after_attack : State :=
  fst (exec (by_ alice) (Attack 0 bob) game_on).

(** Deployed storage whose identifier counter sits at its maximum. *)
Definition counter_at_max : State := set_nextGameId MAX_UINT256 init.

(** Game 0 with two players seated. *)
Definition waiting_trace : list (Ctx * Call) :=
  [(by_ alice, CreateGame); (by_ bob, JoinGame 0)].

Definition waiting : State := fst (run_trace waiting_trace init).

(** Game 0 after the Werewolf attacked all three others. *)
Definition endgame : State :=
  fst (run_trace [(by_ alice, Attack 0 carol); (by_ alice, Attack 0 dave)] after_attack).

(** A second game, created, filled and started while game 0 is running. *)
Definition frank : Z := 16.

Definition grace : Z := 17.

Definition heidi : Z := 18.

Definition ivan : Z := 19.

Definition second_trace : list (Ctx * Call) :=
  [(by_ frank, CreateGame); (by_ grace, JoinGame 1); (by_ heidi, JoinGame 1);
   (by_ ivan, JoinGame 1); (by_ frank, StartGame 1)].

Definition two_games : State := fst (run_trace second_trace game_on).

(** Five signers and block values for the scenario of the test suite. *)
Definition signers (i : Z) : Z := 11 + i.

Definition blocks (k : Z) : Z * Z := (1000 + k, 2002 + k).

End Scenario.

(** ** The draws of the shuffle, enumerated *)

Module Draws.

(** An environment whose hash makes the three swap indices of the shuffle
    come out as [j3], [j2] and [j1]: the seed hashes to [j3], its re-hash
    with 3 to [j2], the re-hash with 2 to [j1]. *)
Definition draws_env (j : Z * Z * Z) : Env :=
  mkEnv (fun words =>
           match words with
           | [_; i] => if i =? 3 then snd (fst j) else snd j
           | _ => fst (fst j)
           end) 0.

(** All combinations of a draw below 4, a draw below 3 and a draw below 2. *)
Definition all_draws : list (Z * Z * Z) :=
  j3 ← [0; 1; 2; 3]; j2 ← [0; 1; 2]; j1 ← [0; 1]; [(j3, j2, j1)].

(** The twelve arrangements of Villager, Villager, Werewolf, Seer. *)
Definition arrangements : list (array4 Z) :=
  [Array4 1 1 2 3; Array4 1 1 3 2; Array4 1 2 1 3; Array4 1 2 3 1;
   Array4 1 3 1 2; Array4 1 3 2 1; Array4 2 1 1 3; Array4 2 1 3 1;
   Array4 2 3 1 1; Array4 3 1 1 2; Array4 3 1 2 1; Array4 3 2 1 1].

Definition array4_eqb (a b : array4 Z) : bool :=
  (slot0 a =? slot0 b) && (slot1 a =? slot1 b) && (slot2 a =? slot2 b) && (slot3 a =? slot3 b).

(** The draws for which the loop of [startGame] ends with the roles [r]. *)
Definition draws_giving (ctx : Ctx) (gameId : Z) (r : array4 Z) : list (Z * Z * Z) :=
  List.filter
    (fun j => match @shuffled (draws_env j) (@derive_seed (draws_env j) ctx gameId) with
              | Some r' => array4_eqb r' r
              | None => false
              end) all_draws.

End Draws.

(** * Verification *)

Section Verification.

Context {env : Env} {engine : ValueEngine}.

(** ** Storage lemmas *)

Lemma get4_Some_range {A : Type} (v : array4 A) i x : get4 v i = Some x -> 0 <= i <= 3.
Proof. destruct i as [|[[|[]|]|[]|]|]; cbn; intros; try discriminate; lia. Qed.

Lemma set4_Some_range {A : Type} (v : array4 A) i x v' : set4 v i x = Some v' -> 0 <= i <= 3.
Proof. destruct i as [|[[|[]|]|[]|]|]; cbn; intros; try discriminate; lia. Qed.

Lemma range4_cases i : 0 <= i <= 3 -> i = 0 \/ i = 1 \/ i = 2 \/ i = 3.
Proof. lia. Qed.

Lemma get4_in_range {A : Type} (v : array4 A) i : 0 <= i <= 3 -> exists x, get4 v i = Some x.
Proof. intros H. destruct (range4_cases i H) as [-> | [-> | [-> | ->]]]; cbn; eauto. Qed.

Lemma set4_in_range {A : Type} (v : array4 A) i x : 0 <= i <= 3 -> exists v', set4 v i x = Some v'.
Proof. intros H. destruct (range4_cases i H) as [-> | [-> | [-> | ->]]]; cbn; eauto. Qed.

Lemma get4_set4 {A : Type} (v v' : array4 A) i j x :
  set4 v i x = Some v' -> get4 v' j = if decide (i = j) then Some x else get4 v j.
Proof.
  intros H. pose proof (set4_Some_range _ _ _ _ H) as Hr.
  destruct (range4_cases i Hr) as [-> | [-> | [-> | ->]]]; cbn in H; injection H as <-;
    destruct j as [|[[|[]|]|[]|]|]; reflexivity.
Qed.

Lemma game_at_set_game gameId g s gameId' :
  game_at (set_game gameId g s) gameId' = if decide (gameId = gameId') then g else game_at s gameId'.
Proof.
  unfold game_at, set_game; cbn. rewrite lookup_insert. case_decide; reflexivity.
Qed.

Lemma game_at_set_game_eq gameId g s : game_at (set_game gameId g s) gameId = g.
Proof. rewrite game_at_set_game. case_decide; congruence. Qed.

Lemma game_at_set_game_ne gameId g s gameId' :
  gameId <> gameId' -> game_at (set_game gameId g s) gameId' = game_at s gameId'.
Proof. intros. rewrite game_at_set_game. case_decide; congruence. Qed.

Lemma game_at_set_index gameId p i s gameId' :
  game_at (set_index gameId p i s) gameId' = game_at s gameId'.
Proof. reflexivity. Qed.

Lemma game_at_set_fhe e s gameId : game_at (set_fhe e s) gameId = game_at s gameId.
Proof. reflexivity. Qed.

Lemma game_at_add_event ev s gameId : game_at (add_event ev s) gameId = game_at s gameId.
Proof. reflexivity. Qed.

Lemma game_at_set_nextGameId n s gameId : game_at (set_nextGameId n s) gameId = game_at s gameId.
Proof. reflexivity. Qed.

Lemma index_at_set_index gameId p i s gameId' p' :
  index_at (set_index gameId p i s) gameId' p' =
  if decide (gameId = gameId' /\ p = p') then i else index_at s gameId' p'.
Proof.
  unfold index_at, set_index; cbn. rewrite lookup_insert.
  destruct (decide (gameId = gameId' /\ p = p')) as [[E1 E2]|Hne];
    destruct (decide ((gameId, p) = (gameId', p'))) as [Heq|Hne']; try reflexivity.
  - subst. congruence.
  - injection Heq as E1 E2. exfalso; apply Hne; split; assumption.
Qed.

Lemma index_at_set_game gameId g s gameId' p :
  index_at (set_game gameId g s) gameId' p = index_at s gameId' p.
Proof. reflexivity. Qed.

Lemma index_at_set_fhe e s gameId p : index_at (set_fhe e s) gameId p = index_at s gameId p.
Proof. reflexivity. Qed.

Lemma index_at_add_event ev s gameId p : index_at (add_event ev s) gameId p = index_at s gameId p.
Proof. reflexivity. Qed.

Lemma index_at_set_nextGameId n s gameId p :
  index_at (set_nextGameId n s) gameId p = index_at s gameId p.
Proof. reflexivity. Qed.

Lemma set_game_set_game gameId g1 g2 s :
  set_game gameId g2 (set_game gameId g1 s) = set_game gameId g2 s.
Proof. unfold set_game; cbn. rewrite insert_insert_eq. reflexivity. Qed.

Lemma game_at_init gameId : game_at init gameId = zeroGame.
Proof. reflexivity. Qed.

Lemma index_at_init gameId p : index_at init gameId p = 0.
Proof. reflexivity. Qed.

(** Symbolic execution of a monadic body. *)
Ltac mrun :=
  unfold store_at, load_at, load, update_game, emit, revert_if, checked_add, checked_sub,
    index, bind, gets, modify, ret, revert in *.

Ltac storage_rw :=
  repeat first
    [ rewrite game_at_set_game_eq | rewrite game_at_set_index | rewrite game_at_set_fhe
    | rewrite game_at_add_event | rewrite game_at_set_nextGameId | rewrite index_at_set_game
    | rewrite index_at_set_fhe | rewrite index_at_add_event | rewrite index_at_set_nextGameId
    | rewrite set_game_set_game ].

Ltac msimpl :=
  repeat (progress (cbn -[Z.add Z.sub Z.leb Z.eqb Z.modulo]; storage_rw)).

(** Two states built from the same writes in a different order. *)
Ltac state_eq :=
  unfold set_game, set_index, set_fhe, add_event, set_nextGameId; cbn;
  rewrite ?insert_insert_eq; reflexivity.

Lemma addPlayer_ok gameId player s ps al :
  let g := game_at s gameId in
  set4 (players g) (playerCount g) player = Some ps ->
  set4 (alive g) (playerCount g) true = Some al ->
  _addPlayer gameId player s =
  Ok tt (set_game gameId
           (mkGame (creator g) ps (encryptedRoles g) (roles g) al (playerCount g + 1) (started g))
           (set_index gameId player (playerCount g + 1) s)).
Proof.
  intros g Hp Ha. subst g. pose proof (set4_Some_range _ _ _ _ Hp) as Hr.
  unfold _addPlayer. mrun. rewrite Hp. msimpl.
  assert (Hle : (playerCount (game_at s gameId) + 1 <=? MAX_UINT8) = true)
    by (unfold MAX_UINT8; lia).
  rewrite Hle. msimpl. rewrite Ha. msimpl. f_equal. state_eq.
Qed.

Lemma createGame_ok ctx s :
  _nextGameId s < MAX_UINT256 ->
  game_at s (_nextGameId s) = zeroGame ->
  createGame ctx s =
  Ok (_nextGameId s)
     (add_event (GameCreated (_nextGameId s) (msg_sender ctx))
        (set_game (_nextGameId s) (created_game (msg_sender ctx))
           (set_index (_nextGameId s) (msg_sender ctx) 1
              (set_nextGameId (_nextGameId s + 1) s)))).
Proof.
  intros Hlt Hz. unfold createGame. mrun.
  assert (Hle : (_nextGameId s + 1 <=? MAX_UINT256) = true) by lia.
  rewrite Hle. cbn -[_addPlayer Z.add].
  erewrite addPlayer_ok; storage_rw; rewrite ?Hz; cbn; try reflexivity.
  f_equal. state_eq.
Qed.

Lemma joinGame_unfold ctx gameId s :
  joinGame ctx gameId s =
  let g := game_at s gameId in
  if creator g =? 0 then Revert GameNotFound s
  else if started g then Revert GameAlreadyStarted s
  else if 4 <=? playerCount g then Revert GameFull s
  else if negb (index_at s gameId (msg_sender ctx) =? 0) then Revert PlayerAlreadyJoined s
  else (_addPlayer gameId (msg_sender ctx) ;;; emit (PlayerJoined gameId (msg_sender ctx))) s.
Proof.
  unfold joinGame. mrun. cbn.
  destruct (creator (game_at s gameId) =? 0); [reflexivity|].
  destruct (started (game_at s gameId)); [reflexivity|].
  destruct (4 <=? playerCount (game_at s gameId)); [reflexivity|].
  destruct (index_at s gameId (msg_sender ctx) =? 0); reflexivity.
Qed.

(** ** The shuffle *)

Lemma mod_range seed m : 0 < m -> 0 <= seed mod m <= m - 1.
Proof. intros H. pose proof (Z.mod_pos_bound seed m H). lia. Qed.

Lemma shuffle_body_ok i rs seed s :
  1 <= i <= 3 ->
  shuffle_body i (rs, seed) s = Ok (swap4 rs i (seed mod (i + 1)), rehash seed i) s.
Proof.
  intros Hi. unfold shuffle_body, checked_mod, rehash. mrun. cbn [fst snd].
  assert (Hadd : (i + 1 <=? MAX_UINT256) = true) by (unfold MAX_UINT256; lia).
  assert (Hnz : (i + 1 =? 0) = false) by lia.
  rewrite Hadd, Hnz.
  pose proof (mod_range seed (i + 1) ltac:(lia)) as Hm.
  remember (seed mod (i + 1)) as j eqn:Hj. clear Hj Hadd Hnz.
  destruct rs as [r0 r1 r2 r3].
  assert (E : i = 1 /\ (j = 0 \/ j = 1) \/ i = 2 /\ (j = 0 \/ j = 1 \/ j = 2) \/
              i = 3 /\ (j = 0 \/ j = 1 \/ j = 2 \/ j = 3)) by lia.
  clear Hi Hm.
  destruct E as [[-> E] | [[-> E] | [-> E]]];
    repeat (destruct E as [-> | E]); subst; reflexivity.
Qed.

Lemma shuffle_loop_ok rs seed s :
  exists seed', for_each [3; 2; 1] shuffle_body (rs, seed) s = Ok (fisher_yates 3 rs seed, seed') s.
Proof.
  cbn -[shuffle_body Z.modulo fisher_yates]. unfold bind.
  rewrite shuffle_body_ok by lia. rewrite shuffle_body_ok by lia. rewrite shuffle_body_ok by lia.
  eexists. reflexivity.
Qed.

Lemma swap4_perm rs i j :
  0 <= i <= 3 -> 0 <= j <= 3 -> Permutation (to_list4 (swap4 rs i j)) (to_list4 rs).
Proof.
  intros Hi Hj. destruct rs as [r0 r1 r2 r3].
  destruct (range4_cases i Hi) as [-> | [-> | [-> | ->]]];
    destruct (range4_cases j Hj) as [-> | [-> | [-> | ->]]];
    cbn; solve_Permutation.
Qed.

Lemma fisher_yates_perm n rs seed :
  (n <= 3)%nat -> Permutation (to_list4 (fisher_yates n rs seed)) (to_list4 rs).
Proof.
  revert rs seed. induction n as [|n IH]; intros rs seed Hn; [reflexivity|].
  cbn -[Z.modulo swap4 Z.of_nat to_list4]. rewrite IH by lia.
  assert (Hm := mod_range seed (Z.of_nat (S n) + 1) ltac:(lia)).
  apply swap4_perm; lia.
Qed.

Lemma assign_seat_ok gameId rs i s r p rs' hs' al' :
  let g := game_at s gameId in
  get4 rs i = Some r ->
  get4 (players g) i = Some p ->
  set4 (roles g) i r = Some rs' ->
  set4 (encryptedRoles g) i (handle_of r (encryptions (fhe s))) = Some hs' ->
  set4 (alive g) i true = Some al' ->
  assign_seat gameId rs i tt s =
  Ok tt (set_game gameId
           (mkGame (creator g) (players g) hs' rs' al' (playerCount g) (started g))
           (set_fhe (seat_engine r p (fhe s)) s)).
Proof.
  intros g Hr Hp Hrs Hhs Hal. subst g.
  unfold assign_seat, asEuint8, allowThis, allow, seat_engine. mrun.
  rewrite Hr. msimpl. rewrite Hrs. msimpl.
  change (fst (encrypt r (fhe s))) with (handle_of r (encryptions (fhe s))).
  rewrite Hhs. msimpl.
  rewrite (get4_set4 _ _ _ i _ Hhs). case_decide; [|congruence]. msimpl.
  rewrite (get4_set4 _ _ _ i _ Hhs). case_decide; [|congruence]. msimpl.
  rewrite Hp. msimpl. rewrite Hal. msimpl. f_equal. state_eq.
Qed.

Lemma encryptions_seat_engine r p e : encryptions (seat_engine r p e) = encryptions e + 1.
Proof. reflexivity. Qed.

Lemma assign_loop_ok gameId rs s :
  let g := game_at s gameId in
  for_each [0; 1; 2; 3] (assign_seat gameId rs) tt s =
  Ok tt (set_game gameId
           (mkGame (creator g) (players g) (started_handles rs (encryptions (fhe s))) rs
                   (fill4 true) (playerCount g) (started g))
           (set_fhe (started_engine rs (players g) (fhe s)) s)).
Proof.
  intros g. subst g. destruct rs as [r0 r1 r2 r3].
  unfold for_each, bind.
  erewrite assign_seat_ok by reflexivity. cbn [ret]. storage_rw.
  erewrite assign_seat_ok by reflexivity. cbn [ret]. storage_rw.
  erewrite assign_seat_ok by reflexivity. cbn [ret]. storage_rw.
  erewrite assign_seat_ok by reflexivity. cbn [ret]. storage_rw.
  unfold ret. f_equal. 
  cbn [creator players encryptedRoles roles alive playerCount started slot0 slot1 slot2 slot3 fhe set_fhe set_game].
  rewrite !encryptions_seat_engine.
  unfold started_engine, started_handles, fill4. cbn [slot0 slot1 slot2 slot3].
  replace (encryptions (fhe s) + 1 + 1) with (encryptions (fhe s) + 2) by lia.
  replace (encryptions (fhe s) + 2 + 1) with (encryptions (fhe s) + 3) by lia.
  state_eq.
Qed.

Lemma startGame_unfold ctx gameId s :
  startGame ctx gameId s =
  let g := game_at s gameId in
  if creator g =? 0 then Revert GameNotFound s
  else if started g then Revert GameAlreadyStarted s
  else if index_at s gameId (msg_sender ctx) =? 0 then Revert PlayerNotInGame s
  else if negb (playerCount g =? 4) then Revert GameNotReady s
  else Ok tt (started_state ctx gameId s).
Proof.
  unfold startGame. cbn zeta.
  unfold bind at 1. unfold load at 1, gets at 1. unfold bind at 1.
  destruct (creator (game_at s gameId) =? 0); [reflexivity|]. cbn [revert_if ret].
  unfold bind at 1. unfold load at 1, gets at 1. unfold bind at 1.
  destruct (started (game_at s gameId)) eqn:Hst; [reflexivity|]. cbn [revert_if ret].
  unfold bind at 1. unfold gets at 1. unfold bind at 1.
  destruct (index_at s gameId (msg_sender ctx) =? 0); [reflexivity|]. cbn [revert_if ret].
  unfold bind at 1. unfold load at 1, gets at 1. unfold bind at 1.
  destruct (playerCount (game_at s gameId) =? 4); [|reflexivity]. cbn [revert_if ret negb].
  unfold bind at 1.
  destruct (shuffle_loop_ok canonical_roles
              (to_uint256 (keccak256 [block_prevrandao ctx; block_timestamp ctx;
                                      msg_sender ctx; gameId])) s) as [seed' Hs].
  unfold canonical_roles in Hs. rewrite Hs. cbn [fst].
  unfold bind at 1. rewrite assign_loop_ok.
  unfold update_game, emit, modify, bind. storage_rw.
  unfold started_state, started_game, reference_roles, derive_seed, canonical_roles.
  rewrite Hst. f_equal.
Qed.

Lemma get4_default {A : Type} (v : array4 A) i d :
  0 <= i <= 3 -> get4 v i = Some (default d (get4 v i)).
Proof. intros H. destruct (get4_in_range v i H) as [x ->]. reflexivity. Qed.

Lemma attack_unfold ctx gameId target s :
  let g := game_at s gameId in
  let ai := index_at s gameId (msg_sender ctx) in
  let ti := index_at s gameId target in
  (ai <> 0 -> 1 <= ai <= 4) -> (ti <> 0 -> 1 <= ti <= 4) ->
  attack ctx gameId target s =
  if creator g =? 0 then Revert GameNotFound s
  else if negb (started g) then Revert GameNotStarted s
  else if ai =? 0 then Revert PlayerNotInGame s
  else if negb (seat_alive g (ai - 1)) then Revert PlayerAlreadyDead s
  else if negb (seat_role g (ai - 1) =? 2) then Revert NotWerewolf s
  else if ti =? 0 then Revert PlayerNotInGame s
  else if negb (seat_alive g (ti - 1)) then Revert PlayerAlreadyDead s
  else if ti - 1 =? ai - 1 then Revert CannotAttackSelf s
  else Ok tt (attacked_state ctx gameId target s).
Proof.
  intros g ai ti Ha Ht. subst g ai ti. unfold attack, seat_alive, seat_role. mrun.
  cbn beta iota zeta.
  destruct (creator (game_at s gameId) =? 0); [reflexivity|].
  destruct (started (game_at s gameId)); [|reflexivity]. cbn [negb].
  destruct (Z.eqb_spec (index_at s gameId (msg_sender ctx)) 0) as [|Hai]; [reflexivity|].
  specialize (Ha Hai). rewrite (proj2 (Z.leb_le _ _) (proj1 Ha)).
  destruct (get4_in_range (alive (game_at s gameId))
              (index_at s gameId (msg_sender ctx) - 1) ltac:(lia)) as [a Hal].
  rewrite Hal. cbn [default from_option id].
  destruct a; [|reflexivity]. cbn [negb].
  destruct (get4_in_range (roles (game_at s gameId))
              (index_at s gameId (msg_sender ctx) - 1) ltac:(lia)) as [r Hr].
  rewrite Hr. cbn [default from_option id].
  destruct (r =? 2); [|reflexivity]. cbn [negb].
  destruct (Z.eqb_spec (index_at s gameId target) 0) as [|Hti]; [reflexivity|].
  specialize (Ht Hti). rewrite (proj2 (Z.leb_le _ _) (proj1 Ht)).
  destruct (get4_in_range (alive (game_at s gameId))
              (index_at s gameId target - 1) ltac:(lia)) as [t Htl].
  rewrite Htl. cbn [default from_option id].
  destruct t; [|reflexivity]. cbn [negb].
  destruct (index_at s gameId target - 1 =? index_at s gameId (msg_sender ctx) - 1);
    [reflexivity|].
  unfold attacked_state, kill_seat.
  destruct (set4_in_range (alive (game_at s gameId)) (index_at s gameId target - 1) false
              ltac:(lia)) as [al Hset].
  rewrite Hset. reflexivity.
Qed.

(** ** The engine's access-control list *)

Lemma allowed_seat_engine r p e h a :
  allowed (seat_engine r p e) h a <->
  allowed e h a \/ (h = handle_of r (encryptions e) /\ (a = this \/ a = p)).
Proof.
  unfold allowed, seat_engine, grantAccess, encrypt; cbn.
  rewrite !elem_of_union, !elem_of_singleton. split.
  - intros [E | [E | E]]; [injection E as -> -> | injection E as -> -> |]; auto.
  - intros [E | [-> [-> | ->]]]; auto.
Qed.

Lemma allowed_started_engine rs ps e h a :
  allowed (started_engine rs ps e) h a <->
  allowed e h a \/
  (h = slot0 (started_handles rs (encryptions e)) /\ (a = this \/ a = slot0 ps)) \/
  (h = slot1 (started_handles rs (encryptions e)) /\ (a = this \/ a = slot1 ps)) \/
  (h = slot2 (started_handles rs (encryptions e)) /\ (a = this \/ a = slot2 ps)) \/
  (h = slot3 (started_handles rs (encryptions e)) /\ (a = this \/ a = slot3 ps)).
Proof.
  unfold started_engine, started_handles. cbn [slot0 slot1 slot2 slot3].
  rewrite !allowed_seat_engine, !encryptions_seat_engine.
  replace (encryptions e + 1 + 1) with (encryptions e + 2) by lia.
  replace (encryptions e + 2 + 1) with (encryptions e + 3) by lia.
  tauto.
Qed.

Lemma encryptions_started_engine rs ps e :
  encryptions (started_engine rs ps e) = encryptions e + 4.
Proof. unfold started_engine. rewrite !encryptions_seat_engine. lia. Qed.

Lemma extends_refl e : extends e e.
Proof. intros h a H. exact H. Qed.

Lemma game_wf_frame s s' gameId :
  game_at s' gameId = game_at s gameId ->
  (forall p, index_at s' gameId p = index_at s gameId p) ->
  extends (fhe s) (fhe s') ->
  game_wf s gameId -> game_wf s' gameId.
Proof.
  intros Hg Hi He [A B C D E F].
  split; rewrite ?Hg; try assumption.
  - intros Hc. destruct (A Hc) as [A1 A2]. split; [assumption|].
    intros p. rewrite Hi. apply A2.
  - intros p. rewrite Hi. apply C.
  - intros Hst i h p Hh Hp. destruct (F Hst i h p Hh Hp) as [F1 F2].
    split; apply He; assumption.
Qed.

Lemma wf_init : wf init.
Proof.
  split.
  - cbn. lia.
  - intros gameId _. reflexivity.
  - intros gameId. split; rewrite ?game_at_init; cbn; try (intros; discriminate); try lia.
    + intros _. split; [reflexivity | intros p; apply index_at_init].
    + intros p H. rewrite index_at_init in H. congruence.
Qed.

(** ** Every transaction preserves well-formedness *)

Lemma createGame_full ctx s :
  MAX_UINT256 <= _nextGameId s -> createGame ctx s = Revert (Panic 0x11) s.
Proof.
  intros H. unfold createGame. mrun.
  assert (Hle : (_nextGameId s + 1 <=? MAX_UINT256) = false) by lia.
  rewrite Hle. reflexivity.
Qed.

Lemma createGame_inv ctx s gameId s' :
  wf s -> createGame ctx s = Ok gameId s' ->
  gameId = _nextGameId s /\ _nextGameId s < MAX_UINT256 /\
  s' = add_event (GameCreated gameId (msg_sender ctx))
         (set_game gameId (created_game (msg_sender ctx))
            (set_index gameId (msg_sender ctx) 1 (set_nextGameId (gameId + 1) s))).
Proof.
  intros Hwf H.
  destruct (Z_lt_dec (_nextGameId s) MAX_UINT256) as [Hlt|Hge].
  - rewrite createGame_ok in H; [injection H as <- <-; auto | assumption |].
    apply (wf_absent _ _ (wf_games _ Hwf _)). apply (wf_fresh _ Hwf). lia.
  - rewrite createGame_full in H by lia. discriminate.
Qed.

Lemma wf_createGame ctx s gameId s' :
  wf s -> msg_sender ctx <> 0 -> createGame ctx s = Ok gameId s' -> wf s'.
Proof.
  intros Hwf Hs H. destruct (createGame_inv _ _ _ _ Hwf H) as (-> & Hlt & ->).
  pose proof (wf_fresh _ Hwf (_nextGameId s) ltac:(lia)) as Hc.
  destruct (wf_absent _ _ (wf_games _ Hwf _) Hc) as [Hz Hi0].
  split.
  - cbn. pose proof (wf_next _ Hwf). lia.
  - intros g Hg. cbn in Hg. storage_rw. rewrite game_at_set_game_ne by lia.
    storage_rw. apply (wf_fresh _ Hwf). lia.
  - intros g. destruct (decide (g = _nextGameId s)) as [->|Hne].
    + split; storage_rw; cbn.
      * intros E. congruence.
      * lia.
      * intros p. storage_rw. rewrite index_at_set_index. case_decide as Hd.
        -- destruct Hd as [_ <-]. intros _. split; [assumption|]. split; [lia|reflexivity].
        -- rewrite index_at_set_nextGameId, Hi0. congruence.
      * intros i p Hi. assert (i = 0) as -> by lia. cbn. congruence.
      * discriminate.
      * discriminate.
    + eapply game_wf_frame; [| | | apply (wf_games _ Hwf g)].
      * storage_rw. rewrite game_at_set_game_ne by congruence. reflexivity.
      * intros p. storage_rw. rewrite index_at_set_index. case_decide as Hd; [|reflexivity].
        destruct Hd as [Hd _]. congruence.
      * apply extends_refl.
Qed.

Lemma joinGame_inv ctx gameId s s' :
  game_wf s gameId -> joinGame ctx gameId s = Ok tt s' ->
  let g := game_at s gameId in
  creator g <> 0 /\ started g = false /\ playerCount g < 4 /\
  index_at s gameId (msg_sender ctx) = 0 /\
  exists ps al,
    set4 (players g) (playerCount g) (msg_sender ctx) = Some ps /\
    set4 (alive g) (playerCount g) true = Some al /\
    s' = add_event (PlayerJoined gameId (msg_sender ctx))
           (set_game gameId
              (mkGame (creator g) ps (encryptedRoles g) (roles g) al (playerCount g + 1) false)
              (set_index gameId (msg_sender ctx) (playerCount g + 1) s)).
Proof.
  intros Hwf H g. subst g. pose proof (wf_count _ _ Hwf) as Hn.
  rewrite joinGame_unfold in H. cbn zeta in H.
  destruct (Z.eqb_spec (creator (game_at s gameId)) 0) as [|Hc]; [discriminate|].
  destruct (started (game_at s gameId)) eqn:Hst; [discriminate|].
  destruct (Z.leb_spec 4 (playerCount (game_at s gameId))) as [|Hlt]; [discriminate|].
  destruct (Z.eqb_spec (index_at s gameId (msg_sender ctx)) 0) as [Hix|]; [|discriminate].
  cbn [negb] in H.
  destruct (set4_in_range (players (game_at s gameId)) (playerCount (game_at s gameId))
              (msg_sender ctx) ltac:(lia)) as [ps Hps].
  destruct (set4_in_range (alive (game_at s gameId)) (playerCount (game_at s gameId))
              true ltac:(lia)) as [al Hal].
  unfold bind in H. erewrite addPlayer_ok in H by eassumption.
  rewrite Hst in H. injection H as <-.
  repeat split; try assumption. exists ps, al. auto.
Qed.

Lemma wf_joinGame ctx gameId s s' :
  wf s -> msg_sender ctx <> 0 -> joinGame ctx gameId s = Ok tt s' -> wf s'.
Proof.
  intros Hwf Hs H.
  destruct (joinGame_inv _ _ _ _ (wf_games _ Hwf gameId) H)
    as (Hc & Hst & Hn & Hix & ps & al & Hps & Hal & ->).
  pose proof (wf_games _ Hwf gameId) as [A B C D E F].
  split.
  - apply (wf_next _ Hwf).
  - intros g Hg. cbn in Hg. storage_rw.
    assert (gameId <> g).
    { intros ->. apply Hc. apply (wf_fresh _ Hwf). assumption. }
    rewrite game_at_set_game_ne by assumption. storage_rw. apply (wf_fresh _ Hwf). assumption.
  - intros g. destruct (decide (g = gameId)) as [->|Hne].
    + split; storage_rw; cbn.
      * intros E'. congruence.
      * lia.
      * intros p. storage_rw. rewrite index_at_set_index. case_decide as Hd.
        -- destruct Hd as [_ <-]. intros _. split; [assumption|]. split; [lia|].
           replace (playerCount (game_at s gameId) + 1 - 1)
             with (playerCount (game_at s gameId)) by lia.
           rewrite (get4_set4 _ _ _ _ _ Hps). case_decide; congruence.
        -- intros Hp. destruct (C p Hp) as (C1 & C2 & C3). split; [assumption|].
           split; [lia|]. rewrite (get4_set4 _ _ _ _ _ Hps).
           case_decide; [lia | assumption].
      * intros i p Hi. rewrite (get4_set4 _ _ _ _ _ Hps). case_decide.
        -- congruence.
        -- apply D. lia.
      * discriminate.
      * discriminate.
    + eapply game_wf_frame; [| | | apply (wf_games _ Hwf g)].
      * storage_rw. rewrite game_at_set_game_ne by congruence. reflexivity.
      * intros p. storage_rw. rewrite index_at_set_index. case_decide as Hd; [|reflexivity].
        destruct Hd as [Hd _]. congruence.
      * apply extends_refl.
Qed.

Lemma startGame_inv ctx gameId s s' :
  startGame ctx gameId s = Ok tt s' ->
  let g := game_at s gameId in
  creator g <> 0 /\ started g = false /\ index_at s gameId (msg_sender ctx) <> 0 /\
  playerCount g = 4 /\ s' = started_state ctx gameId s.
Proof.
  intros H g. subst g. rewrite startGame_unfold in H. cbn zeta in H.
  destruct (Z.eqb_spec (creator (game_at s gameId)) 0) as [|Hc]; [discriminate|].
  destruct (started (game_at s gameId)) eqn:Hst; [discriminate|].
  destruct (Z.eqb_spec (index_at s gameId (msg_sender ctx)) 0) as [|Hix]; [discriminate|].
  destruct (Z.eqb_spec (playerCount (game_at s gameId)) 4) as [Hn|]; [|discriminate].
  cbn [negb] in H. injection H as <-. auto.
Qed.

Lemma extends_started_engine rs ps e : extends e (started_engine rs ps e).
Proof. intros h a H. apply allowed_started_engine. left. exact H. Qed.

Lemma wf_startGame ctx gameId s s' :
  wf s -> startGame ctx gameId s = Ok tt s' -> wf s'.
Proof.
  intros Hwf H.
  destruct (startGame_inv _ _ _ _ H) as (Hc & Hst & Hix & Hn & ->).
  pose proof (wf_games _ Hwf gameId) as [A B C D E F].
  unfold started_state. split.
  - apply (wf_next _ Hwf).
  - intros g Hg. cbn in Hg. storage_rw.
    assert (gameId <> g).
    { intros ->. apply Hc. apply (wf_fresh _ Hwf). assumption. }
    rewrite game_at_set_game_ne by assumption. storage_rw. apply (wf_fresh _ Hwf). assumption.
  - intros g. destruct (decide (g = gameId)) as [->|Hne].
    + split; storage_rw; cbn [creator players encryptedRoles roles alive playerCount started
                               started_game fhe add_event set_game set_fhe].
      * intros E'. congruence.
      * assumption.
      * intros p. storage_rw. apply C.
      * assumption.
      * intros _. split; [assumption|]. split.
        -- apply (fisher_yates_perm 3). lia.
        -- intros i Hi. apply get4_Some_range in Hi.
           destruct (range4_cases i Hi) as [-> | [-> | [-> | ->]]]; reflexivity.
      * intros _ i h p Hh Hp.
        pose proof (get4_Some_range _ _ _ Hh) as Hi.
        destruct (players (game_at s gameId)) as [p0 p1 p2 p3].
        destruct (range4_cases i Hi) as [-> | [-> | [-> | ->]]];
          cbn [get4] in Hh, Hp; injection Hh as <-; injection Hp as <-;
          split; apply allowed_started_engine; cbn [slot0 slot1 slot2 slot3]; auto 10.
    + eapply game_wf_frame; [| | | apply (wf_games _ Hwf g)].
      * storage_rw. rewrite game_at_set_game_ne by congruence. reflexivity.
      * intros p. storage_rw. reflexivity.
      * cbn [fhe add_event set_game set_fhe]. apply extends_started_engine.
Qed.

(** ** The Werewolf seat *)

Lemma werewolf_count rs :
  Permutation (to_list4 rs) [1; 1; 2; 3] -> count_occ Z.eq_dec (to_list4 rs) 2 = 1%nat.
Proof.
  intros H. rewrite (proj1 (Permutation_count_occ Z.eq_dec _ _) H). reflexivity.
Qed.

Lemma werewolf_unique rs i j :
  Permutation (to_list4 rs) [1; 1; 2; 3] ->
  get4 rs i = Some 2 -> get4 rs j = Some 2 -> i = j.
Proof.
  intros H Hi Hj. apply werewolf_count in H.
  pose proof (get4_Some_range _ _ _ Hi) as Ri. pose proof (get4_Some_range _ _ _ Hj) as Rj.
  destruct rs as [r0 r1 r2 r3]. unfold to_list4 in H. cbn [slot0 slot1 slot2 slot3] in H.
  destruct (range4_cases i Ri) as [-> | [-> | [-> | ->]]];
    destruct (range4_cases j Rj) as [-> | [-> | [-> | ->]]];
    try reflexivity; cbn in Hi, Hj; injection Hi as ->; injection Hj as ->;
    exfalso; cbn in H;
    repeat match type of H with context [Z.eq_dec ?a ?b] => destruct (Z.eq_dec a b) end;
    congruence.
Qed.

Lemma werewolf_exists rs :
  Permutation (to_list4 rs) [1; 1; 2; 3] -> exists i, get4 rs i = Some 2.
Proof.
  intros H. assert (Hin : In 2 (to_list4 rs)).
  { eapply Permutation_in; [symmetry; exact H|]. cbn. auto. }
  destruct rs as [r0 r1 r2 r3]. cbn in Hin.
  destruct Hin as [<- | [<- | [<- | [<- | []]]]];
    [exists 0 | exists 1 | exists 2 | exists 3]; reflexivity.
Qed.

Lemma attack_inv ctx gameId target s s' :
  game_wf s gameId -> attack ctx gameId target s = Ok tt s' ->
  let g := game_at s gameId in
  let ai := index_at s gameId (msg_sender ctx) in
  let ti := index_at s gameId target in
  creator g <> 0 /\ started g = true /\ ai <> 0 /\ ti <> 0 /\
  seat_alive g (ai - 1) = true /\ seat_role g (ai - 1) = 2 /\
  seat_alive g (ti - 1) = true /\ ti <> ai /\
  s' = attacked_state ctx gameId target s.
Proof.
  intros Hwf H g ai ti. subst g ai ti.
  pose proof (wf_count _ _ Hwf) as Hn.
  rewrite attack_unfold in H.
  2,3: intros Hx; destruct (wf_index _ _ Hwf _ Hx) as (_ & ? & _); lia.
  destruct (Z.eqb_spec (creator (game_at s gameId)) 0) as [|Hc]; [discriminate|].
  destruct (started (game_at s gameId)) eqn:Hst; [|discriminate]. cbn [negb] in H.
  destruct (Z.eqb_spec (index_at s gameId (msg_sender ctx)) 0) as [|Hai]; [discriminate|].
  destruct (seat_alive (game_at s gameId) (index_at s gameId (msg_sender ctx) - 1)) eqn:Haa;
    [|discriminate]. cbn [negb] in H.
  destruct (Z.eqb_spec (seat_role (game_at s gameId)
              (index_at s gameId (msg_sender ctx) - 1)) 2) as [Hr|]; [|discriminate].
  cbn [negb] in H.
  destruct (Z.eqb_spec (index_at s gameId target) 0) as [|Hti]; [discriminate|].
  destruct (seat_alive (game_at s gameId) (index_at s gameId target - 1)) eqn:Hta;
    [|discriminate]. cbn [negb] in H.
  destruct (Z.eqb_spec (index_at s gameId target - 1)
              (index_at s gameId (msg_sender ctx) - 1)) as [|Hne]; [discriminate|].
  injection H as <-. repeat split; try assumption. lia.
Qed.

Lemma wf_attack ctx gameId target s s' :
  wf s -> attack ctx gameId target s = Ok tt s' -> wf s'.
Proof.
  intros Hwf H.
  destruct (attack_inv _ _ _ _ _ (wf_games _ Hwf gameId) H)
    as (Hc & Hst & Hai & Hti & Haa & Hr & Hta & Hne & ->).
  pose proof (wf_games _ Hwf gameId) as [A B C D E F].
  destruct (C _ Hai) as (_ & Ra & _). destruct (C _ Hti) as (_ & Rt & _).
  destruct (set4_in_range (alive (game_at s gameId)) (index_at s gameId target - 1) false
              ltac:(lia)) as [al Hal].
  unfold attacked_state, kill_seat. rewrite Hal. cbn [default from_option id].
  split.
  - apply (wf_next _ Hwf).
  - intros g Hg. cbn in Hg. storage_rw.
    assert (gameId <> g).
    { intros ->. apply Hc. apply (wf_fresh _ Hwf). assumption. }
    rewrite game_at_set_game_ne by assumption. apply (wf_fresh _ Hwf). assumption.
  - intros g. destruct (decide (g = gameId)) as [->|Hne'].
    + split; storage_rw; cbn [creator players encryptedRoles roles alive playerCount started
                               with_alive fhe add_event set_game].
      * intros E'. congruence.
      * assumption.
      * intros p. storage_rw. apply C.
      * assumption.
      * intros Hs. destruct (E Hs) as (E1 & E2 & E3). split; [assumption|].
        split; [assumption|]. intros i Hi.
        rewrite (get4_set4 _ _ _ _ _ Hal). case_decide as Hd; [|apply E3; assumption].
        exfalso. subst i.
        assert (Hw : get4 (roles (game_at s gameId))
                       (index_at s gameId (msg_sender ctx) - 1) = Some 2).
        { rewrite (get4_default _ _ 0) by lia. f_equal. exact Hr. }
        pose proof (werewolf_unique _ _ _ E2 Hi Hw). lia.
      * apply F.
    + eapply game_wf_frame; [| | | apply (wf_games _ Hwf g)].
      * storage_rw. rewrite game_at_set_game_ne by congruence. reflexivity.
      * intros p. storage_rw. reflexivity.
      * apply extends_refl.
Qed.

Lemma wf_exec ctx c s : wf s -> msg_sender ctx <> 0 -> wf (fst (exec ctx c s)).
Proof.
  intros Hwf Hs. unfold exec, run_call.
  destruct c as [|gameId|gameId|gameId target]; unfold bind.
  - destruct (createGame ctx s) as [g s'|e s'] eqn:H; cbn; [|assumption].
    eapply wf_createGame; eassumption.
  - destruct (joinGame ctx gameId s) as [[] s'|e s'] eqn:H; cbn; [|assumption].
    eapply wf_joinGame; eassumption.
  - destruct (startGame ctx gameId s) as [[] s'|e s'] eqn:H; cbn; [|assumption].
    eapply wf_startGame; eassumption.
  - destruct (attack ctx gameId target s) as [[] s'|e s'] eqn:H; cbn; [|assumption].
    eapply wf_attack; eassumption.
Qed.

Lemma reachable_wf s : reachable s -> wf s.
Proof.
  induction 1 as [|ctx c s _ IH Hs]; [apply wf_init | apply wf_exec; assumption].
Qed.

Lemma seat_counts_range g i : 0 <= seat_counts g i <= 1.
Proof. unfold seat_counts. destruct (_ && _); lia. Qed.

Lemma count_seat_ok gameId i n s :
  0 <= i <= 3 -> 0 <= n <= 3 ->
  count_seat gameId i n s = Ok (n + seat_counts (game_at s gameId) i) s.
Proof.
  intros Hi Hn. unfold count_seat, seat_counts, seat_player, seat_alive. mrun.
  destruct (get4_in_range (players (game_at s gameId)) i Hi) as [p ->].
  destruct (get4_in_range (alive (game_at s gameId)) i Hi) as [a ->].
  cbn [default from_option id].
  destruct (negb (p =? 0) && a).
  - rewrite (proj2 (Z.leb_le (n + 1) MAX_UINT8)) by (unfold MAX_UINT8; lia). reflexivity.
  - rewrite Z.add_0_r. reflexivity.
Qed.

Lemma getAlivePlayerCount_ok ctx gameId s :
  creator (game_at s gameId) <> 0 ->
  getAlivePlayerCount ctx gameId s = Ok (alive_count (game_at s gameId)) s.
Proof.
  intros Hc. unfold getAlivePlayerCount, alive_count.
  unfold bind at 1. unfold load at 1, gets at 1. unfold bind at 1.
  rewrite (proj2 (Z.eqb_neq _ _) Hc). cbn [revert_if ret].
  pose proof (seat_counts_range (game_at s gameId) 0).
  pose proof (seat_counts_range (game_at s gameId) 1).
  pose proof (seat_counts_range (game_at s gameId) 2).
  unfold for_each, bind.
  rewrite count_seat_ok by lia. rewrite count_seat_ok by lia.
  rewrite count_seat_ok by lia. rewrite count_seat_ok by lia.
  reflexivity.
Qed.

Lemma getPlayerStatus_ok ctx gameId player s :
  creator (game_at s gameId) <> 0 ->
  1 <= index_at s gameId player <= 4 ->
  getPlayerStatus ctx gameId player s =
  Ok (seat_alive (game_at s gameId) (index_at s gameId player - 1)) s.
Proof.
  intros Hc Hi. unfold getPlayerStatus, seat_alive. mrun.
  rewrite (proj2 (Z.eqb_neq _ _) Hc).
  rewrite (proj2 (Z.eqb_neq (index_at s gameId player) 0)) by lia.
  rewrite (proj2 (Z.leb_le 1 _)) by lia.
  destruct (get4_in_range (alive (game_at s gameId)) (index_at s gameId player - 1)
              ltac:(lia)) as [a ->].
  reflexivity.
Qed.

Lemma alive_count_kill g i al :
  0 <= i <= 3 ->
  seat_player g i <> 0 -> seat_alive g i = true ->
  set4 (alive g) i false = Some al ->
  alive_count (with_alive al g) = alive_count g - 1.
Proof.
  intros Hi Hp Ha Hal. unfold alive_count, seat_counts, seat_player, seat_alive in *.
  destruct g as [c [p0 p1 p2 p3] hs rs [a0 a1 a2 a3] n st].
  cbn [players alive with_alive] in *.
  destruct (range4_cases i Hi) as [-> | [-> | [-> | ->]]];
    cbn in Hal; injection Hal as <-; cbn in Hp, Ha; subst;
    cbn [get4 default from_option id slot0 slot1 slot2 slot3];
    rewrite (proj2 (Z.eqb_neq _ _) Hp); cbn [negb andb];
    repeat match goal with |- context [if ?b then _ else _] => destruct b end; lia.
Qed.

Lemma steps_wf s s' : wf s -> steps s s' -> wf s'.
Proof. intros Hwf H. induction H; [assumption | apply wf_exec; auto]. Qed.

Lemma same_setup_refl g : same_setup g g.
Proof. repeat split. Qed.

Lemma exec_started ctx c s gameId :
  wf s -> started (game_at s gameId) = true ->
  same_setup (game_at s gameId) (game_at (fst (exec ctx c s)) gameId) /\
  (forall p, index_at (fst (exec ctx c s)) gameId p = index_at s gameId p).
Proof.
  intros Hwf Hst. unfold exec, run_call.
  assert (Hc : creator (game_at s gameId) <> 0).
  { intros Hc. destruct (wf_absent _ _ (wf_games _ Hwf gameId) Hc) as [Hz _].
    rewrite Hz in Hst. discriminate. }
  destruct c as [|g|g|g target]; unfold bind.
  - destruct (createGame ctx s) as [id s'|e s'] eqn:H; cbn [fst ret];
      [|split; [apply same_setup_refl | reflexivity]].
    destruct (createGame_inv _ _ _ _ Hwf H) as (-> & _ & ->).
    assert (Hne : _nextGameId s <> gameId).
    { intros <-. apply Hc. apply (wf_fresh _ Hwf). lia. }
    storage_rw. rewrite game_at_set_game_ne by assumption. storage_rw.
    split; [apply same_setup_refl|]. intros p. storage_rw.
    rewrite index_at_set_index. case_decide as Hd; [|reflexivity].
    destruct Hd as [Hd _]. congruence.
  - destruct (joinGame ctx g s) as [[] s'|e s'] eqn:H; cbn [fst ret];
      [|split; [apply same_setup_refl | reflexivity]].
    destruct (joinGame_inv _ _ _ _ (wf_games _ Hwf g) H)
      as (_ & Hns & _ & _ & ps & al & _ & _ & ->).
    assert (Hne : g <> gameId) by (intros ->; congruence).
    storage_rw. rewrite game_at_set_game_ne by assumption. storage_rw.
    split; [apply same_setup_refl|]. intros p. storage_rw.
    rewrite index_at_set_index. case_decide as Hd; [|reflexivity].
    destruct Hd as [Hd _]. congruence.
  - destruct (startGame ctx g s) as [[] s'|e s'] eqn:H; cbn [fst ret];
      [|split; [apply same_setup_refl | reflexivity]].
    destruct (startGame_inv _ _ _ _ H) as (_ & Hns & _ & _ & ->).
    assert (Hne : g <> gameId) by (intros ->; congruence).
    unfold started_state. storage_rw. rewrite game_at_set_game_ne by assumption. storage_rw.
    split; [apply same_setup_refl|]. intros p. storage_rw. reflexivity.
  - destruct (attack ctx g target s) as [[] s'|e s'] eqn:H; cbn [fst ret];
      [|split; [apply same_setup_refl | reflexivity]].
    destruct (attack_inv _ _ _ _ _ (wf_games _ Hwf g) H) as (_ & _ & _ & _ & _ & _ & _ & _ & ->).
    unfold attacked_state. storage_rw. split; [|intros p; storage_rw; reflexivity].
    destruct (decide (g = gameId)) as [->|Hne].
    + storage_rw. unfold kill_seat. repeat split.
    + rewrite game_at_set_game_ne by assumption. apply same_setup_refl.
Qed.

Lemma steps_started s s' gameId :
  wf s -> started (game_at s gameId) = true -> steps s s' ->
  same_setup (game_at s gameId) (game_at s' gameId) /\
  (forall p, index_at s' gameId p = index_at s gameId p).
Proof.
  intros Hwf Hst H. induction H as [|ctx c s s1 H IH Hs].
  - split; [apply same_setup_refl | reflexivity].
  - destruct (IH Hwf Hst) as [(S1 & S2 & S3 & S4 & S5 & S6) Hix].
    pose proof (steps_wf _ _ Hwf H) as Hwf1.
    assert (Hst1 : started (game_at s1 gameId) = true) by congruence.
    destruct (exec_started ctx c s1 gameId Hwf1 Hst1)
      as [(T1 & T2 & T3 & T4 & T5 & T6) Hix'].
    split; [repeat split; congruence|].
    intros p. rewrite Hix'. apply Hix.
Qed.

(** * Main theorems *)

(** C1. After a successful [startGame], whatever the seed, the four
    entries of [roles] are a permutation of 1, 1, 2, 3 (Villager,
    Villager, Werewolf, Seer); in particular role code 2 occurs once, at
    exactly one seat. *)
Theorem startGame_roles_multiset ctx gameId s s' :
  startGame ctx gameId s = Ok tt s' ->
  Permutation (to_list4 (roles (game_at s' gameId))) [1; 1; 2; 3] /\
  count_occ Z.eq_dec (to_list4 (roles (game_at s' gameId))) 2 = 1%nat /\
  exists w, get4 (roles (game_at s' gameId)) w = Some 2 /\
            forall i, get4 (roles (game_at s' gameId)) i = Some 2 -> i = w.
Proof.
  intros H. destruct (startGame_inv _ _ _ _ H) as (_ & _ & _ & _ & ->).
  unfold started_state. storage_rw. cbn [roles started_game].
  assert (P : Permutation (to_list4 (reference_roles ctx gameId)) [1; 1; 2; 3])
    by (apply (fisher_yates_perm 3); lia).
  split; [exact P|]. split; [apply werewolf_count; exact P|].
  destruct (werewolf_exists _ P) as [w Hw]. exists w. split; [exact Hw|].
  intros i Hi. apply (werewolf_unique _ _ _ P Hi Hw).
Qed.

(** C3. The shuffle of [startGame] is the specification's algorithm: the
    loop run on the canonical order with the derived seed returns
    [reference_roles], and these are the roles a successful [startGame]
    stores, seat by seat. *)
Theorem startGame_shuffle_refines ctx gameId s s' :
  startGame ctx gameId s = Ok tt s' ->
  (exists seed',
     for_each [3; 2; 1] shuffle_body (Array4 1 1 2 3, derive_seed ctx gameId) s =
     Ok (reference_roles ctx gameId, seed') s) /\
  roles (game_at s' gameId) = reference_roles ctx gameId.
Proof.
  intros H. split; [apply shuffle_loop_ok|].
  destruct (startGame_inv _ _ _ _ H) as (_ & _ & _ & _ & ->).
  unfold started_state. storage_rw. reflexivity.
Qed.

(** C4. A successful [attack] sets the target's [alive] entry to false
    and changes nothing else: the alive count drops by exactly one,
    [getPlayerStatus] of the target then returns false, every other
    seat's liveness, and the players, roles, handles, player count and
    started flag of the game, every other game, the seat index, the
    identifier counter and the engine are as before; the only other
    effect is the logged event. *)
Theorem attack_frame ctx gameId target s s' :
  reachable s ->
  attack ctx gameId target s = Ok tt s' ->
  let g := game_at s gameId in
  let g' := game_at s' gameId in
  let t := index_at s gameId target - 1 in
  get4 (players g) t = Some target /\
  get4 (alive g) t = Some true /\
  get4 (alive g') t = Some false /\
  (forall i, i <> t -> get4 (alive g') i = get4 (alive g) i) /\
  same_setup g g' /\
  (forall other, other <> gameId -> game_at s' other = game_at s other) /\
  (forall other p, index_at s' other p = index_at s other p) /\
  _nextGameId s' = _nextGameId s /\
  fhe s' = fhe s /\
  events s' = events s ++ [PlayerAttacked gameId (msg_sender ctx) target] /\
  (forall ctx', exists n,
     getAlivePlayerCount ctx' gameId s = Ok n s /\
     getAlivePlayerCount ctx' gameId s' = Ok (n - 1) s') /\
  (forall ctx', getPlayerStatus ctx' gameId target s' = Ok false s').
Proof.
  intros Hr H g g' t. subst g g' t.
  pose proof (reachable_wf _ Hr) as Hwf.
  pose proof (wf_games _ Hwf gameId) as Hg.
  destruct (attack_inv _ _ _ _ _ Hg H) as (Hc & Hst & Hai & Hti & Haa & Hrl & Hta & Hne & ->).
  destruct (wf_index _ _ Hg _ Hti) as (Ht0 & Rt & Hpt).
  pose proof (wf_count _ _ Hg) as Hn.
  assert (Rt' : 0 <= index_at s gameId target - 1 <= 3) by lia.
  destruct (set4_in_range (alive (game_at s gameId)) (index_at s gameId target - 1) false Rt')
    as [al Hal].
  assert (Hkill : kill_seat (game_at s gameId) (index_at s gameId target - 1) =
                  with_alive al (game_at s gameId)).
  { unfold kill_seat. rewrite Hal. reflexivity. }
  unfold attacked_state. rewrite Hkill.
  assert (Hta' : get4 (alive (game_at s gameId)) (index_at s gameId target - 1) = Some true).
  { rewrite (get4_default _ _ false) by assumption. f_equal. exact Hta. }
  split; [exact Hpt|]. split; [exact Hta'|].
  split.
  { storage_rw. cbn [alive with_alive]. rewrite (get4_set4 _ _ _ _ _ Hal). case_decide; congruence. }
  split.
  { intros i Hi. storage_rw. cbn [alive with_alive]. rewrite (get4_set4 _ _ _ _ _ Hal).
    case_decide; congruence. }
  split; [storage_rw; repeat split|].
  split.
  { intros other Ho. storage_rw. rewrite game_at_set_game_ne by congruence. reflexivity. }
  split; [intros other p; storage_rw; reflexivity|].
  split; [reflexivity|]. split; [reflexivity|]. split; [reflexivity|].
  split.
  - intros ctx'. exists (alive_count (game_at s gameId)).
    rewrite !getAlivePlayerCount_ok by (storage_rw; assumption). storage_rw.
    split; [reflexivity|]. f_equal.
    apply (alive_count_kill _ (index_at s gameId target - 1)); try assumption.
    unfold seat_player. rewrite Hpt. exact Ht0.
  - intros ctx'. rewrite getPlayerStatus_ok by (storage_rw; (assumption || lia)).
    storage_rw. f_equal. unfold seat_alive. cbn [alive with_alive].
    rewrite (get4_set4 _ _ _ _ _ Hal). case_decide; [reflexivity | congruence].
Qed.

(** C5. [attack] fails with the first applicable error of the listed
    precedence, reverting at a point where nothing was written yet, so
    the transaction leaves the state as it was; when no error applies
    the attack succeeds. *)
Theorem attack_error_precedence ctx gameId target s :
  reachable s ->
  match attack_error s (msg_sender ctx) gameId target with
  | Some e =>
      attack ctx gameId target s = Revert e s /\
      exec ctx (Attack gameId target) s = (s, Failed e)
  | None => exists s', attack ctx gameId target s = Ok tt s'
  end.
Proof.
  intros Hr. pose proof (reachable_wf _ Hr) as Hwf.
  pose proof (wf_games _ Hwf gameId) as Hg. pose proof (wf_count _ _ Hg) as Hn.
  unfold exec, run_call, bind.
  rewrite attack_unfold.
  2,3: intros Hx; destruct (wf_index _ _ Hg _ Hx) as (_ & ? & _); lia.
  unfold attack_error. cbn zeta.
  repeat match goal with
         | |- context [if ?b then Revert _ _ else _] => destruct b; [split; reflexivity|]
         end.
  eexists. reflexivity.
Qed.

(** C6 (amended). A [joinGame] by an address already seated in the game
    always fails and leaves the state as it was; the error is
    [GameAlreadyStarted] when the game has started, else [GameFull] when
    it holds 4 players, and [PlayerAlreadyJoined] only otherwise. *)
Theorem joinGame_seated_fails ctx gameId s :
  reachable s ->
  index_at s gameId (msg_sender ctx) <> 0 ->
  let g := game_at s gameId in
  let e := if started g then GameAlreadyStarted
           else if 4 <=? playerCount g then GameFull
           else PlayerAlreadyJoined in
  joinGame ctx gameId s = Revert e s /\
  exec ctx (JoinGame gameId) s = (s, Failed e).
Proof.
  intros Hr Hix g e. subst g e. pose proof (reachable_wf _ Hr) as Hwf.
  assert (Hc : creator (game_at s gameId) <> 0).
  { intros Hc. destruct (wf_absent _ _ (wf_games _ Hwf gameId) Hc) as [_ Hz].
    apply Hix. apply Hz. }
  unfold exec, run_call, bind. rewrite joinGame_unfold. cbn zeta.
  rewrite (proj2 (Z.eqb_neq _ _) Hc), (proj2 (Z.eqb_neq _ _) Hix). cbn [negb].
  destruct (started (game_at s gameId)); [split; reflexivity|].
  destruct (4 <=? playerCount (game_at s gameId)); split; reflexivity.
Qed.

(** C7. The started flag: a transaction turns it on only for a game with
    exactly 4 players, and only [startGame] on that game does; no
    transaction turns it off; [startGame] by a seated caller fails with
    [GameNotReady] while the game has fewer than 4 players; and once a
    [startGame] succeeded, every later attempt on that game fails with
    [GameAlreadyStarted], so it succeeds at most once. *)
Theorem started_lifecycle s :
  reachable s ->
  (forall ctx c gameId,
     started (game_at s gameId) = false ->
     started (game_at (fst (exec ctx c s)) gameId) = true ->
     playerCount (game_at s gameId) = 4 /\ c = StartGame gameId) /\
  (forall ctx c gameId,
     started (game_at s gameId) = true ->
     started (game_at (fst (exec ctx c s)) gameId) = true) /\
  (forall ctx gameId,
     index_at s gameId (msg_sender ctx) <> 0 ->
     playerCount (game_at s gameId) < 4 ->
     startGame ctx gameId s = Revert GameNotReady s) /\
  (forall ctx gameId s1 s2,
     startGame ctx gameId s = Ok tt s1 ->
     steps s1 s2 ->
     forall ctx', startGame ctx' gameId s2 = Revert GameAlreadyStarted s2).
Proof.
  intros Hr. pose proof (reachable_wf _ Hr) as Hwf.
  split; [|split; [|split]].
  - intros ctx c gameId Hns Hst. unfold exec, run_call, bind in Hst.
    destruct c as [|g|g|g target].
    + destruct (createGame ctx s) as [id s'|e s'] eqn:H; cbn [fst ret] in Hst; [|congruence].
      destruct (createGame_inv _ _ _ _ Hwf H) as (-> & _ & ->).
      revert Hst. storage_rw. rewrite game_at_set_game. case_decide; [|storage_rw; congruence].
      discriminate.
    + destruct (joinGame ctx g s) as [[] s'|e s'] eqn:H; cbn [fst ret] in Hst; [|congruence].
      destruct (joinGame_inv _ _ _ _ (wf_games _ Hwf g) H)
        as (_ & _ & _ & _ & ps & al & _ & _ & ->).
      revert Hst. storage_rw. rewrite game_at_set_game. case_decide; [|storage_rw; congruence].
      discriminate.
    + destruct (startGame ctx g s) as [[] s'|e s'] eqn:H; cbn [fst ret] in Hst; [|congruence].
      destruct (startGame_inv _ _ _ _ H) as (_ & _ & _ & Hn & ->).
      revert Hst. unfold started_state. storage_rw. rewrite game_at_set_game.
      case_decide; [|storage_rw; congruence].
      subst g. auto.
    + destruct (attack ctx g target s) as [[] s'|e s'] eqn:H; cbn [fst ret] in Hst;
        [|congruence].
      destruct (attack_inv _ _ _ _ _ (wf_games _ Hwf g) H)
        as (_ & Hs & _ & _ & _ & _ & _ & _ & ->).
      revert Hst. unfold attacked_state. storage_rw. rewrite game_at_set_game.
      case_decide; [|congruence]. subst g. cbn. congruence.
  - intros ctx c gameId Hst.
    destruct (exec_started ctx c s gameId Hwf Hst) as [(_ & _ & _ & _ & _ & S6) _].
    congruence.
  - intros ctx gameId Hix Hn. pose proof (wf_games _ Hwf gameId) as Hg.
    rewrite startGame_unfold. cbn zeta.
    assert (Hc : creator (game_at s gameId) <> 0).
    { intros Hc. destruct (wf_absent _ _ Hg Hc) as [_ Hz]. apply Hix. apply Hz. }
    assert (Hns : started (game_at s gameId) = false).
    { destruct (started (game_at s gameId)) eqn:Hst; [|reflexivity].
      destruct (wf_started _ _ Hg Hst) as [H4 _]. lia. }
    rewrite (proj2 (Z.eqb_neq _ _) Hc), Hns, (proj2 (Z.eqb_neq _ _) Hix).
    rewrite (proj2 (Z.eqb_neq (playerCount (game_at s gameId)) 4)) by lia. reflexivity.
  - intros ctx gameId s1 s2 H Hsteps ctx'.
    pose proof (wf_startGame _ _ _ _ Hwf H) as Hwf1.
    destruct (startGame_inv _ _ _ _ H) as (Hc & _ & _ & _ & E).
    assert (Hst : started (game_at s1 gameId) = true).
    { rewrite E. unfold started_state. storage_rw. reflexivity. }
    assert (Hc1 : creator (game_at s1 gameId) = creator (game_at s gameId)).
    { rewrite E. unfold started_state. storage_rw. reflexivity. }
    destruct (steps_started _ _ gameId Hwf1 Hst Hsteps) as [(S1 & _ & _ & _ & _ & S6) _].
    rewrite startGame_unfold. cbn zeta.
    rewrite (proj2 (Z.eqb_neq (creator (game_at s2 gameId)) 0)) by congruence.
    rewrite S6, Hst. reflexivity.
Qed.

Lemma exec_counter ctx c s :
  wf s ->
  match snd (exec ctx c s) with
  | Created gameId =>
      gameId = _nextGameId s /\ _nextGameId (fst (exec ctx c s)) = _nextGameId s + 1
  | _ => _nextGameId (fst (exec ctx c s)) = _nextGameId s
  end.
Proof.
  intros Hwf. unfold exec, run_call, bind.
  destruct c as [|g|g|g target].
  - destruct (createGame ctx s) as [id s'|e s'] eqn:H; cbn [fst snd ret]; [|reflexivity].
    destruct (createGame_inv _ _ _ _ Hwf H) as (-> & _ & ->). split; reflexivity.
  - destruct (joinGame ctx g s) as [[] s'|e s'] eqn:H; cbn [fst snd ret]; [|reflexivity].
    destruct (joinGame_inv _ _ _ _ (wf_games _ Hwf g) H)
      as (_ & _ & _ & _ & ps & al & _ & _ & ->). reflexivity.
  - destruct (startGame ctx g s) as [[] s'|e s'] eqn:H; cbn [fst snd ret]; [|reflexivity].
    destruct (startGame_inv _ _ _ _ H) as (_ & _ & _ & _ & ->). reflexivity.
  - destruct (attack ctx g target s) as [[] s'|e s'] eqn:H; cbn [fst snd ret]; [|reflexivity].
    destruct (attack_inv _ _ _ _ _ (wf_games _ Hwf g) H)
      as (_ & _ & _ & _ & _ & _ & _ & _ & ->). reflexivity.
Qed.

Lemma run_trace_counter txs s :
  wf s -> Forall external txs ->
  let ids := created_ids (snd (run_trace txs s)) in
  wf (fst (run_trace txs s)) /\
  ids = seqZ (_nextGameId s) (Z.of_nat (length ids)) /\
  _nextGameId (fst (run_trace txs s)) = _nextGameId s + Z.of_nat (length ids).
Proof.
  revert s. induction txs as [|[ctx c] rest IH]; intros s Hwf Hext.
  - cbn. split; [assumption|]. split; [reflexivity | lia].
  - inversion Hext as [|tx l Hs Hrest]; subst.
    pose proof (wf_exec ctx c s Hwf Hs) as Hwf1.
    pose proof (exec_counter ctx c s Hwf) as Hcnt.
    destruct (IH _ Hwf1 Hrest) as (W & I1 & I2).
    cbn [run_trace fst snd]. split; [exact W|].
    destruct (snd (exec ctx c s)) as [id| |e]; cbn [created_ids length].
    + destruct Hcnt as [-> Hnext]. rewrite Hnext in I1, I2. split.
      * rewrite Nat2Z.inj_succ. rewrite seqZ_cons by lia.
        rewrite Z.pred_succ. rewrite <- Z.add_1_r. f_equal. exact I1.
      * lia.
    + rewrite Hcnt in I1, I2. split; assumption.
    + rewrite Hcnt in I1, I2. split; assumption.
Qed.

Lemma run_trace_reachable txs s :
  reachable s -> Forall external txs -> reachable (fst (run_trace txs s)).
Proof.
  revert s. induction txs as [|[ctx c] rest IH]; intros s Hr Hext; [assumption|].
  inversion Hext as [|tx l Hs Hrest]; subst. cbn [run_trace fst snd].
  apply IH; [|assumption]. apply reachable_exec; assumption.
Qed.

Lemma steps_trans s1 s2 s3 : steps s1 s2 -> steps s2 s3 -> steps s1 s3.
Proof.
  intros H12 H23. induction H23 as [|ctx c s2 s3 H IH Hs]; [exact H12|].
  apply steps_exec; [apply IH; exact H12 | exact Hs].
Qed.

Lemma run_trace_steps txs s : Forall external txs -> steps s (fst (run_trace txs s)).
Proof.
  revert s. induction txs as [|[ctx c] rest IH]; intros s Hext; [apply steps_refl|].
  inversion Hext as [|tx l Hs Hrest]; subst. cbn [run_trace fst snd].
  apply (steps_trans _ (fst (exec ctx c s))); [|apply IH; exact Hrest].
  apply steps_exec; [apply steps_refl | exact Hs].
Qed.

(** C8 (amended). From deployment on, the identifiers handed out are
    0, 1, 2, ... without gap or reuse and [getNextGameId] returns how
    many games were created.  As long as the counter is below
    [MAX_UINT256], [createGame] succeeds for every caller: it returns the
    counter, increments it by one and initialises the new game with the
    caller as creator, seated at seat 0, [playerCount] 1, not started. *)
Theorem createGame_allocates txs ctx :
  Forall external txs ->
  let s := fst (run_trace txs init) in
  let ids := created_ids (snd (run_trace txs init)) in
  ids = seqZ 0 (Z.of_nat (length ids)) /\
  getNextGameId ctx s = Ok (Z.of_nat (length ids)) s /\
  (_nextGameId s < MAX_UINT256 ->
   exists s',
     createGame ctx s = Ok (_nextGameId s) s' /\
     exec ctx CreateGame s = (s', Created (_nextGameId s)) /\
     _nextGameId s' = _nextGameId s + 1 /\
     (forall ctx', getNextGameId ctx' s' = Ok (Z.of_nat (length ids) + 1) s') /\
     creator (game_at s' (_nextGameId s)) = msg_sender ctx /\
     get4 (players (game_at s' (_nextGameId s))) 0 = Some (msg_sender ctx) /\
     index_at s' (_nextGameId s) (msg_sender ctx) = 1 /\
     playerCount (game_at s' (_nextGameId s)) = 1 /\
     started (game_at s' (_nextGameId s)) = false).
Proof.
  intros Hext s ids. subst s ids.
  destruct (run_trace_counter txs init wf_init Hext) as (Hwf & Hids & Hnext).
  cbn [_nextGameId init] in Hids, Hnext. rewrite Z.add_0_l in Hnext.
  split; [exact Hids|]. split.
  { unfold getNextGameId, gets. rewrite Hnext. reflexivity. }
  intros Hlt.
  pose proof (wf_fresh _ Hwf _ (Z.le_refl (_nextGameId (fst (run_trace txs init))))) as Hc.
  destruct (wf_absent _ _ (wf_games _ Hwf _) Hc) as [Hz _].
  eexists. split; [apply createGame_ok; assumption|].
  split.
  { unfold exec, run_call, bind. rewrite createGame_ok by assumption. reflexivity. }
  split; [reflexivity|].
  split.
  { intros ctx'. unfold getNextGameId, gets. cbn [_nextGameId add_event set_game set_index
      set_nextGameId]. rewrite Hnext. reflexivity. }
  storage_rw. rewrite index_at_set_index. case_decide as Hd; [|exfalso; apply Hd; auto].
  repeat split.
Qed.

(** The counter can reach any value up to its maximum. *)
Lemma reachable_counter (n : nat) :
  Z.of_nat n <= MAX_UINT256 -> exists s, reachable s /\ _nextGameId s = Z.of_nat n.
Proof.
  induction n as [|n IH]; intros Hn.
  - exists init. split; [constructor | reflexivity].
  - destruct IH as (s & Hr & Hs); [lia|].
    pose proof (reachable_wf _ Hr) as Hwf.
    pose proof (wf_fresh _ Hwf (_nextGameId s) ltac:(lia)) as Hc.
    destruct (wf_absent _ _ (wf_games _ Hwf _) Hc) as [Hz _].
    exists (fst (exec (mkCtx 1 0 0) CreateGame s)). split.
    + apply reachable_exec; [assumption | cbn; lia].
    + unfold exec, run_call, bind. rewrite createGame_ok by (assumption || lia).
      cbn [fst ret _nextGameId add_event set_game set_index set_nextGameId]. lia.
Qed.

Lemma read_only_for_each {A : Type} (body : Z -> A -> M A) idx :
  (forall i a s, read_only (body i a) s) ->
  forall a s, read_only (for_each idx body a) s.
Proof.
  intros Hb. induction idx as [|i rest IH]; intros a s; [reflexivity|].
  unfold read_only in *. cbn [for_each]. unfold bind.
  specialize (Hb i a s). destruct (body i a s) as [a' s1|e s1]; [|assumption].
  subst s1. apply IH.
Qed.

(** C9. The five views do not depend on the calling context: any two
    callers get the same value or the same error for the same arguments,
    and no view changes the state. *)
Theorem views_caller_independent (ctx1 ctx2 : Ctx) (gameId player : Z) (s : State) :
  (getGameDetails ctx1 gameId s = getGameDetails ctx2 gameId s /\
   read_only (getGameDetails ctx1 gameId) s) /\
  (getPlayerEncryptedRole ctx1 gameId player s = getPlayerEncryptedRole ctx2 gameId player s /\
   read_only (getPlayerEncryptedRole ctx1 gameId player) s) /\
  (getNextGameId ctx1 s = getNextGameId ctx2 s /\
   read_only (getNextGameId ctx1) s) /\
  (getAlivePlayerCount ctx1 gameId s = getAlivePlayerCount ctx2 gameId s /\
   read_only (getAlivePlayerCount ctx1 gameId) s) /\
  (getPlayerStatus ctx1 gameId player s = getPlayerStatus ctx2 gameId player s /\
   read_only (getPlayerStatus ctx1 gameId player) s).
Proof.
  repeat split.
  - unfold read_only, getGameDetails. mrun.
    destruct (creator (game_at s gameId) =? 0); reflexivity.
  - unfold read_only, getPlayerEncryptedRole. mrun.
    destruct (creator (game_at s gameId) =? 0); [reflexivity|].
    destruct (started (game_at s gameId)); [|reflexivity]. cbn [negb].
    destruct (index_at s gameId player =? 0); [reflexivity|].
    destruct (1 <=? index_at s gameId player); [|reflexivity].
    destruct (get4 _ _); reflexivity.
  - unfold read_only, getAlivePlayerCount.
    unfold bind at 1. unfold load at 1, gets at 1. unfold bind at 1.
    destruct (creator (game_at s gameId) =? 0); [reflexivity|]. cbn [revert_if ret].
    apply read_only_for_each. clear. intros i a s.
    unfold read_only, count_seat. mrun.
    destruct (get4 (players _) _); [|reflexivity].
    destruct (get4 (alive _) _); [|reflexivity].
    destruct (_ && _); [|reflexivity].
    destruct (_ <=? _); reflexivity.
  - unfold read_only, getPlayerStatus. mrun.
    destruct (creator (game_at s gameId) =? 0); [reflexivity|].
    destruct (index_at s gameId player =? 0); [reflexivity|].
    destruct (1 <=? index_at s gameId player); [|reflexivity].
    destruct (get4 _ _); reflexivity.
Qed.

(** C10. In a started game the one seat holding role 2 is alive in every
    reachable state: a successful [attack] is made from that seat and
    never aims at it, and [getAlivePlayerCount] is at least 1. *)
Theorem werewolf_stays_alive s gameId :
  reachable s ->
  started (game_at s gameId) = true ->
  exists w,
    get4 (roles (game_at s gameId)) w = Some 2 /\
    (forall i, get4 (roles (game_at s gameId)) i = Some 2 -> i = w) /\
    get4 (alive (game_at s gameId)) w = Some true /\
    (forall ctx target s',
       attack ctx gameId target s = Ok tt s' ->
       index_at s gameId (msg_sender ctx) - 1 = w /\
       index_at s gameId target - 1 <> w /\
       get4 (alive (game_at s' gameId)) w = Some true) /\
    (forall ctx, exists n, getAlivePlayerCount ctx gameId s = Ok n s /\ 1 <= n).
Proof.
  intros Hr Hst. pose proof (reachable_wf _ Hr) as Hwf.
  pose proof (wf_games _ Hwf gameId) as Hg.
  destruct (wf_started _ _ Hg Hst) as (H4 & P & Hal).
  destruct (werewolf_exists _ P) as [w Hw]. exists w.
  pose proof (get4_Some_range _ _ _ Hw) as Rw.
  assert (Hc : creator (game_at s gameId) <> 0).
  { intros Hc. destruct (wf_absent _ _ Hg Hc) as [Hz _]. rewrite Hz in Hst. discriminate. }
  split; [exact Hw|]. split; [intros i Hi; apply (werewolf_unique _ _ _ P Hi Hw)|].
  split; [apply Hal; exact Hw|]. split.
  - intros ctx target s' H.
    destruct (attack_inv _ _ _ _ _ Hg H) as (_ & _ & Hai & Hti & _ & Hrl & _ & Hne & E).
    destruct (wf_index _ _ Hg _ Hai) as (_ & Ra & _).
    assert (Hwa : get4 (roles (game_at s gameId)) (index_at s gameId (msg_sender ctx) - 1)
                  = Some 2).
    { rewrite (get4_default _ _ 0) by lia. f_equal. exact Hrl. }
    pose proof (werewolf_unique _ _ _ P Hwa Hw) as Ew.
    split; [exact Ew|]. split; [lia|].
    pose proof (wf_games _ (wf_attack _ _ _ _ _ Hwf H) gameId) as Hg'.
    assert (Hsame : roles (game_at s' gameId) = roles (game_at s gameId) /\
                    started (game_at s' gameId) = started (game_at s gameId)).
    { rewrite E. unfold attacked_state, kill_seat. storage_rw. split; reflexivity. }
    destruct Hsame as [S4 S6].
    assert (Hst' : started (game_at s' gameId) = true) by congruence.
    destruct (wf_started _ _ Hg' Hst') as (_ & _ & Hal'). apply Hal'. rewrite S4. exact Hw.
  - intros ctx. exists (alive_count (game_at s gameId)).
    split; [apply getAlivePlayerCount_ok; exact Hc|].
    assert (Hone : seat_counts (game_at s gameId) w = 1).
    { unfold seat_counts, seat_alive, seat_player. rewrite (Hal _ Hw).
      destruct (get4_in_range (players (game_at s gameId)) w Rw) as [p Hp]. rewrite Hp.
      pose proof (wf_seats _ _ Hg w p ltac:(lia) Hp) as Hp0. cbn [default from_option id].
      rewrite (proj2 (Z.eqb_neq _ _) Hp0). reflexivity. }
    unfold alive_count.
    pose proof (seat_counts_range (game_at s gameId) 0).
    pose proof (seat_counts_range (game_at s gameId) 1).
    pose proof (seat_counts_range (game_at s gameId) 2).
    pose proof (seat_counts_range (game_at s gameId) 3).
    destruct (range4_cases w Rw) as [-> | [-> | [-> | ->]]]; lia.
Qed.


(** ** The outcomes of a transaction *)

Lemma joinGame_total ctx gameId s :
  creator (game_at s gameId) <> 0 ->
  started (game_at s gameId) = false ->
  0 <= playerCount (game_at s gameId) < 4 ->
  index_at s gameId (msg_sender ctx) = 0 ->
  joinGame ctx gameId s = Ok tt (joined_state ctx gameId s).
Proof.
  intros Hc Hst Hn Hix. rewrite joinGame_unfold. cbn zeta.
  rewrite (proj2 (Z.eqb_neq _ _) Hc), Hst, (proj2 (Z.leb_gt _ _) (proj2 Hn)), Hix. cbn [negb Z.eqb].
  destruct (set4_in_range (players (game_at s gameId)) (playerCount (game_at s gameId))
              (msg_sender ctx) ltac:(lia)) as [ps Hps].
  destruct (set4_in_range (alive (game_at s gameId)) (playerCount (game_at s gameId))
              true ltac:(lia)) as [al Hal].
  unfold bind. erewrite addPlayer_ok by eassumption.
  unfold joined_state, seat_added. rewrite Hps, Hal. reflexivity.
Qed.

Lemma exec_outcome ctx c s :
  wf s -> outcome ctx s c (fst (exec ctx c s)) (snd (exec ctx c s)).
Proof.
  intros Hwf. unfold exec, run_call, bind.
  destruct c as [|g|g|g target].
  - destruct (createGame ctx s) as [id s'|e s'] eqn:H; cbn [fst snd ret]; [|constructor].
    destruct (createGame_inv _ _ _ _ Hwf H) as (-> & Hlt & ->).
    pose proof (wf_fresh _ Hwf _ (Z.le_refl (_nextGameId s))) as Hc.
    destruct (wf_absent _ _ (wf_games _ Hwf _) Hc) as [Hz Hi].
    apply outcome_created; assumption.
  - destruct (joinGame ctx g s) as [[] s'|e s'] eqn:H; cbn [fst snd ret]; [|constructor].
    pose proof (wf_count _ _ (wf_games _ Hwf g)) as Hn.
    destruct (joinGame_inv _ _ _ _ (wf_games _ Hwf g) H)
      as (Hc & Hst & Hlt & Hix & ps & al & Hps & Hal & _).
    rewrite joinGame_total in H by (assumption || lia). injection H as <-.
    apply outcome_joined; (assumption || lia).
  - destruct (startGame ctx g s) as [[] s'|e s'] eqn:H; cbn [fst snd ret]; [|constructor].
    destruct (startGame_inv _ _ _ _ H) as (Hc & Hst & Hix & Hn & ->).
    apply outcome_started; assumption.
  - destruct (attack ctx g target s) as [[] s'|e s'] eqn:H; cbn [fst snd ret]; [|constructor].
    pose proof (wf_games _ Hwf g) as Hg. pose proof (wf_count _ _ Hg) as Hn.
    destruct (attack_inv _ _ _ _ _ Hg H) as (Hc & Hst & Hai & Hti & Haa & Hr & Hta & Hne & ->).
    destruct (wf_index _ _ Hg _ Hai) as (_ & Ra & _).
    destruct (wf_index _ _ Hg _ Hti) as (_ & Rt & _).
    apply outcome_attacked; (assumption || lia).
Qed.

(** *** Reading the post-states *)

Lemma game_at_created ctx s g :
  game_at (created_state ctx s) g =
  if decide (_nextGameId s = g) then created_game (msg_sender ctx) else game_at s g.
Proof. unfold created_state. storage_rw. rewrite game_at_set_game. reflexivity. Qed.

Lemma index_at_created ctx s g p :
  index_at (created_state ctx s) g p =
  if decide (_nextGameId s = g /\ msg_sender ctx = p) then 1 else index_at s g p.
Proof. unfold created_state. storage_rw. rewrite index_at_set_index. reflexivity. Qed.

Lemma game_at_joined ctx gameId s g :
  game_at (joined_state ctx gameId s) g =
  if decide (gameId = g) then seat_added (msg_sender ctx) (game_at s gameId) else game_at s g.
Proof. unfold joined_state. storage_rw. rewrite game_at_set_game. reflexivity. Qed.

Lemma index_at_joined ctx gameId s g p :
  index_at (joined_state ctx gameId s) g p =
  if decide (gameId = g /\ msg_sender ctx = p) then playerCount (game_at s gameId) + 1
  else index_at s g p.
Proof. unfold joined_state. storage_rw. rewrite index_at_set_index. reflexivity. Qed.

Lemma game_at_started ctx gameId s g :
  game_at (started_state ctx gameId s) g =
  if decide (gameId = g)
  then started_game ctx gameId (encryptions (fhe s)) (game_at s gameId)
  else game_at s g.
Proof.
  unfold started_state. storage_rw. rewrite game_at_set_game.
  case_decide; storage_rw; reflexivity.
Qed.

Lemma index_at_started ctx gameId s g p :
  index_at (started_state ctx gameId s) g p = index_at s g p.
Proof. reflexivity. Qed.

Lemma game_at_attacked ctx gameId target s g :
  game_at (attacked_state ctx gameId target s) g =
  if decide (gameId = g)
  then kill_seat (game_at s gameId) (index_at s gameId target - 1)
  else game_at s g.
Proof. unfold attacked_state. storage_rw. rewrite game_at_set_game. reflexivity. Qed.

Lemma index_at_attacked ctx gameId target s g p :
  index_at (attacked_state ctx gameId target s) g p = index_at s g p.
Proof. reflexivity. Qed.

Lemma seat_player_seat_added p g i :
  0 <= playerCount g <= 3 ->
  seat_player (seat_added p g) i = if decide (playerCount g = i) then p else seat_player g i.
Proof.
  intros Hn. unfold seat_player, seat_added. cbn [players].
  destruct (set4_in_range (players g) (playerCount g) p Hn) as [ps Hps]. rewrite Hps.
  cbn [default from_option id]. rewrite (get4_set4 _ _ _ i _ Hps).
  case_decide; reflexivity.
Qed.

Lemma seat_alive_seat_added p g i :
  0 <= playerCount g <= 3 ->
  seat_alive (seat_added p g) i = if decide (playerCount g = i) then true else seat_alive g i.
Proof.
  intros Hn. unfold seat_alive, seat_added. cbn [alive].
  destruct (set4_in_range (alive g) (playerCount g) true Hn) as [al Hal]. rewrite Hal.
  cbn [default from_option id]. rewrite (get4_set4 _ _ _ i _ Hal).
  case_decide; reflexivity.
Qed.

Lemma seat_alive_kill_seat g t i :
  0 <= t <= 3 ->
  seat_alive (kill_seat g t) i = if decide (t = i) then false else seat_alive g i.
Proof.
  intros Ht. unfold seat_alive, kill_seat. cbn [alive with_alive].
  destruct (set4_in_range (alive g) t false Ht) as [al Hal]. rewrite Hal.
  cbn [default from_option id]. rewrite (get4_set4 _ _ _ i _ Hal).
  case_decide; reflexivity.
Qed.

Lemma seat_player_in_range g i p : get4 (players g) i = Some p -> seat_player g i = p.
Proof. intros H. unfold seat_player. rewrite H. reflexivity. Qed.

Lemma get4_seat_player g i : 0 <= i <= 3 -> get4 (players g) i = Some (seat_player g i).
Proof. intros H. unfold seat_player. apply get4_default. exact H. Qed.

Lemma get4_seat_role g i : 0 <= i <= 3 -> get4 (roles g) i = Some (seat_role g i).
Proof. intros H. unfold seat_role. apply get4_default. exact H. Qed.

Lemma get4_seat_alive g i : 0 <= i <= 3 -> get4 (alive g) i = Some (seat_alive g i).
Proof. intros H. unfold seat_alive. apply get4_default. exact H. Qed.

Lemma cleartext_seat_engine r p e :
  cleartext (seat_engine r p e) = <[handle_of r (encryptions e) := r]> (cleartext e).
Proof. reflexivity. Qed.

Lemma cleartext_seat_engine_new r p e :
  cleartext (seat_engine r p e) !! handle_of r (encryptions e) = Some r.
Proof.
  rewrite cleartext_seat_engine, lookup_insert. case_decide; [reflexivity | congruence].
Qed.

(** A handle stands for one value, so a later encryption leaves what the
    engine holds under the handles it gave out before. *)
Lemma cleartext_seat_engine_keep r p e h v :
  (forall h v, cleartext e !! h = Some v -> exists n, h = handle_of v n) ->
  cleartext e !! h = Some v ->
  cleartext (seat_engine r p e) !! h = Some v.
Proof.
  intros Hs H. rewrite cleartext_seat_engine, lookup_insert.
  case_decide as E; [|exact H].
  destruct (Hs _ _ H) as [n ->]. f_equal. exact (handle_value _ _ _ _ E).
Qed.

Lemma sourced_seat_engine r p e :
  (forall h v, cleartext e !! h = Some v -> exists n, h = handle_of v n) ->
  forall h v, cleartext (seat_engine r p e) !! h = Some v -> exists n, h = handle_of v n.
Proof.
  intros Hs h v. rewrite cleartext_seat_engine, lookup_insert.
  case_decide as E; [|apply Hs].
  intros [= <-]. exists (encryptions e). symmetry. exact E.
Qed.

Lemma sourced_started_engine rs ps e :
  (forall h v, cleartext e !! h = Some v -> exists n, h = handle_of v n) ->
  forall h v, cleartext (started_engine rs ps e) !! h = Some v -> exists n, h = handle_of v n.
Proof.
  intros Hs. unfold started_engine. do 4 apply sourced_seat_engine. exact Hs.
Qed.

Lemma cleartext_started_engine_keep rs ps e h v :
  (forall h v, cleartext e !! h = Some v -> exists n, h = handle_of v n) ->
  cleartext e !! h = Some v ->
  cleartext (started_engine rs ps e) !! h = Some v.
Proof.
  intros Hs H. unfold started_engine.
  apply cleartext_seat_engine_keep; [do 3 apply sourced_seat_engine; exact Hs|].
  apply cleartext_seat_engine_keep; [do 2 apply sourced_seat_engine; exact Hs|].
  apply cleartext_seat_engine_keep; [apply sourced_seat_engine; exact Hs|].
  apply cleartext_seat_engine_keep; [exact Hs | exact H].
Qed.

(** After the seat loop the engine holds each role under its seat's handle. *)
Lemma cleartext_started_engine rs ps e i :
  (forall h v, cleartext e !! h = Some v -> exists n, h = handle_of v n) ->
  0 <= i <= 3 ->
  cleartext (started_engine rs ps e) !! default 0 (get4 (started_handles rs (encryptions e)) i) =
  Some (default 0 (get4 rs i)).
Proof.
  intros Hs Hi. unfold started_engine, started_handles.
  replace (encryptions e + 2) with (encryptions e + 1 + 1) by lia.
  replace (encryptions e + 3) with (encryptions e + 1 + 1 + 1) by lia.
  destruct (range4_cases i Hi) as [-> | [-> | [-> | ->]]];
    cbn [get4 default from_option id slot0 slot1 slot2 slot3].
  - apply cleartext_seat_engine_keep; [do 3 apply sourced_seat_engine; exact Hs|].
    apply cleartext_seat_engine_keep; [do 2 apply sourced_seat_engine; exact Hs|].
    apply cleartext_seat_engine_keep; [apply sourced_seat_engine; exact Hs|].
    apply cleartext_seat_engine_new.
  - apply cleartext_seat_engine_keep; [do 3 apply sourced_seat_engine; exact Hs|].
    apply cleartext_seat_engine_keep; [do 2 apply sourced_seat_engine; exact Hs|].
    apply (cleartext_seat_engine_new (slot1 rs) (slot1 ps) (seat_engine (slot0 rs) (slot0 ps) e)).
  - apply cleartext_seat_engine_keep; [do 3 apply sourced_seat_engine; exact Hs|].
    apply (cleartext_seat_engine_new (slot2 rs) (slot2 ps)
             (seat_engine (slot1 rs) (slot1 ps) (seat_engine (slot0 rs) (slot0 ps) e))).
  - apply (cleartext_seat_engine_new (slot3 rs) (slot3 ps)
             (seat_engine (slot2 rs) (slot2 ps)
                (seat_engine (slot1 rs) (slot1 ps) (seat_engine (slot0 rs) (slot0 ps) e)))).
Qed.

(** ** Every transaction preserves the seating facts *)

Lemma seating_init : seating init.
Proof.
  split.
  - cbn. intros g Hg. lia.
  - intros h v H. cbn in H. rewrite lookup_empty in H. discriminate.
  - intros g. split; rewrite ?game_at_init; cbn [playerCount creator started zeroGame].
    + intros i Hi. lia.
    + intros i Hi. assert (E : i = 0 \/ i = 1 \/ i = 2 \/ i = 3) by lia.
      destruct E as [-> | [-> | [-> | ->]]]; reflexivity.
    + intros H. congruence.
    + intros _. split; [reflexivity|]. split; [reflexivity|].
      intros i Hi. assert (E : i = 0 \/ i = 1 \/ i = 2 \/ i = 3) by lia.
      destruct E as [-> | [-> | [-> | ->]]]; reflexivity.
    + discriminate.
Qed.

Lemma game_seating_frame s s' gameId :
  game_wf s gameId ->
  game_at s' gameId = game_at s gameId ->
  (forall p, index_at s' gameId p = index_at s gameId p) ->
  (forall h v, cleartext (fhe s) !! h = Some v -> cleartext (fhe s') !! h = Some v) ->
  game_seating s gameId -> game_seating s' gameId.
Proof.
  intros Hwf Hg Hi Hk [A B C D E].
  split; rewrite ?Hg; try assumption.
  - intros i Hr. rewrite Hi. apply A. exact Hr.
  - intros Hst i Hr. apply Hk. apply E; assumption.
Qed.

Lemma seating_created ctx s :
  wf s -> seating s -> msg_sender ctx <> 0 ->
  game_at s (_nextGameId s) = zeroGame ->
  (forall p, index_at s (_nextGameId s) p = 0) ->
  seating (created_state ctx s).
Proof.
  intros Hwf Hse Hs Hz Hi0. pose proof (wf_next _ Hwf) as Hnn. split.
  - intros g Hg. cbn [_nextGameId created_state add_event set_game set_index set_nextGameId] in Hg.
    rewrite game_at_created. case_decide; [exact Hs|].
    apply (st_exists _ Hse). lia.
  - exact (st_engine _ Hse).
  - intros g. destruct (decide (_nextGameId s = g)) as [<-|Hne].
    + split; rewrite game_at_created; (case_decide; [|congruence]);
        cbn [created_game creator players playerCount started roles encryptedRoles].
      * intros i Hi. assert (i = 0) as -> by lia. rewrite index_at_created.
        case_decide as Hd; [reflexivity|]. exfalso. apply Hd. split; reflexivity.
      * intros i Hi. assert (E : i = 1 \/ i = 2 \/ i = 3) by lia.
        destruct E as [-> | [-> | ->]]; reflexivity.
      * intros _. split; [lia | reflexivity].
      * intros _. split; [reflexivity|]. split; [reflexivity|].
        intros i Hi. assert (E : i = 0 \/ i = 1 \/ i = 2 \/ i = 3) by lia.
        destruct E as [-> | [-> | [-> | ->]]]; reflexivity.
      * discriminate.
    + apply (game_seating_frame s); [apply (wf_games _ Hwf) | | | | apply (st_games _ Hse)].
      * rewrite game_at_created. case_decide; congruence.
      * intros p. rewrite index_at_created. case_decide as Hd; [|reflexivity].
        destruct Hd; congruence.
      * intros h v H. exact H.
Qed.

Lemma seating_joined ctx gameId s :
  wf s -> seating s -> msg_sender ctx <> 0 ->
  creator (game_at s gameId) <> 0 ->
  started (game_at s gameId) = false ->
  0 <= playerCount (game_at s gameId) < 4 ->
  index_at s gameId (msg_sender ctx) = 0 ->
  seating (joined_state ctx gameId s).
Proof.
  intros Hwf Hse Hs Hc Hst Hn Hix.
  pose proof (st_games _ Hse gameId) as [A B C D E].
  assert (Hn3 : 0 <= playerCount (game_at s gameId) <= 3) by lia.
  split.
  - intros g Hg. cbn [_nextGameId joined_state add_event set_game set_index] in Hg.
    rewrite game_at_joined. case_decide; [exact Hc|]. apply (st_exists _ Hse). exact Hg.
  - exact (st_engine _ Hse).
  - intros g. destruct (decide (gameId = g)) as [<-|Hne].
    + split; rewrite game_at_joined; (case_decide; [|congruence]);
        cbn [seat_added creator playerCount started roles encryptedRoles].
      * intros i Hi. rewrite seat_player_seat_added by exact Hn3. rewrite index_at_joined.
        destruct (decide (playerCount (game_at s gameId) = i)) as [<-|Hni].
        -- case_decide as Hd; [reflexivity|]. exfalso. apply Hd. split; reflexivity.
        -- case_decide as Hd.
           ++ destruct Hd as [_ Hd]. exfalso.
              pose proof (A i ltac:(lia)) as Hold. rewrite <- Hd in Hold. lia.
           ++ apply A. lia.
      * intros i Hi. rewrite seat_player_seat_added by exact Hn3.
        case_decide; [lia|]. apply B. lia.
      * intros _. destruct (C Hc) as [C1 C2]. split; [lia|].
        rewrite seat_player_seat_added by exact Hn3. case_decide; [lia | exact C2].
      * intros _. destruct (D Hst) as (D1 & D2 & D3). split; [exact D1|]. split; [exact D2|].
        intros i Hi. rewrite seat_alive_seat_added by exact Hn3.
        case_decide; [symmetry; apply Z.ltb_lt; lia|].
        rewrite D3 by exact Hi.
        destruct (Z.ltb_spec i (playerCount (game_at s gameId)));
          symmetry; [apply Z.ltb_lt | apply Z.ltb_ge]; lia.
      * congruence.
    + apply (game_seating_frame s); [apply (wf_games _ Hwf) | | | | apply (st_games _ Hse)].
      * rewrite game_at_joined. case_decide; congruence.
      * intros p. rewrite index_at_joined. case_decide as Hd; [|reflexivity].
        destruct Hd; congruence.
      * intros h v H. exact H.
Qed.

Lemma started_handle ctx gameId n g i :
  seat_handle (started_game ctx gameId n g) i =
  default 0 (get4 (started_handles (reference_roles ctx gameId) n) i).
Proof. reflexivity. Qed.

Lemma seating_started ctx gameId s :
  wf s -> seating s ->
  creator (game_at s gameId) <> 0 ->
  started (game_at s gameId) = false ->
  seating (started_state ctx gameId s).
Proof.
  intros Hwf Hse Hc Hst.
  pose proof (st_games _ Hse gameId) as [A B C D E].
  pose proof (st_engine _ Hse) as He.
  assert (Hfhe : fhe (started_state ctx gameId s) =
                 started_engine (reference_roles ctx gameId) (players (game_at s gameId)) (fhe s))
    by reflexivity.
  split.
  - intros g Hg. rewrite game_at_started. case_decide; [exact Hc|].
    apply (st_exists _ Hse). exact Hg.
  - rewrite Hfhe. apply sourced_started_engine. exact He.
  - intros g. destruct (decide (gameId = g)) as [<-|Hne].
    + split; rewrite game_at_started; (case_decide; [|congruence]);
        cbn [started_game creator playerCount started roles encryptedRoles].
      * exact A.
      * exact B.
      * exact C.
      * discriminate.
      * intros _ i Hi. rewrite Hfhe, started_handle.
        unfold seat_role. cbn [roles started_game].
        apply cleartext_started_engine; assumption.
    + apply (game_seating_frame s); [apply (wf_games _ Hwf) | | | | apply (st_games _ Hse)].
      * rewrite game_at_started. case_decide; congruence.
      * reflexivity.
      * intros h v H. rewrite Hfhe. apply cleartext_started_engine_keep; assumption.
Qed.

Lemma seating_attacked ctx gameId target s :
  wf s -> seating s ->
  started (game_at s gameId) = true ->
  seating (attacked_state ctx gameId target s).
Proof.
  intros Hwf Hse Hst.
  pose proof (st_games _ Hse gameId) as [A B C D E].
  split.
  - intros g Hg. rewrite game_at_attacked. case_decide; [|apply (st_exists _ Hse); exact Hg].
    subst g. cbn [kill_seat with_alive creator]. apply (st_exists _ Hse). exact Hg.
  - exact (st_engine _ Hse).
  - intros g. destruct (decide (gameId = g)) as [<-|Hne].
    + split; rewrite game_at_attacked; (case_decide; [|congruence]);
        cbn [kill_seat with_alive creator playerCount started roles encryptedRoles].
      * exact A.
      * exact B.
      * exact C.
      * congruence.
      * exact E.
    + apply (game_seating_frame s); [apply (wf_games _ Hwf) | | | | apply (st_games _ Hse)].
      * rewrite game_at_attacked. case_decide; congruence.
      * reflexivity.
      * intros h v H. exact H.
Qed.

Lemma seating_exec ctx c s :
  wf s -> seating s -> msg_sender ctx <> 0 -> seating (fst (exec ctx c s)).
Proof.
  intros Hwf Hse Hs. pose proof (exec_outcome ctx c s Hwf) as H.
  remember (fst (exec ctx c s)) as s' eqn:Es. remember (snd (exec ctx c s)) as r eqn:Er.
  clear Es Er.
  destruct H as [c e | Hlt Hz Hi0 | g0 Hc Hst Hn Hix | g0 Hc Hst Hix Hn
                | g0 target Hc Hst Ra Rt Haa Hrl Hta Hne].
  - exact Hse.
  - apply seating_created; assumption.
  - apply seating_joined; assumption.
  - apply seating_started; assumption.
  - apply seating_attacked; assumption.
Qed.

Lemma reachable_seating s : reachable s -> seating s.
Proof.
  induction 1 as [|ctx c s Hr IH Hs]; [apply seating_init|].
  apply seating_exec; [apply reachable_wf; exact Hr | exact IH | exact Hs].
Qed.

(** * Further properties *)

(** X1. [joinGame] either fails with the first violated guard, in the
    order game absent, started, full, already seated, leaving the state
    untouched, or seats the caller at the first free seat: the seat and
    the seat index are written, the seat is alive, the player count grows
    by one, one [PlayerJoined] event is logged and nothing else changes. *)
Theorem joinGame_behaviour ctx gameId s :
  reachable s ->
  match joinGame_error s (msg_sender ctx) gameId with
  | Some e =>
      joinGame ctx gameId s = Revert e s /\ exec ctx (JoinGame gameId) s = (s, Failed e)
  | None =>
      exists s',
        joinGame ctx gameId s = Ok tt s' /\
        exec ctx (JoinGame gameId) s = (s', Done) /\
        let g := game_at s gameId in
        let g' := game_at s' gameId in
        let n := playerCount g in
        0 <= n <= 3 /\
        playerCount g' = n + 1 /\
        seat_player g' n = msg_sender ctx /\
        seat_alive g' n = true /\
        index_at s' gameId (msg_sender ctx) = n + 1 /\
        (forall i, i <> n -> seat_player g' i = seat_player g i /\
                             seat_alive g' i = seat_alive g i) /\
        (forall p, p <> msg_sender ctx -> index_at s' gameId p = index_at s gameId p) /\
        creator g' = creator g /\ started g' = started g /\
        roles g' = roles g /\ encryptedRoles g' = encryptedRoles g /\
        (forall other, other <> gameId ->
           game_at s' other = game_at s other /\
           forall p, index_at s' other p = index_at s other p) /\
        _nextGameId s' = _nextGameId s /\
        fhe s' = fhe s /\
        events s' = events s ++ [PlayerJoined gameId (msg_sender ctx)]
  end.
Proof.
  intros Hr. pose proof (reachable_wf _ Hr) as Hwf.
  pose proof (wf_count _ _ (wf_games _ Hwf gameId)) as Hn.
  unfold joinGame_error. cbn zeta.
  destruct (Z.eqb_spec (creator (game_at s gameId)) 0) as [Hc|Hc].
  { unfold exec, run_call, bind. rewrite joinGame_unfold. cbn zeta.
    rewrite (proj2 (Z.eqb_eq _ _) Hc). split; reflexivity. }
  destruct (started (game_at s gameId)) eqn:Hst.
  { unfold exec, run_call, bind. rewrite joinGame_unfold. cbn zeta.
    rewrite (proj2 (Z.eqb_neq _ _) Hc), Hst. split; reflexivity. }
  destruct (Z.leb_spec 4 (playerCount (game_at s gameId))) as [Hfull|Hlt].
  { unfold exec, run_call, bind. rewrite joinGame_unfold. cbn zeta.
    rewrite (proj2 (Z.eqb_neq _ _) Hc), Hst, (proj2 (Z.leb_le _ _) Hfull). split; reflexivity. }
  destruct (Z.eqb_spec (index_at s gameId (msg_sender ctx)) 0) as [Hix|Hix]; cbn [negb].
  2:{ unfold exec, run_call, bind. rewrite joinGame_unfold. cbn zeta.
      rewrite (proj2 (Z.eqb_neq _ _) Hc), Hst, (proj2 (Z.leb_gt _ _) Hlt),
        (proj2 (Z.eqb_neq _ _) Hix). split; reflexivity. }
  exists (joined_state ctx gameId s).
  assert (Hok : joinGame ctx gameId s = Ok tt (joined_state ctx gameId s))
    by (apply joinGame_total; (assumption || lia)).
  split; [exact Hok|].
  split; [unfold exec, run_call, bind; rewrite Hok; reflexivity|].
  cbn zeta. rewrite !game_at_joined. case_decide; [|congruence].
  assert (Hn3 : 0 <= playerCount (game_at s gameId) <= 3) by lia.
  split; [exact Hn3|]. split; [reflexivity|].
  split; [rewrite seat_player_seat_added by exact Hn3; case_decide; congruence|].
  split; [rewrite seat_alive_seat_added by exact Hn3; case_decide; congruence|].
  split.
  { rewrite index_at_joined. case_decide as Hd; [reflexivity|]. exfalso; apply Hd; auto. }
  split.
  { intros i Hi. rewrite seat_player_seat_added, seat_alive_seat_added by exact Hn3.
    split; case_decide; congruence. }
  split.
  { intros p Hp. rewrite index_at_joined. case_decide as Hd; [|reflexivity].
    destruct Hd; congruence. }
  split; [reflexivity|]. split; [exact Hst|]. split; [reflexivity|]. split; [reflexivity|].
  split.
  { intros other Ho. rewrite game_at_joined. split; [case_decide; congruence|].
    intros p. rewrite index_at_joined. case_decide as Hd; [|reflexivity].
    destruct Hd; congruence. }
  repeat split.
Qed.

Lemma allowed_started_state ctx gameId s h a :
  allowed (fhe (started_state ctx gameId s)) h a <->
  allowed (fhe s) h a \/
  exists i, 0 <= i <= 3 /\
    h = seat_handle (started_game ctx gameId (encryptions (fhe s)) (game_at s gameId)) i /\
    (a = this \/ a = seat_player (game_at s gameId) i).
Proof.
  change (fhe (started_state ctx gameId s))
    with (started_engine (reference_roles ctx gameId) (players (game_at s gameId)) (fhe s)).
  rewrite allowed_started_engine. split.
  - intros [H | [[-> H] | [[-> H] | [[-> H] | [-> H]]]]]; [left; exact H | right ..];
      [exists 0 | exists 1 | exists 2 | exists 3]; (split; [lia|]); split; (reflexivity || exact H).
  - intros [H | (i & Hi & -> & H)]; [left; exact H|]. right.
    destruct (range4_cases i Hi) as [-> | [-> | [-> | ->]]]; auto 10.
Qed.

(** X2. [startGame] either fails with the first violated guard, in the
    order game absent, already started, caller not seated, fewer than 4
    players, leaving the state untouched, or starts the game: the flag is
    set, all four seats are alive, each seat stores a handle under which
    the engine holds the seat's role, access to it is granted to the
    contract and to the seat's player, no other access is granted and none
    is taken away, one [GameStarted] event is logged, and the seating,
    the identifier counter and every other game stay as they were.  Any
    seated player may start, not only the creator. *)
Theorem startGame_behaviour ctx gameId s :
  reachable s ->
  match startGame_error s (msg_sender ctx) gameId with
  | Some e =>
      startGame ctx gameId s = Revert e s /\ exec ctx (StartGame gameId) s = (s, Failed e)
  | None =>
      exists s',
        startGame ctx gameId s = Ok tt s' /\
        exec ctx (StartGame gameId) s = (s', Done) /\
        let g := game_at s gameId in
        let g' := game_at s' gameId in
        started g' = true /\
        creator g' = creator g /\ players g' = players g /\ playerCount g' = 4 /\
        (forall i, 0 <= i <= 3 -> seat_alive g' i = true) /\
        (forall i, 0 <= i <= 3 ->
           cleartext (fhe s') !! seat_handle g' i = Some (seat_role g' i) /\
           allowed (fhe s') (seat_handle g' i) this /\
           allowed (fhe s') (seat_handle g' i) (seat_player g i)) /\
        (forall h a,
           allowed (fhe s') h a <->
           allowed (fhe s) h a \/
           exists i, 0 <= i <= 3 /\ h = seat_handle g' i /\
                     (a = this \/ a = seat_player g i)) /\
        (forall ctx', getAlivePlayerCount ctx' gameId s' = Ok 4 s') /\
        (forall other p, index_at s' other p = index_at s other p) /\
        (forall other, other <> gameId -> game_at s' other = game_at s other) /\
        _nextGameId s' = _nextGameId s /\
        events s' = events s ++ [GameStarted gameId]
  end.
Proof.
  intros Hr. pose proof (reachable_wf _ Hr) as Hwf.
  pose proof (wf_games _ Hwf gameId) as Hg.
  pose proof (reachable_seating _ Hr) as Hse.
  unfold exec, run_call, bind. rewrite startGame_unfold.
  unfold startGame_error. cbn zeta.
  destruct (Z.eqb_spec (creator (game_at s gameId)) 0) as [Hc|Hc]; [split; reflexivity|].
  destruct (started (game_at s gameId)) eqn:Hst; [split; reflexivity|].
  destruct (Z.eqb_spec (index_at s gameId (msg_sender ctx)) 0) as [Hix|Hix];
    [split; reflexivity|].
  destruct (Z.eqb_spec (playerCount (game_at s gameId)) 4) as [Hn|Hn]; cbn [negb];
    [|split; reflexivity].
  exists (started_state ctx gameId s). split; [reflexivity|]. split; [reflexivity|].
  cbn zeta.
  assert (G : game_at (started_state ctx gameId s) gameId =
              started_game ctx gameId (encryptions (fhe s)) (game_at s gameId)).
  { rewrite game_at_started. case_decide; [reflexivity | congruence]. }
  rewrite G.
  split; [reflexivity|]. split; [reflexivity|]. split; [reflexivity|]. split; [exact Hn|].
  split.
  { intros i Hi. destruct (range4_cases i Hi) as [-> | [-> | [-> | ->]]]; reflexivity. }
  split.
  { intros i Hi. split; [|split].
    - change (fhe (started_state ctx gameId s))
        with (started_engine (reference_roles ctx gameId) (players (game_at s gameId)) (fhe s)).
      rewrite started_handle. unfold seat_role. cbn [roles started_game].
      apply cleartext_started_engine; [exact (st_engine _ Hse) | exact Hi].
    - apply allowed_started_state. right. exists i. auto.
    - apply allowed_started_state. right. exists i. auto. }
  split; [intros h a; apply allowed_started_state|].
  split.
  { intros ctx'. rewrite getAlivePlayerCount_ok by (rewrite G; exact Hc).
    f_equal. rewrite G.
    unfold alive_count, seat_counts, seat_alive, seat_player.
    cbn [started_game players alive fill4 get4 default from_option id slot0 slot1 slot2 slot3].
    assert (Hp : forall i, 0 <= i <= 3 -> seat_player (game_at s gameId) i <> 0).
    { intros i Hi. apply (wf_seats _ _ Hg i); [lia | apply get4_seat_player; exact Hi]. }
    pose proof (Hp 0 ltac:(lia)) as P0. pose proof (Hp 1 ltac:(lia)) as P1.
    pose proof (Hp 2 ltac:(lia)) as P2. pose proof (Hp 3 ltac:(lia)) as P3.
    unfold seat_player in P0, P1, P2, P3. cbn [get4 default from_option id] in P0, P1, P2, P3.
    rewrite (proj2 (Z.eqb_neq _ _) P0), (proj2 (Z.eqb_neq _ _) P1),
      (proj2 (Z.eqb_neq _ _) P2), (proj2 (Z.eqb_neq _ _) P3). reflexivity. }
  split; [intros other p; reflexivity|].
  split; [intros other Ho; rewrite game_at_started; case_decide; congruence|].
  split; reflexivity.
Qed.

(** ** What a transaction keeps *)

Lemma exec_persist ctx c s gameId :
  wf s ->
  let g := game_at s gameId in
  let g' := game_at (fst (exec ctx c s)) gameId in
  (creator g <> 0 -> creator g' = creator g) /\
  (forall p, index_at s gameId p <> 0 ->
     index_at (fst (exec ctx c s)) gameId p = index_at s gameId p) /\
  (forall i, 0 <= i < playerCount g -> seat_player g' i = seat_player g i) /\
  playerCount g <= playerCount g' /\
  _nextGameId s <= _nextGameId (fst (exec ctx c s)).
Proof.
  intros Hwf. cbn zeta. pose proof (exec_outcome ctx c s Hwf) as H.
  remember (fst (exec ctx c s)) as s' eqn:Es. remember (snd (exec ctx c s)) as r eqn:Er.
  clear Es Er.
  destruct H as [c e | Hlt Hz Hi0 | g0 Hc Hst Hn Hix | g0 Hc Hst Hix Hn
                | g0 target Hc Hst Ra Rt Haa Hrl Hta Hne].
  - repeat split; auto; lia.
  - rewrite game_at_created. split; [|split; [|split; [|split]]].
    + case_decide; [|reflexivity]. subst gameId. rewrite Hz. cbn. congruence.
    + intros p Hp. rewrite index_at_created. case_decide as Hd; [|reflexivity].
      destruct Hd as [<- _]. rewrite Hi0 in Hp. congruence.
    + intros i Hi. case_decide; [|reflexivity]. subst gameId. rewrite Hz in Hi. cbn in Hi. lia.
    + case_decide; [|lia]. subst gameId. rewrite Hz. cbn. lia.
    + cbn. lia.
  - rewrite game_at_joined. split; [|split; [|split; [|split]]].
    + case_decide; [subst|]; reflexivity.
    + intros p Hp. rewrite index_at_joined. case_decide as Hd; [|reflexivity].
      destruct Hd as [<- <-]. congruence.
    + intros i Hi. case_decide; [|reflexivity]. subst gameId.
      rewrite seat_player_seat_added by lia. case_decide; [lia | reflexivity].
    + case_decide; [subst; cbn; lia | lia].
    + cbn. lia.
  - rewrite game_at_started. split; [|split; [|split; [|split]]].
    + case_decide; [subst|]; reflexivity.
    + intros p _. reflexivity.
    + intros i _. case_decide; [subst|]; reflexivity.
    + case_decide; [subst; cbn; lia | lia].
    + cbn. lia.
  - rewrite game_at_attacked. split; [|split; [|split; [|split]]].
    + case_decide; [subst|]; reflexivity.
    + intros p _. reflexivity.
    + intros i _. case_decide; [subst|]; reflexivity.
    + case_decide; [subst; cbn; lia | lia].
    + cbn. lia.
Qed.

Lemma exec_liveness ctx c s gameId :
  wf s -> started (game_at s gameId) = true ->
  let g := game_at s gameId in
  let g' := game_at (fst (exec ctx c s)) gameId in
  (forall i, seat_alive g' i = seat_alive g i) \/
  (exists target,
     c = Attack gameId target /\ snd (exec ctx c s) = Done /\
     seat_role g (index_at s gameId (msg_sender ctx) - 1) = 2 /\
     seat_alive g (index_at s gameId target - 1) = true /\
     forall i, seat_alive g' i =
               if decide (index_at s gameId target - 1 = i) then false else seat_alive g i).
Proof.
  intros Hwf Hs. cbn zeta. pose proof (exec_outcome ctx c s Hwf) as H.
  remember (fst (exec ctx c s)) as s' eqn:Es. remember (snd (exec ctx c s)) as r eqn:Er.
  clear Es Er.
  destruct H as [c e | Hlt Hz Hi0 | g0 Hc Hst Hn Hix | g0 Hc Hst Hix Hn
                | g0 target Hc Hst Ra Rt Haa Hrl Hta Hne].
  - left. reflexivity.
  - left. intros i. rewrite game_at_created. case_decide; [|reflexivity].
    subst gameId. rewrite Hz in Hs. discriminate.
  - left. intros i. rewrite game_at_joined. case_decide; [|reflexivity].
    subst gameId. congruence.
  - left. intros i. rewrite game_at_started. case_decide; [|reflexivity].
    subst gameId. congruence.
  - destruct (decide (g0 = gameId)) as [->|Hne'].
    + right. exists target. split; [reflexivity|]. split; [reflexivity|].
      split; [exact Hrl|]. split; [exact Hta|].
      intros i. rewrite game_at_attacked. case_decide; [|congruence].
      apply seat_alive_kill_seat. lia.
    + left. intros i. rewrite game_at_attacked. case_decide; [congruence | reflexivity].
Qed.

Lemma alive_count_le g g' :
  players g' = players g ->
  (forall i, seat_alive g' i = true -> seat_alive g i = true) ->
  alive_count g' <= alive_count g.
Proof.
  intros Hp Ha. unfold alive_count.
  assert (Hs : forall i, seat_counts g' i <= seat_counts g i).
  { intros i. unfold seat_counts, seat_player. rewrite Hp.
    destruct (negb (default 0 (get4 (players g) i) =? 0)); cbn [andb]; [|lia].
    destruct (seat_alive g' i) eqn:E; [rewrite (Ha i E); lia|].
    destruct (seat_alive g i); lia. }
  pose proof (Hs 0). pose proof (Hs 1). pose proof (Hs 2). pose proof (Hs 3). lia.
Qed.

(** X3. Nothing is ever taken back: across any sequence of transactions an
    existing game keeps its creator, a seated player keeps the same seat,
    the player count and the identifier counter never decrease. *)
Theorem seats_are_permanent s s' gameId :
  reachable s -> steps s s' ->
  let g := game_at s gameId in
  let g' := game_at s' gameId in
  (creator g <> 0 -> creator g' = creator g) /\
  (forall p, index_at s gameId p <> 0 ->
     index_at s' gameId p = index_at s gameId p /\
     seat_player g' (index_at s gameId p - 1) = p) /\
  playerCount g <= playerCount g' /\
  _nextGameId s <= _nextGameId s'.
Proof.
  intros Hr H. cbn zeta. induction H as [|ctx c s s1 H IH Hs].
  - pose proof (wf_games _ (reachable_wf _ Hr) gameId) as Hg.
    split; [reflexivity|]. split; [|lia].
    intros p Hp. split; [reflexivity|].
    destruct (wf_index _ _ Hg _ Hp) as (_ & _ & Hget). apply seat_player_in_range. exact Hget.
  - destruct (IH Hr) as (I1 & I2 & I3 & I4).
    pose proof (steps_wf _ _ (reachable_wf _ Hr) H) as Hwf1.
    destruct (exec_persist ctx c s1 gameId Hwf1) as (P1 & P2 & P3 & P4 & P5).
    split; [|split; [|lia]].
    + intros Hc. transitivity (creator (game_at s1 gameId)); [|exact (I1 Hc)].
      apply P1. rewrite (I1 Hc). exact Hc.
    + intros p Hp. destruct (I2 p Hp) as [E1 E2].
      assert (Hp1 : index_at s1 gameId p <> 0) by congruence.
      split; [rewrite <- E1; apply P2; exact Hp1|].
      transitivity (seat_player (game_at s1 gameId) (index_at s gameId p - 1)); [|exact E2].
      apply P3.
      destruct (wf_index _ _ (wf_games _ Hwf1 gameId) _ Hp1) as (_ & Rp & _). lia.
Qed.

(** X4. The seats of a game: at most 4 are taken, they are exactly the
    seats below [playerCount] (the others hold address 0), no address sits
    twice, and an address is seated exactly when the seat index finds it. *)
Theorem seats_are_distinct s gameId :
  reachable s ->
  let g := game_at s gameId in
  0 <= playerCount g <= 4 /\
  (forall i, 0 <= i <= 3 -> (seat_player g i <> 0 <-> i < playerCount g)) /\
  (forall i j, 0 <= i < playerCount g -> 0 <= j < playerCount g ->
     seat_player g i = seat_player g j -> i = j) /\
  (forall p, index_at s gameId p <> 0 <->
     exists i, 0 <= i < playerCount g /\ seat_player g i = p /\ index_at s gameId p = i + 1).
Proof.
  intros Hr. cbn zeta. pose proof (reachable_wf _ Hr) as Hwf.
  pose proof (wf_games _ Hwf gameId) as Hg.
  pose proof (st_games _ (reachable_seating _ Hr) gameId) as Hse.
  pose proof (wf_count _ _ Hg) as Hn.
  split; [exact Hn|]. split; [|split].
  - intros i Hi. split.
    + intros Hp. destruct (Z.lt_ge_cases i (playerCount (game_at s gameId))) as [|Hge];
        [assumption|]. exfalso. apply Hp. apply (st_empty _ _ Hse). lia.
    + intros Hlt. apply (wf_seats _ _ Hg i); [lia | apply get4_seat_player; exact Hi].
  - intros i j Hi Hj E. pose proof (st_inverse _ _ Hse i Hi) as Ei.
    pose proof (st_inverse _ _ Hse j Hj) as Ej. rewrite E in Ei. lia.
  - intros p. split.
    + intros Hp. destruct (wf_index _ _ Hg _ Hp) as (_ & Rp & Hget).
      exists (index_at s gameId p - 1). split; [lia|].
      split; [apply seat_player_in_range; exact Hget | lia].
    + intros (i & Hi & _ & E). lia.
Qed.

(** X5. The games that exist are exactly those with an identifier from 0
    up to the counter; the creator of an existing game sits at seat 0; on
    any other identifier every operation and view fails with
    [GameNotFound]. *)
Theorem games_exist_below_counter s gameId :
  reachable s ->
  (creator (game_at s gameId) <> 0 <-> 0 <= gameId < _nextGameId s) /\
  (0 <= gameId < _nextGameId s ->
     seat_player (game_at s gameId) 0 = creator (game_at s gameId) /\
     index_at s gameId (creator (game_at s gameId)) = 1 /\
     forall ctx, exists r, getGameDetails ctx gameId s = Ok r s) /\
  (~ 0 <= gameId < _nextGameId s ->
     forall ctx target,
       joinGame ctx gameId s = Revert GameNotFound s /\
       startGame ctx gameId s = Revert GameNotFound s /\
       attack ctx gameId target s = Revert GameNotFound s /\
       getGameDetails ctx gameId s = Revert GameNotFound s /\
       getPlayerEncryptedRole ctx gameId target s = Revert GameNotFound s /\
       getAlivePlayerCount ctx gameId s = Revert GameNotFound s /\
       getPlayerStatus ctx gameId target s = Revert GameNotFound s).
Proof.
  intros Hr. pose proof (reachable_wf _ Hr) as Hwf.
  pose proof (reachable_seating _ Hr) as Hse.
  pose proof (wf_games _ Hwf gameId) as Hg.
  assert (Hiff : creator (game_at s gameId) <> 0 <-> 0 <= gameId < _nextGameId s).
  { split.
    - intros Hc. destruct (Z.lt_ge_cases gameId (_nextGameId s)) as [Hlt|Hge].
      + split; [|exact Hlt]. destruct (Z.lt_ge_cases gameId 0) as [Hneg|]; [|assumption].
        exfalso. clear Hg.
        assert (Hall : forall t, reachable t -> gameId < 0 -> creator (game_at t gameId) = 0).
        { clear. intros t Ht Hneg. induction Ht as [|ctx c t Ht IH Hs]; [reflexivity|].
          pose proof (exec_outcome ctx c t (reachable_wf _ Ht)) as H.
          pose proof (wf_next _ (reachable_wf _ Ht)) as Hnn.
          remember (fst (exec ctx c t)) as t' eqn:Es.
          remember (snd (exec ctx c t)) as r eqn:Er. clear Es Er.
          destruct H as [c e | Hlt Hz Hi0 | g0 Hc Hst Hn Hix | g0 Hc Hst Hix Hn
                        | g0 target Hc Hst Ra Rt Haa Hrl Hta Hne].
          - exact IH.
          - rewrite game_at_created. case_decide; [lia | exact IH].
          - rewrite game_at_joined. case_decide; [subst; congruence | exact IH].
          - rewrite game_at_started. case_decide; [subst; congruence | exact IH].
          - rewrite game_at_attacked. case_decide; [subst; congruence | exact IH]. }
        apply Hc. apply Hall; assumption.
      + exfalso. apply Hc. apply (wf_fresh _ Hwf). exact Hge.
    - apply (st_exists _ Hse). }
  split; [exact Hiff|]. split.
  - intros Hin. pose proof (proj2 Hiff Hin) as Hc.
    destruct (st_creator _ _ (st_games _ Hse gameId) Hc) as [Hn H0].
    split; [exact H0|]. split.
    + rewrite <- H0. apply (st_inverse _ _ (st_games _ Hse gameId)). lia.
    + intros ctx. unfold getGameDetails. mrun. rewrite (proj2 (Z.eqb_neq _ _) Hc).
      eexists. reflexivity.
  - intros Hout ctx target.
    assert (Hc : creator (game_at s gameId) = 0).
    { destruct (Z.eq_dec (creator (game_at s gameId)) 0) as [|Hc]; [assumption|].
      exfalso. apply Hout. apply Hiff. exact Hc. }
    rewrite joinGame_unfold, startGame_unfold. cbn zeta.
    unfold attack, getGameDetails, getPlayerEncryptedRole, getAlivePlayerCount, getPlayerStatus.
    mrun. rewrite Hc. cbn. repeat split; reflexivity.
Qed.

Lemma getPlayerEncryptedRole_ok ctx gameId player s :
  creator (game_at s gameId) <> 0 ->
  started (game_at s gameId) = true ->
  1 <= index_at s gameId player <= 4 ->
  getPlayerEncryptedRole ctx gameId player s =
  Ok (seat_handle (game_at s gameId) (index_at s gameId player - 1)) s.
Proof.
  intros Hc Hst Hi. unfold getPlayerEncryptedRole, seat_handle. mrun.
  rewrite (proj2 (Z.eqb_neq _ _) Hc), Hst. cbn [negb].
  rewrite (proj2 (Z.eqb_neq (index_at s gameId player) 0)) by lia.
  rewrite (proj2 (Z.leb_le 1 _)) by lia.
  destruct (get4_in_range (encryptedRoles (game_at s gameId)) (index_at s gameId player - 1)
              ltac:(lia)) as [h ->].
  reflexivity.
Qed.

Lemma role_in_range g i :
  Permutation (to_list4 (roles g)) [1; 1; 2; 3] -> 0 <= i <= 3 ->
  seat_role g i = 1 \/ seat_role g i = 2 \/ seat_role g i = 3.
Proof.
  intros P Hi.
  assert (Hin : In (seat_role g i) (to_list4 (roles g))).
  { unfold seat_role, to_list4. destruct (roles g) as [r0 r1 r2 r3].
    assert (E : i = 0 \/ i = 1 \/ i = 2 \/ i = 3) by lia.
    destruct E as [-> | [-> | [-> | ->]]]; cbn; auto. }
  apply (Permutation_in _ P) in Hin. cbn in Hin.
  destruct Hin as [<- | [<- | [<- | [<- | []]]]]; auto.
Qed.

(** X6. Before the start, [getAlivePlayerCount] equals [playerCount],
    every seated player's status is alive, no role and no handle is
    stored, and both [getPlayerEncryptedRole] and [attack] fail with
    [GameNotStarted] for everybody. *)
Theorem lobby_views s gameId :
  reachable s ->
  creator (game_at s gameId) <> 0 ->
  started (game_at s gameId) = false ->
  let g := game_at s gameId in
  (forall ctx, getAlivePlayerCount ctx gameId s = Ok (playerCount g) s) /\
  (forall ctx p, index_at s gameId p <> 0 -> getPlayerStatus ctx gameId p s = Ok true s) /\
  (forall ctx p, index_at s gameId p = 0 ->
     getPlayerStatus ctx gameId p s = Revert PlayerNotInGame s) /\
  (forall ctx p, getPlayerEncryptedRole ctx gameId p s = Revert GameNotStarted s) /\
  (forall ctx target, attack ctx gameId target s = Revert GameNotStarted s) /\
  roles g = fill4 0 /\ encryptedRoles g = fill4 0.
Proof.
  intros Hr Hc Hst. cbn zeta. pose proof (reachable_wf _ Hr) as Hwf.
  pose proof (wf_games _ Hwf gameId) as Hg.
  pose proof (st_games _ (reachable_seating _ Hr) gameId) as Hse.
  pose proof (wf_count _ _ Hg) as Hn.
  destruct (st_lobby _ _ Hse Hst) as (D1 & D2 & D3).
  split; [|split; [|split; [|split; [|split; [|split]]]]].
  - intros ctx. rewrite getAlivePlayerCount_ok by exact Hc. f_equal.
    unfold alive_count.
    assert (Hs : forall i, 0 <= i <= 3 ->
              seat_counts (game_at s gameId) i =
              if i <? playerCount (game_at s gameId) then 1 else 0).
    { intros i Hi. unfold seat_counts. rewrite (D3 i Hi).
      destruct (Z.ltb_spec i (playerCount (game_at s gameId))) as [Hlt|Hge].
      - assert (Hp : seat_player (game_at s gameId) i <> 0)
          by (apply (wf_seats _ _ Hg i); [lia | apply get4_seat_player; exact Hi]).
        rewrite (proj2 (Z.eqb_neq _ _) Hp). reflexivity.
      - rewrite andb_false_r. reflexivity. }
    rewrite (Hs 0), (Hs 1), (Hs 2), (Hs 3) by lia.
    assert (E : playerCount (game_at s gameId) = 0 \/ playerCount (game_at s gameId) = 1 \/
                playerCount (game_at s gameId) = 2 \/ playerCount (game_at s gameId) = 3 \/
                playerCount (game_at s gameId) = 4) by lia.
    destruct E as [-> | [-> | [-> | [-> | ->]]]]; reflexivity.
  - intros ctx p Hp. destruct (wf_index _ _ Hg _ Hp) as (_ & Rp & _).
    rewrite getPlayerStatus_ok by (assumption || lia). f_equal.
    rewrite D3 by lia. apply Z.ltb_lt. lia.
  - intros ctx p Hp. unfold getPlayerStatus. mrun.
    rewrite (proj2 (Z.eqb_neq _ _) Hc), Hp. reflexivity.
  - intros ctx p. unfold getPlayerEncryptedRole. mrun.
    rewrite (proj2 (Z.eqb_neq _ _) Hc), Hst. reflexivity.
  - intros ctx target. unfold attack. mrun.
    rewrite (proj2 (Z.eqb_neq _ _) Hc), Hst. reflexivity.
  - exact D1.
  - exact D2.
Qed.

(** X7. After the start, [getPlayerEncryptedRole] returns for every seated
    player the handle of that player's seat; the engine holds the seat's
    role (1, 2 or 3) under it, and the player and the contract have
    access, so that the player's decryption gives the role.  Callers that
    are not seated get [PlayerNotInGame]. *)
Theorem role_handle_round_trip s gameId p :
  reachable s ->
  started (game_at s gameId) = true ->
  let g := game_at s gameId in
  (index_at s gameId p = 0 ->
     forall ctx, getPlayerEncryptedRole ctx gameId p s = Revert PlayerNotInGame s) /\
  (index_at s gameId p <> 0 ->
     exists h role,
       (forall ctx, getPlayerEncryptedRole ctx gameId p s = Ok h s) /\
       role = seat_role g (index_at s gameId p - 1) /\
       (role = 1 \/ role = 2 \/ role = 3) /\
       cleartext (fhe s) !! h = Some role /\
       allowed (fhe s) h p /\
       allowed (fhe s) h this /\
       userDecrypt (fhe s) h this p = Some role).
Proof.
  intros Hr Hst. cbn zeta. pose proof (reachable_wf _ Hr) as Hwf.
  pose proof (wf_games _ Hwf gameId) as Hg.
  pose proof (st_games _ (reachable_seating _ Hr) gameId) as Hse.
  assert (Hc : creator (game_at s gameId) <> 0).
  { intros Hc. destruct (wf_absent _ _ Hg Hc) as [Hz _]. rewrite Hz in Hst. discriminate. }
  destruct (wf_started _ _ Hg Hst) as (H4 & P & _).
  split.
  - intros Hp ctx. unfold getPlayerEncryptedRole. mrun.
    rewrite (proj2 (Z.eqb_neq _ _) Hc), Hst. cbn [negb]. rewrite Hp. reflexivity.
  - intros Hp. destruct (wf_index _ _ Hg _ Hp) as (_ & Rp & Hget).
    assert (Ri : 0 <= index_at s gameId p - 1 <= 3) by lia.
    pose proof (st_roles _ _ Hse Hst _ Ri) as Hclear.
    exists (seat_handle (game_at s gameId) (index_at s gameId p - 1)),
      (seat_role (game_at s gameId) (index_at s gameId p - 1)).
    assert (Hhandle : get4 (encryptedRoles (game_at s gameId)) (index_at s gameId p - 1) =
                      Some (seat_handle (game_at s gameId) (index_at s gameId p - 1))).
    { unfold seat_handle. apply get4_default. exact Ri. }
    destruct (wf_handles _ _ Hg Hst _ _ _ Hhandle Hget) as [Hthis Hme].
    split; [|split; [reflexivity|split; [apply role_in_range; assumption|]]].
    + intros ctx. apply getPlayerEncryptedRole_ok; (assumption || lia).
    + split; [exact Hclear|]. split; [exact Hme|]. split; [exact Hthis|].
      unfold userDecrypt. case_decide as Hd; [exact Hclear|].
      exfalso. apply Hd. split; assumption.
Qed.

(** X8. A handle stands for one role: if [getPlayerEncryptedRole] returns
    the same handle for two players, of one started game or of two, then
    both hold the same role.  Whether two seats share a handle is the
    engine's decision. *)
Theorem same_handle_same_role s g1 g2 p1 p2 ctx1 ctx2 h :
  reachable s ->
  getPlayerEncryptedRole ctx1 g1 p1 s = Ok h s ->
  getPlayerEncryptedRole ctx2 g2 p2 s = Ok h s ->
  seat_role (game_at s g1) (index_at s g1 p1 - 1) =
  seat_role (game_at s g2) (index_at s g2 p2 - 1).
Proof.
  intros Hr H1 H2. pose proof (reachable_wf _ Hr) as Hwf.
  pose proof (reachable_seating _ Hr) as Hse.
  assert (Hinv : forall ctx g p, getPlayerEncryptedRole ctx g p s = Ok h s ->
            cleartext (fhe s) !! h = Some (seat_role (game_at s g) (index_at s g p - 1))).
  { clear H1 H2. intros ctx g p H. unfold getPlayerEncryptedRole in H. mrun.
    destruct (creator (game_at s g) =? 0); [discriminate|].
    destruct (started (game_at s g)) eqn:Hst; [|discriminate]. cbn [negb] in H.
    destruct (Z.eqb_spec (index_at s g p) 0) as [|Hp]; [discriminate|].
    destruct (1 <=? index_at s g p); [|discriminate].
    destruct (get4 (encryptedRoles (game_at s g)) (index_at s g p - 1)) as [h'|] eqn:E;
      [|discriminate].
    injection H as ->.
    destruct (wf_index _ _ (wf_games _ Hwf g) _ Hp) as (_ & Rp & _).
    pose proof (wf_count _ _ (wf_games _ Hwf g)) as Hn.
    pose proof (st_roles _ _ (st_games _ Hse g) Hst (index_at s g p - 1) ltac:(lia)) as Hcl.
    unfold seat_handle in Hcl. rewrite E in Hcl. exact Hcl. }
  pose proof (Hinv _ _ _ H1) as E1. pose proof (Hinv _ _ _ H2) as E2.
  congruence.
Qed.

(** X9. In a started game a dead seat stays dead and the alive count never
    grows, whatever transactions follow. *)
Theorem dead_stay_dead s s' gameId :
  reachable s ->
  started (game_at s gameId) = true ->
  steps s s' ->
  (forall i, seat_alive (game_at s gameId) i = false ->
             seat_alive (game_at s' gameId) i = false) /\
  forall ctx, exists n n',
    getAlivePlayerCount ctx gameId s = Ok n s /\
    getAlivePlayerCount ctx gameId s' = Ok n' s' /\
    n' <= n <= 4.
Proof.
  intros Hr Hst H. pose proof (reachable_wf _ Hr) as Hwf.
  assert (Hc : creator (game_at s gameId) <> 0).
  { intros Hc. destruct (wf_absent _ _ (wf_games _ Hwf gameId) Hc) as [Hz _].
    rewrite Hz in Hst. discriminate. }
  assert (Hmono : forall i, seat_alive (game_at s' gameId) i = true ->
                            seat_alive (game_at s gameId) i = true).
  { induction H as [|ctx c s s1 H IH Hs]; [auto|].
    specialize (IH Hr Hst Hwf Hc).
    pose proof (steps_wf _ _ Hwf H) as Hwf1.
    destruct (steps_started _ _ gameId Hwf Hst H) as [(_ & _ & _ & _ & _ & S6) _].
    assert (Hst1 : started (game_at s1 gameId) = true) by congruence.
    intros i Hi. apply IH.
    destruct (exec_liveness ctx c s1 gameId Hwf1 Hst1) as [Same | (t & _ & _ & _ & _ & Ch)].
    - rewrite <- Same. exact Hi.
    - rewrite Ch in Hi. case_decide; [discriminate | exact Hi]. }
  destruct (steps_started _ _ gameId Hwf Hst H) as [(S1 & S2 & _) _].
  split.
  - intros i Hi. destruct (seat_alive (game_at s' gameId) i) eqn:E; [|reflexivity].
    rewrite (Hmono i E) in Hi. discriminate.
  - intros ctx. exists (alive_count (game_at s gameId)), (alive_count (game_at s' gameId)).
    split; [apply getAlivePlayerCount_ok; exact Hc|].
    split; [apply getAlivePlayerCount_ok; congruence|].
    split; [apply alive_count_le; assumption|].
    unfold alive_count.
    pose proof (seat_counts_range (game_at s gameId) 0).
    pose proof (seat_counts_range (game_at s gameId) 1).
    pose proof (seat_counts_range (game_at s gameId) 2).
    pose proof (seat_counts_range (game_at s gameId) 3). lia.
Qed.

(** X10. In a started game a transaction changes a liveness flag only if
    it is a successful [attack] on that game, sent from the Werewolf's
    seat, and then only the flag of the target's seat, from alive to dead. *)
Theorem only_attack_kills ctx c s gameId i :
  reachable s ->
  started (game_at s gameId) = true ->
  seat_alive (game_at (fst (exec ctx c s)) gameId) i <> seat_alive (game_at s gameId) i ->
  exists target,
    c = Attack gameId target /\
    snd (exec ctx c s) = Done /\
    seat_role (game_at s gameId) (index_at s gameId (msg_sender ctx) - 1) = 2 /\
    i = index_at s gameId target - 1 /\
    seat_alive (game_at s gameId) i = true /\
    seat_alive (game_at (fst (exec ctx c s)) gameId) i = false.
Proof.
  intros Hr Hst Hch. pose proof (reachable_wf _ Hr) as Hwf.
  destruct (exec_liveness ctx c s gameId Hwf Hst) as [Same | (t & Ec & Ed & Hrole & Ha & Ch)].
  - exfalso. apply Hch. apply Same.
  - exists t. rewrite Ch in Hch |- *. case_decide as Hd; [|congruence].
    subst i. repeat split; assumption.
Qed.

(** X11. A successful transaction appends exactly one event, the one of
    its operation with the caller and arguments it ran with; a failed one
    appends nothing. *)
Theorem one_event_per_success ctx c s :
  reachable s ->
  events (fst (exec ctx c s)) = events s ++ logged ctx c (snd (exec ctx c s)).
Proof.
  intros Hr. pose proof (exec_outcome ctx c s (reachable_wf _ Hr)) as H.
  remember (fst (exec ctx c s)) as s' eqn:Es. remember (snd (exec ctx c s)) as r eqn:Er.
  clear Es Er.
  destruct H as [c e | Hlt Hz Hi0 | g0 Hc Hst Hn Hix | g0 Hc Hst Hix Hn
                | g0 target Hc Hst Ra Rt Haa Hrl Hta Hne]; cbn [logged].
  - destruct c; cbn; rewrite app_nil_r; reflexivity.
  - reflexivity.
  - reflexivity.
  - reflexivity.
  - reflexivity.
Qed.

(** X12. Games do not interact: a transaction leaves every game other than
    the one it addresses, and that game's seat index, exactly as they
    were; [createGame] addresses the slot at the counter. *)
Theorem other_games_untouched ctx c s other :
  reachable s ->
  other <> addressed c s ->
  game_at (fst (exec ctx c s)) other = game_at s other /\
  forall p, index_at (fst (exec ctx c s)) other p = index_at s other p.
Proof.
  intros Hr Hne. pose proof (exec_outcome ctx c s (reachable_wf _ Hr)) as H.
  remember (fst (exec ctx c s)) as s' eqn:Es. remember (snd (exec ctx c s)) as r eqn:Er.
  clear Es Er.
  destruct H as [c e | Hlt Hz Hi0 | g0 Hc Hst Hn Hix | g0 Hc Hst Hix Hn
                | g0 target Hc Hst Ra Rt Haa Hrl Hta Hne']; cbn [addressed] in Hne.
  - split; reflexivity.
  - rewrite game_at_created. split; [case_decide; congruence|].
    intros p. rewrite index_at_created. case_decide as Hd; [destruct Hd; congruence|].
    reflexivity.
  - rewrite game_at_joined. split; [case_decide; congruence|].
    intros p. rewrite index_at_joined. case_decide as Hd; [destruct Hd; congruence|].
    reflexivity.
  - rewrite game_at_started. split; [case_decide; congruence|]. reflexivity.
  - rewrite game_at_attacked. split; [case_decide; congruence|]. reflexivity.
Qed.

Lemma counter_bounded s : reachable s -> 0 <= _nextGameId s <= MAX_UINT256.
Proof.
  induction 1 as [|ctx c t Ht IH Hs]; [split; [reflexivity | discriminate]|].
  pose proof (exec_outcome ctx c t (reachable_wf _ Ht)) as Ho.
  remember (fst (exec ctx c t)) as t' eqn:Es.
  remember (snd (exec ctx c t)) as r eqn:Er. clear Es Er.
  destruct Ho; cbn [_nextGameId created_state joined_state started_state attacked_state
                    add_event set_game set_index set_nextGameId set_fhe]; lia.
Qed.

(** X13. No reachable state makes [joinGame], [startGame], [attack] or a
    view panic: the array indices stay in bounds and the uint8 arithmetic
    never overflows.  The one panic of the contract is the overflow of the
    identifier counter in [createGame]. *)
Theorem panic_only_at_counter_overflow s :
  reachable s ->
  (forall ctx c code,
     snd (exec ctx c s) = Failed (Panic code) ->
     c = CreateGame /\ _nextGameId s = MAX_UINT256 /\ code = 0x11) /\
  (forall ctx gameId player code s',
     getGameDetails ctx gameId s <> Revert (Panic code) s' /\
     getPlayerEncryptedRole ctx gameId player s <> Revert (Panic code) s' /\
     getNextGameId ctx s <> Revert (Panic code) s' /\
     getAlivePlayerCount ctx gameId s <> Revert (Panic code) s' /\
     getPlayerStatus ctx gameId player s <> Revert (Panic code) s').
Proof.
  intros Hr. pose proof (reachable_wf _ Hr) as Hwf. split.
  - intros ctx c code H. unfold exec, run_call, bind in H.
    destruct c as [|g|g|g target].
    + destruct (Z_lt_dec (_nextGameId s) MAX_UINT256) as [Hlt|Hge].
      * pose proof (wf_fresh _ Hwf _ (Z.le_refl (_nextGameId s))) as Hc.
        destruct (wf_absent _ _ (wf_games _ Hwf _) Hc) as [Hz _].
        rewrite createGame_ok in H by assumption. discriminate.
      * rewrite createGame_full in H by lia. cbn in H. injection H as <-.
        split; [reflexivity|]. split; [|reflexivity].
        pose proof (counter_bounded _ Hr). lia.
    + pose proof (wf_count _ _ (wf_games _ Hwf g)) as Hn.
      rewrite joinGame_unfold in H. cbn zeta in H.
      destruct (Z.eqb_spec (creator (game_at s g)) 0) as [|Hc]; [discriminate|].
      destruct (started (game_at s g)) eqn:Hst; [discriminate|].
      destruct (Z.leb_spec 4 (playerCount (game_at s g))) as [|Hlt]; [discriminate|].
      destruct (Z.eqb_spec (index_at s g (msg_sender ctx)) 0) as [Hix|]; [|discriminate].
      cbn [negb] in H.
      pose proof (joinGame_total ctx g s Hc Hst ltac:(lia) Hix) as Hok.
      rewrite joinGame_unfold in Hok. cbn zeta in Hok.
      rewrite (proj2 (Z.eqb_neq _ _) Hc), Hst, (proj2 (Z.leb_gt _ _) Hlt), Hix in Hok.
      cbn [negb Z.eqb] in Hok. rewrite Hok in H. discriminate.
    + rewrite startGame_unfold in H. cbn zeta in H.
      destruct (creator (game_at s g) =? 0); [discriminate|].
      destruct (started (game_at s g)); [discriminate|].
      destruct (index_at s g (msg_sender ctx) =? 0); [discriminate|].
      destruct (playerCount (game_at s g) =? 4); discriminate.
    + pose proof (wf_games _ Hwf g) as Hg. pose proof (wf_count _ _ Hg) as Hn.
      rewrite attack_unfold in H.
      2,3: intros Hx; destruct (wf_index _ _ Hg _ Hx) as (_ & ? & _); lia.
      repeat match type of H with
             | context [if ?b then Revert _ _ else _] => destruct b; [discriminate|]
             end.
      discriminate.
  - intros ctx gameId player code s'.
    pose proof (wf_games _ Hwf gameId) as Hg. pose proof (wf_count _ _ Hg) as Hn.
    split; [|split; [|split; [|split]]].
    + unfold getGameDetails. mrun. destruct (creator (game_at s gameId) =? 0); discriminate.
    + unfold getPlayerEncryptedRole. mrun.
      destruct (creator (game_at s gameId) =? 0); [discriminate|].
      destruct (started (game_at s gameId)); [|discriminate]. cbn [negb].
      destruct (Z.eqb_spec (index_at s gameId player) 0) as [|Hp]; [discriminate|].
      destruct (wf_index _ _ Hg _ Hp) as (_ & Rp & _).
      rewrite (proj2 (Z.leb_le 1 _)) by lia.
      destruct (get4_in_range (encryptedRoles (game_at s gameId))
                  (index_at s gameId player - 1) ltac:(lia)) as [h ->]. discriminate.
    + discriminate.
    + destruct (Z.eq_dec (creator (game_at s gameId)) 0) as [Hc|Hc].
      * unfold getAlivePlayerCount.
        unfold bind at 1. unfold load at 1, gets at 1. unfold bind at 1.
        rewrite Hc. discriminate.
      * rewrite getAlivePlayerCount_ok by exact Hc. discriminate.
    + unfold getPlayerStatus. mrun.
      destruct (creator (game_at s gameId) =? 0); [discriminate|].
      destruct (Z.eqb_spec (index_at s gameId player) 0) as [|Hp]; [discriminate|].
      destruct (wf_index _ _ Hg _ Hp) as (_ & Rp & _).
      rewrite (proj2 (Z.leb_le 1 _)) by lia.
      destruct (get4_in_range (alive (game_at s gameId))
                  (index_at s gameId player - 1) ltac:(lia)) as [a ->]. discriminate.
Qed.

(** X14. After the start the set-up of a game is frozen: creator, players,
    handles, roles, player count and the started flag are the same in
    every later state; only liveness flags can still change. *)
Theorem started_game_is_frozen s s' gameId :
  reachable s ->
  started (game_at s gameId) = true ->
  steps s s' ->
  same_setup (game_at s gameId) (game_at s' gameId) /\
  forall p, index_at s' gameId p = index_at s gameId p.
Proof.
  intros Hr Hst H. apply steps_started; [apply reachable_wf; exact Hr | exact Hst | exact H].
Qed.

(** X15. The end of a game: once every seat but the Werewolf's is dead, no
    [attack] on that game succeeds any more, whoever sends it and whoever
    it names. *)
Theorem last_one_standing ctx gameId target s :
  reachable s ->
  started (game_at s gameId) = true ->
  (forall i, 0 <= i <= 3 -> seat_role (game_at s gameId) i <> 2 ->
             seat_alive (game_at s gameId) i = false) ->
  exists e, attack ctx gameId target s = Revert e s /\
            exec ctx (Attack gameId target) s = (s, Failed e).
Proof.
  intros Hr Hst Hdead. pose proof (reachable_wf _ Hr) as Hwf.
  pose proof (wf_games _ Hwf gameId) as Hg. pose proof (wf_count _ _ Hg) as Hn.
  destruct (wf_started _ _ Hg Hst) as (_ & P & _).
  unfold exec, run_call, bind. rewrite attack_unfold.
  2,3: intros Hx; destruct (wf_index _ _ Hg _ Hx) as (_ & ? & _); lia.
  destruct (creator (game_at s gameId) =? 0); [eexists; split; reflexivity|].
  rewrite Hst. cbn [negb].
  destruct (Z.eqb_spec (index_at s gameId (msg_sender ctx)) 0) as [|Hai];
    [eexists; split; reflexivity|].
  destruct (seat_alive (game_at s gameId) (index_at s gameId (msg_sender ctx) - 1));
    [|eexists; split; reflexivity]. cbn [negb].
  destruct (Z.eqb_spec (seat_role (game_at s gameId)
              (index_at s gameId (msg_sender ctx) - 1)) 2) as [Hra|];
    [|eexists; split; reflexivity]. cbn [negb].
  destruct (Z.eqb_spec (index_at s gameId target) 0) as [|Hti];
    [eexists; split; reflexivity|].
  destruct (seat_alive (game_at s gameId) (index_at s gameId target - 1)) eqn:Hta;
    [|eexists; split; reflexivity]. cbn [negb].
  destruct (Z.eqb_spec (index_at s gameId target - 1)
              (index_at s gameId (msg_sender ctx) - 1)) as [|Hne];
    [eexists; split; reflexivity|].
  exfalso.
  destruct (wf_index _ _ Hg _ Hai) as (_ & Ra & _).
  destruct (wf_index _ _ Hg _ Hti) as (_ & Rt & _).
  destruct (Z.eq_dec (seat_role (game_at s gameId) (index_at s gameId target - 1)) 2)
    as [Hrt|Hrt].
  - apply Hne. apply (werewolf_unique _ _ _ P).
    + rewrite get4_seat_role by lia. f_equal. exact Hrt.
    + rewrite get4_seat_role by lia. f_equal. exact Hra.
  - assert (R : 0 <= index_at s gameId target - 1 <= 3) by lia.
    rewrite (Hdead _ R Hrt) in Hta. discriminate.
Qed.


(** ** Successful transactions, in closed form *)

Lemma exec_create_done ctx s :
  _nextGameId s < MAX_UINT256 ->
  game_at s (_nextGameId s) = zeroGame ->
  exec ctx CreateGame s = (created_state ctx s, Created (_nextGameId s)).
Proof.
  intros Hlt Hz. unfold exec, run_call, bind. rewrite createGame_ok by assumption. reflexivity.
Qed.

Lemma exec_join_done ctx gameId s :
  creator (game_at s gameId) <> 0 ->
  started (game_at s gameId) = false ->
  0 <= playerCount (game_at s gameId) < 4 ->
  index_at s gameId (msg_sender ctx) = 0 ->
  exec ctx (JoinGame gameId) s = (joined_state ctx gameId s, Done).
Proof.
  intros Hc Hst Hn Hix. unfold exec, run_call, bind.
  rewrite joinGame_total by assumption. reflexivity.
Qed.

Lemma exec_start_done ctx gameId s :
  creator (game_at s gameId) <> 0 ->
  started (game_at s gameId) = false ->
  index_at s gameId (msg_sender ctx) <> 0 ->
  playerCount (game_at s gameId) = 4 ->
  exec ctx (StartGame gameId) s = (started_state ctx gameId s, Done).
Proof.
  intros Hc Hst Hix Hn. unfold exec, run_call, bind. rewrite startGame_unfold. cbn zeta.
  rewrite (proj2 (Z.eqb_neq _ _) Hc), Hst, (proj2 (Z.eqb_neq _ _) Hix),
    (proj2 (Z.eqb_eq _ _) Hn). reflexivity.
Qed.

Lemma creator_kill_seat g i : creator (kill_seat g i) = creator g.
Proof. reflexivity. Qed.

Lemma started_kill_seat g i : started (kill_seat g i) = started g.
Proof. reflexivity. Qed.

Lemma seat_role_kill_seat g i j : seat_role (kill_seat g i) j = seat_role g j.
Proof. reflexivity. Qed.

Lemma seat_player_kill_seat g i j : seat_player (kill_seat g i) j = seat_player g j.
Proof. reflexivity. Qed.

Lemma seat_player_mkGame c ps hs rs al n st i :
  seat_player (mkGame c ps hs rs al n st) i = default 0 (get4 ps i).
Proof. reflexivity. Qed.


(** ** The identifier read back after a creation *)

(** X18. The identifier the test and the front end read back after a
    successful [createGame], [Number(getNextGameId()) - 1], is the created
    identifier plus the number of games created by the transactions mined
    in between (while the counter is at most 2^53): it is the created
    game exactly when no other game was created meanwhile. *)
Theorem latest_game_id_after_create ctx view txs s gameId :
  reachable s -> msg_sender ctx <> 0 -> Forall external txs ->
  snd (exec ctx CreateGame s) = Created gameId ->
  _nextGameId (fst (run_trace txs (fst (exec ctx CreateGame s)))) <= 2 ^ 53 ->
  let later := created_ids (snd (run_trace txs (fst (exec ctx CreateGame s)))) in
  latest_game_id view (fst (run_trace txs (fst (exec ctx CreateGame s)))) =
    Some (gameId + Z.of_nat (length later)) /\
  (latest_game_id view (fst (run_trace txs (fst (exec ctx CreateGame s)))) = Some gameId <->
   later = []).
Proof.
  intros Hr Hs Hext Hc Hb later.
  pose proof (reachable_wf _ Hr) as Hwf.
  pose proof (reachable_wf _ (reachable_exec ctx CreateGame s Hr Hs)) as Hwf1.
  destruct (run_trace_counter txs _ Hwf1 Hext) as (Hwf2 & _ & Hn).
  fold later in Hn.
  assert (H1 : _nextGameId (fst (exec ctx CreateGame s)) = gameId + 1).
  { revert Hc. unfold exec, run_call, bind.
    destruct (createGame ctx s) as [id s'|e s'] eqn:H; cbn [fst snd ret]; [|discriminate].
    intros [= <-]. destruct (createGame_inv _ _ _ _ Hwf H) as (-> & _ & ->). reflexivity. }
  pose proof (wf_next _ Hwf2) as Hpos.
  assert (E : latest_game_id view (fst (run_trace txs (fst (exec ctx CreateGame s)))) =
              Some (gameId + Z.of_nat (length later))).
  { unfold latest_game_id, getNextGameId, gets, Number.
    case_decide as Hd; [|lia]. cbn [fmap option_fmap option_map]. f_equal. lia. }
  split; [exact E|]. rewrite E. split.
  - intros [= Hl]. destruct later; [reflexivity | cbn in Hl; lia].
  - intros ->. cbn. f_equal. lia.
Qed.

(** ** The front end's Attack buttons *)


(** ** The test scenario *)

Section TestFacts.

Variable players : Z -> Z.
Variable blk : Z -> Z * Z.
Hypothesis players_distinct :
  forall i j, 0 <= i <= 4 -> 0 <= j <= 4 -> players i = players j -> i = j.
Hypothesis players_nonzero : forall i, 0 <= i <= 4 -> players i <> 0.

Local Abbreviation created := (test_created players blk).
Local Abbreviation lobby4 := (test_lobby players blk).
Local Abbreviation started4 := (test_started players blk).
Local Abbreviation gid := (test_id players blk).
Local Abbreviation attacked4 := (test_attacked players blk).
Local Abbreviation wolf := (test_werewolf players blk).
Local Abbreviation prey := (test_target players blk).
Local Abbreviation roles4 := (reference_roles (call_ctx blk 5 (players 1)) 0).

Ltac other_player :=
  repeat (case_decide;
          [match goal with
           | H : players _ = players _ |- _ => apply players_distinct in H; lia
           end|]).

Lemma test_create_eq :
  test_create players blk = (created_state (call_ctx blk 0 (players 0)) init, Created 0).
Proof.
  unfold test_create. rewrite exec_create_done; [reflexivity | reflexivity | reflexivity].
Qed.

Lemma test_created_eq : created = created_state (call_ctx blk 0 (players 0)) init.
Proof. unfold test_created. rewrite test_create_eq. reflexivity. Qed.

Lemma test_id_eq : gid = 0.
Proof. unfold test_id, latest_game_id, getNextGameId, gets. rewrite test_created_eq. reflexivity. Qed.

Lemma test_joins_eq :
  test_joins players blk =
  (joined_state (call_ctx blk 3 (players 3)) 0
     (joined_state (call_ctx blk 2 (players 2)) 0
        (joined_state (call_ctx blk 1 (players 1)) 0
           (created_state (call_ctx blk 0 (players 0)) init))),
   [Done; Done; Done]).
Proof.
  unfold test_joins. rewrite test_id_eq, test_created_eq. cbn [run_trace fst snd].
  set (t1 := created_state (call_ctx blk 0 (players 0)) init).
  assert (G1 : game_at t1 0 = created_game (players 0)).
  { unfold t1. rewrite game_at_created. reflexivity. }
  assert (I1 : forall a, index_at t1 0 a = if decide (players 0 = a) then 1 else 0).
  { intros a. unfold t1. rewrite index_at_created. cbn [_nextGameId init msg_sender call_ctx].
    repeat case_decide; try reflexivity; exfalso; tauto. }
  rewrite (exec_join_done (call_ctx blk 1 (players 1)) 0 t1).
  2:{ rewrite G1. cbn. apply players_nonzero. lia. }
  2:{ rewrite G1. reflexivity. }
  2:{ rewrite G1. cbn. lia. }
  2:{ rewrite I1. case_decide as E; [|reflexivity].
      apply players_distinct in E; lia. }
  cbn [fst].
  set (t2 := joined_state (call_ctx blk 1 (players 1)) 0 t1).
  assert (G2 : game_at t2 0 = seat_added (players 1) (created_game (players 0))).
  { unfold t2. rewrite game_at_joined. case_decide; [|congruence]. rewrite G1. reflexivity. }
  assert (I2 : forall a, index_at t2 0 a =
            if decide (players 1 = a) then 2 else if decide (players 0 = a) then 1 else 0).
  { intros a. unfold t2. rewrite index_at_joined, I1, G1. cbn [msg_sender call_ctx].
    repeat case_decide; try reflexivity; exfalso; tauto. }
  rewrite (exec_join_done (call_ctx blk 2 (players 2)) 0 t2).
  2:{ rewrite G2. cbn. apply players_nonzero. lia. }
  2:{ rewrite G2. reflexivity. }
  2:{ rewrite G2. cbn. lia. }
  2:{ rewrite I2. cbn [msg_sender call_ctx].
      other_player. reflexivity. }
  cbn [fst].
  set (t3 := joined_state (call_ctx blk 2 (players 2)) 0 t2).
  assert (G3 : game_at t3 0 =
               seat_added (players 2) (seat_added (players 1) (created_game (players 0)))).
  { unfold t3. rewrite game_at_joined. case_decide; [|congruence]. rewrite G2. reflexivity. }
  assert (I3 : forall a, index_at t3 0 a =
            if decide (players 2 = a) then 3 else if decide (players 1 = a) then 2
            else if decide (players 0 = a) then 1 else 0).
  { intros a. unfold t3. rewrite index_at_joined, I2, G2. cbn [msg_sender call_ctx].
    repeat case_decide; try reflexivity; exfalso; tauto. }
  rewrite (exec_join_done (call_ctx blk 3 (players 3)) 0 t3).
  2:{ rewrite G3. cbn. apply players_nonzero. lia. }
  2:{ rewrite G3. reflexivity. }
  2:{ rewrite G3. cbn. lia. }
  2:{ rewrite I3. cbn [msg_sender call_ctx].
      other_player. reflexivity. }
  reflexivity.
Qed.

Lemma test_lobby_eq :
  lobby4 =
  joined_state (call_ctx blk 3 (players 3)) 0
    (joined_state (call_ctx blk 2 (players 2)) 0
       (joined_state (call_ctx blk 1 (players 1)) 0
          (created_state (call_ctx blk 0 (players 0)) init))).
Proof. unfold test_lobby. rewrite test_joins_eq. reflexivity. Qed.

Lemma test_lobby_game :
  game_at lobby4 0 =
  mkGame (players 0) (Array4 (players 0) (players 1) (players 2) (players 3))
         (fill4 0) (fill4 0) (fill4 true) 4 false.
Proof.
  rewrite test_lobby_eq. rewrite !game_at_joined, game_at_created.
  repeat (case_decide; [|congruence]). reflexivity.
Qed.

Lemma test_lobby_index a :
  index_at lobby4 0 a =
  if decide (players 3 = a) then 4 else if decide (players 2 = a) then 3
  else if decide (players 1 = a) then 2 else if decide (players 0 = a) then 1 else 0.
Proof.
  rewrite test_lobby_eq. rewrite !index_at_joined, index_at_created.
  rewrite !game_at_joined, game_at_created.
  repeat (case_decide; [|congruence]).
  cbn [msg_sender call_ctx _nextGameId init seat_added created_game playerCount].
  repeat case_decide; try reflexivity; exfalso; tauto.
Qed.

Lemma test_lobby_seat i : 0 <= i <= 3 -> index_at lobby4 0 (players i) = i + 1.
Proof.
  intros Hi. rewrite test_lobby_index.
  assert (E : i = 0 \/ i = 1 \/ i = 2 \/ i = 3) by lia.
  destruct E as [-> | [-> | [-> | ->]]]; repeat case_decide;
    try reflexivity; try congruence; exfalso;
    match goal with
    | H : players _ = players _ |- _ => apply players_distinct in H; lia
    end.
Qed.

Lemma test_lobby_outsider : index_at lobby4 0 (players 4) = 0.
Proof.
  rewrite test_lobby_index. repeat case_decide; try reflexivity; exfalso;
    match goal with
    | H : players _ = players _ |- _ => apply players_distinct in H; lia
    end.
Qed.

Lemma test_lobby_fhe : fhe lobby4 = engine0.
Proof. rewrite test_lobby_eq. reflexivity. Qed.

Lemma test_created_reachable : reachable created.
Proof. apply reachable_exec; [apply reachable_init | apply players_nonzero; lia]. Qed.

Lemma test_lobby_reachable : reachable lobby4.
Proof.
  apply run_trace_reachable; [apply test_created_reachable|].
  repeat constructor; apply players_nonzero; lia.
Qed.

Lemma test_fifth_eq : test_fifth players blk = (lobby4, Failed GameFull).
Proof.
  unfold test_fifth. rewrite test_id_eq. unfold exec, run_call, bind.
  rewrite joinGame_unfold. cbn zeta. rewrite test_lobby_game. cbn [creator started playerCount].
  rewrite (proj2 (Z.eqb_neq _ _)) by (apply players_nonzero; lia). reflexivity.
Qed.

Lemma test_start_eq :
  test_start players blk = (started_state (call_ctx blk 5 (players 1)) 0 lobby4, Done).
Proof.
  unfold test_start. rewrite test_id_eq, test_fifth_eq. cbn [fst].
  rewrite exec_start_done; [reflexivity| | | |].
  - rewrite test_lobby_game. cbn. apply players_nonzero. lia.
  - rewrite test_lobby_game. reflexivity.
  - cbn [msg_sender call_ctx]. rewrite test_lobby_seat by lia. lia.
  - rewrite test_lobby_game. reflexivity.
Qed.

Lemma test_started_eq : started4 = started_state (call_ctx blk 5 (players 1)) 0 lobby4.
Proof. unfold test_started. rewrite test_start_eq. reflexivity. Qed.

Lemma test_started_game :
  game_at started4 0 =
  mkGame (players 0) (Array4 (players 0) (players 1) (players 2) (players 3))
         (started_handles roles4 0) roles4 (fill4 true) 4 true.
Proof.
  rewrite test_started_eq, game_at_started. case_decide; [|congruence].
  rewrite test_lobby_game, test_lobby_fhe. reflexivity.
Qed.

Lemma test_started_reachable : reachable started4.
Proof.
  unfold test_started, test_start, test_fifth.
  apply reachable_exec; [|apply players_nonzero; lia].
  apply reachable_exec; [apply test_lobby_reachable | apply players_nonzero; lia].
Qed.

Lemma test_started_player i : 0 <= i <= 3 -> seat_player (game_at started4 0) i = players i.
Proof.
  intros Hi. rewrite test_started_game, seat_player_mkGame.
  destruct (range4_cases i Hi) as [-> | [-> | [-> | ->]]]; reflexivity.
Qed.

Lemma test_started_index a : index_at started4 0 a = index_at lobby4 0 a.
Proof. rewrite test_started_eq. reflexivity. Qed.

Lemma test_started_seat i : 0 <= i <= 3 -> index_at started4 0 (players i) = i + 1.
Proof. intros Hi. rewrite test_started_index. apply test_lobby_seat. exact Hi. Qed.

Lemma test_started_creator : (creator (game_at started4 0) =? 0) = false.
Proof.
  rewrite test_started_game. cbn [creator]. apply Z.eqb_neq. apply players_nonzero. lia.
Qed.

Lemma test_started_alive i : 0 <= i <= 3 -> seat_alive (game_at started4 0) i = true.
Proof.
  intros Hi. rewrite test_started_game. unfold seat_alive. cbn [alive].
  destruct (range4_cases i Hi) as [-> | [-> | [-> | ->]]]; reflexivity.
Qed.

Lemma test_started_role i : seat_role (game_at started4 0) i = default 0 (get4 roles4 i).
Proof. rewrite test_started_game. reflexivity. Qed.

Lemma test_started_fhe :
  fhe started4 =
  started_engine roles4 (Array4 (players 0) (players 1) (players 2) (players 3)) engine0.
Proof.
  rewrite test_started_eq. unfold started_state.
  cbn [fhe add_event set_game set_fhe]. rewrite test_lobby_game, test_lobby_fhe. reflexivity.
Qed.

Lemma test_roles_perm : Permutation (to_list4 roles4) [1; 1; 2; 3].
Proof. apply (fisher_yates_perm 3). lia. Qed.

Lemma test_clear_role_eq i :
  0 <= i <= 3 -> test_clear_role players blk i = Some (default 0 (get4 roles4 i)).
Proof.
  intros Hi. unfold test_clear_role. rewrite test_id_eq.
  rewrite getPlayerEncryptedRole_ok.
  2:{ apply Z.eqb_neq. exact test_started_creator. }
  2:{ rewrite test_started_game. reflexivity. }
  2:{ rewrite test_started_seat by exact Hi. lia. }
  rewrite test_started_seat by exact Hi.
  replace (i + 1 - 1) with i by lia.
  pose proof (reachable_wf _ test_started_reachable) as Hwf.
  pose proof (reachable_seating _ test_started_reachable) as Hse.
  assert (Hst : started (game_at started4 0) = true)
    by (rewrite test_started_game; reflexivity).
  pose proof (st_roles _ _ (st_games _ Hse 0) Hst i Hi) as Hcl.
  assert (Hh : get4 (encryptedRoles (game_at started4 0)) i =
               Some (seat_handle (game_at started4 0) i))
    by (unfold seat_handle; apply get4_default; exact Hi).
  destruct (wf_handles _ _ (wf_games _ Hwf 0) Hst i _ _ Hh (get4_seat_player _ i Hi))
    as [Hthis Hme].
  rewrite test_started_player in Hme by exact Hi.
  unfold userDecrypt. case_decide as Hd; [|exfalso; apply Hd; split; assumption].
  rewrite Hcl, test_started_role. reflexivity.
Qed.

Lemma test_role_count_eq r :
  test_role_count players blk r = count_occ Z.eq_dec (to_list4 roles4) r.
Proof.
  unfold test_role_count. cbn [List.filter]. rewrite !test_clear_role_eq by lia.
  destruct roles4 as [r0 r1 r2 r3]. cbn [get4 default from_option id Z.eqb to_list4 slot0 slot1 slot2 slot3].
  cbn [List.filter count_occ].
  repeat match goal with
         | |- context [bool_decide (Some ?a = Some ?b)] =>
             destruct (bool_decide_reflect (Some a = Some b))
         end;
    unfold to_list4; cbn [slot0 slot1 slot2 slot3 count_occ length];
    repeat match goal with
           | |- context [Z.eq_dec ?a ?b] => destruct (Z.eq_dec a b)
           end;
    try reflexivity; exfalso; congruence.
Qed.

Lemma test_werewolf_spec :
  0 <= wolf <= 3 /\ get4 roles4 wolf = Some 2.
Proof.
  unfold test_werewolf. cbn [fold_left]. rewrite !test_clear_role_eq by lia.
  destruct (werewolf_exists _ test_roles_perm) as [w Hw].
  pose proof (get4_Some_range _ _ _ Hw) as Rw.
  destruct roles4 as [r0 r1 r2 r3].
  cbn [get4 default from_option id Z.eqb] in *.
  repeat case_decide; cbn [slot0 slot1 slot2 slot3] in *;
    try (split; [lia | cbn; congruence]).
  exfalso. destruct (range4_cases w Rw) as [-> | [-> | [-> | ->]]];
    cbn in Hw; congruence.
Qed.

Lemma test_target_spec :
  0 <= prey <= 3 /\ prey <> wolf /\ get4 roles4 prey <> Some 2.
Proof.
  destruct test_werewolf_spec as [Rw Hw].
  assert (R : 0 <= prey <= 3 /\ prey <> wolf).
  { unfold test_target. case_decide; lia. }
  destruct R as [Rt Hne]. split; [exact Rt|]. split; [exact Hne|].
  intros Ht. apply Hne. apply (werewolf_unique _ _ _ test_roles_perm Ht Hw).
Qed.

Lemma test_attack_ranges (s : State) a :
  (forall x, index_at s 0 x = index_at lobby4 0 x) ->
  index_at s 0 a <> 0 -> 1 <= index_at s 0 a <= 4.
Proof.
  intros E. rewrite E, test_lobby_index. repeat case_decide; lia.
Qed.

Lemma test_denied_eq : test_denied players blk = (started4, Failed NotWerewolf).
Proof.
  destruct test_werewolf_spec as [Rw Hw]. destruct test_target_spec as (Rt & Hne & Ht).
  unfold test_denied. rewrite test_id_eq. unfold exec, run_call, bind.
  rewrite attack_unfold by (apply test_attack_ranges; apply test_started_index).
  cbn [msg_sender call_ctx].
  rewrite test_started_creator, !test_started_seat by assumption.
  replace (prey + 1 - 1) with prey by lia.
  rewrite test_started_game at 1. cbn [started negb].
  rewrite (proj2 (Z.eqb_neq (prey + 1) 0)) by lia.
  rewrite test_started_alive by assumption. cbn [negb].
  rewrite test_started_role.
  destruct (get4_in_range roles4 prey Rt) as [r Hr]. rewrite Hr in *.
  cbn [default from_option id].
  rewrite (proj2 (Z.eqb_neq r 2)) by congruence. reflexivity.
Qed.

Lemma test_self_eq : test_self players blk = (started4, Failed CannotAttackSelf).
Proof.
  destruct test_werewolf_spec as [Rw Hw].
  unfold test_self. rewrite test_id_eq, test_denied_eq. cbn [fst].
  unfold exec, run_call, bind.
  rewrite attack_unfold by (apply test_attack_ranges; apply test_started_index).
  cbn [msg_sender call_ctx].
  rewrite test_started_creator, !test_started_seat by assumption.
  replace (wolf + 1 - 1) with wolf by lia.
  rewrite test_started_game at 1. cbn [started negb].
  rewrite (proj2 (Z.eqb_neq (wolf + 1) 0)) by lia.
  rewrite test_started_alive by assumption. cbn [negb].
  rewrite test_started_role, Hw. cbn [default from_option id Z.eqb Pos.eqb negb].
  rewrite Z.eqb_refl. reflexivity.
Qed.

Lemma test_attack_eq :
  test_attack players blk =
  (attacked_state (call_ctx blk 8 (players wolf)) 0 (players prey) started4, Done).
Proof.
  destruct test_werewolf_spec as [Rw Hw]. destruct test_target_spec as (Rt & Hne & Ht).
  unfold test_attack. rewrite test_id_eq, test_self_eq. cbn [fst].
  unfold exec, run_call, bind.
  rewrite attack_unfold by (apply test_attack_ranges; apply test_started_index).
  cbn [msg_sender call_ctx].
  rewrite test_started_creator, !test_started_seat by assumption.
  replace (wolf + 1 - 1) with wolf by lia. replace (prey + 1 - 1) with prey by lia.
  rewrite test_started_game at 1. cbn [started negb].
  rewrite (proj2 (Z.eqb_neq (wolf + 1) 0)), (proj2 (Z.eqb_neq (prey + 1) 0)) by lia.
  rewrite !test_started_alive by assumption. cbn [negb].
  rewrite test_started_role, Hw. cbn [default from_option id Z.eqb Pos.eqb negb].
  rewrite (proj2 (Z.eqb_neq prey wolf)) by exact Hne. reflexivity.
Qed.

Lemma test_attacked_eq :
  attacked4 = attacked_state (call_ctx blk 8 (players wolf)) 0 (players prey) started4.
Proof. unfold test_attacked. rewrite test_attack_eq. reflexivity. Qed.

Lemma test_attacked_game : game_at attacked4 0 = kill_seat (game_at started4 0) prey.
Proof.
  destruct test_target_spec as (Rt & _).
  rewrite test_attacked_eq, game_at_attacked. case_decide; [|congruence].
  rewrite test_started_seat by exact Rt. f_equal. lia.
Qed.

Lemma test_attacked_index a : index_at attacked4 0 a = index_at lobby4 0 a.
Proof. rewrite test_attacked_eq, index_at_attacked. apply test_started_index. Qed.

Lemma test_attacked_seat i : 0 <= i <= 3 -> index_at attacked4 0 (players i) = i + 1.
Proof. intros Hi. rewrite test_attacked_index. apply test_lobby_seat. exact Hi. Qed.

Lemma test_attacked_creator : (creator (game_at attacked4 0) =? 0) = false.
Proof. rewrite test_attacked_game, creator_kill_seat. exact test_started_creator. Qed.

Lemma test_attacked_alive i :
  0 <= i <= 3 -> seat_alive (game_at attacked4 0) i = if decide (prey = i) then false else true.
Proof.
  intros Hi. destruct test_target_spec as (Rt & _).
  rewrite test_attacked_game, seat_alive_kill_seat by exact Rt.
  case_decide; [reflexivity|]. apply test_started_alive. exact Hi.
Qed.

Lemma test_again_eq : test_again players blk = (attacked4, Failed PlayerAlreadyDead).
Proof.
  destruct test_werewolf_spec as [Rw Hw]. destruct test_target_spec as (Rt & Hne & Ht).
  unfold test_again. rewrite test_id_eq.
  unfold exec, run_call, bind.
  rewrite attack_unfold by (apply test_attack_ranges; apply test_attacked_index).
  cbn [msg_sender call_ctx].
  rewrite test_attacked_creator, !test_attacked_seat by assumption.
  replace (wolf + 1 - 1) with wolf by lia. replace (prey + 1 - 1) with prey by lia.
  rewrite (proj2 (Z.eqb_neq (wolf + 1) 0)), (proj2 (Z.eqb_neq (prey + 1) 0)) by lia.
  rewrite !test_attacked_alive by assumption.
  rewrite test_attacked_game, started_kill_seat, seat_role_kill_seat.
  rewrite test_started_game at 1. cbn [started negb].
  destruct (decide (prey = wolf)) as [|_]; [contradiction|].
  destruct (decide (prey = prey)) as [_|]; [|contradiction]. cbn [negb].
  rewrite test_started_role, Hw. reflexivity.
Qed.

(** X17. The test of the repository's suite passes whatever the hash
    function, the block values and the contract's address are, for any
    five distinct non-zero signers: the game gets identifier 0, the fifth
    join fails with [GameFull], every player decrypts one of the roles
    1, 1, 2, 3, the non-Werewolf's attack fails with [NotWerewolf], the
    Werewolf's attack on itself with [CannotAttackSelf], its attack on the
    target goes through, the repeat fails with [PlayerAlreadyDead], and
    three players are left alive. *)
Theorem repository_test_passes : test_passes players blk.
Proof.
  destruct test_werewolf_spec as [Rw Hw]. destruct test_target_spec as (Rt & Hne & Ht).
  unfold test_passes.
  rewrite test_create_eq, test_joins_eq, test_fifth_eq, test_start_eq, test_denied_eq,
    test_self_eq, test_attack_eq, test_again_eq, test_id_eq. cbn [fst snd].
  repeat match goal with |- _ /\ _ => split end.
  - exists 0. reflexivity.
  - rewrite test_created_eq. unfold getPlayerEncryptedRole. mrun.
    rewrite game_at_created. change (_nextGameId init) with 0.
    case_decide; [|congruence].
    cbn [created_game creator started msg_sender call_ctx].
    rewrite (proj2 (Z.eqb_neq _ _)) by (apply players_nonzero; lia). reflexivity.
  - reflexivity.
  - reflexivity.
  - unfold getGameDetails. mrun. rewrite test_lobby_game. cbn [creator].
    rewrite (proj2 (Z.eqb_neq _ _)) by (apply players_nonzero; lia).
    cbn beta. rewrite test_lobby_game. split; reflexivity.
  - reflexivity.
  - unfold getGameDetails. mrun. rewrite test_started_creator.
    cbn beta. rewrite test_started_game. reflexivity.
  - intros i H. assert (Hi : 0 <= i <= 3) by (cbn in H; lia). split.
    + rewrite test_clear_role_eq by exact Hi. eexists. reflexivity.
    + rewrite getPlayerStatus_ok.
      * rewrite test_started_seat by exact Hi. replace (i + 1 - 1) with i by lia.
        cbn [returned]. apply test_started_alive. exact Hi.
      * apply Z.eqb_neq. exact test_started_creator.
      * rewrite test_started_seat by exact Hi. lia.
  - rewrite test_role_count_eq.
    rewrite (proj1 (Permutation_count_occ Z.eq_dec _ _) test_roles_perm). reflexivity.
  - rewrite test_role_count_eq.
    rewrite (proj1 (Permutation_count_occ Z.eq_dec _ _) test_roles_perm). reflexivity.
  - rewrite test_role_count_eq.
    rewrite (proj1 (Permutation_count_occ Z.eq_dec _ _) test_roles_perm). reflexivity.
  - lia.
  - reflexivity.
  - reflexivity.
  - reflexivity.
  - rewrite getPlayerStatus_ok.
    + rewrite test_attacked_seat by exact Rt. replace (prey + 1 - 1) with prey by lia.
      cbn [returned]. rewrite test_attacked_alive by exact Rt.
      case_decide; [reflexivity | contradiction].
    + apply Z.eqb_neq. exact test_attacked_creator.
    + rewrite test_attacked_seat by exact Rt. lia.
  - reflexivity.
  - rewrite getAlivePlayerCount_ok by (apply Z.eqb_neq; exact test_attacked_creator).
    cbn [returned]. unfold alive_count, seat_counts.
    rewrite !test_attacked_alive by lia.
    rewrite test_attacked_game, !seat_player_kill_seat.
    rewrite test_started_game, !seat_player_mkGame.
    cbn [get4 default from_option id slot0 slot1 slot2 slot3].
    rewrite !(proj2 (Z.eqb_neq (players _) 0)) by (apply players_nonzero; lia).
    cbn [negb andb].
    unfold test_target in *. repeat case_decide; lia.
Qed.

End TestFacts.

End Verification.

(** * The concrete run, checked *)

Import Scenario.
#[local] Existing Instance sample_env.
#[local] Existing Instance plain_engine.

Lemma lobby_trace_external : Forall external lobby_trace.
Proof. repeat constructor; discriminate. Qed.

Lemma lobby_reachable : reachable lobby.
Proof.
  apply run_trace_reachable; [apply reachable_init | apply lobby_trace_external].
Qed.

Lemma game_on_reachable : reachable game_on.
Proof. apply reachable_exec; [apply lobby_reachable | discriminate]. Qed.

Lemma game_on_started : startGame (by_ bob) 0 lobby = Ok tt game_on.
Proof. vm_compute. reflexivity. Qed.

Lemma after_attack_ok : attack (by_ alice) 0 bob game_on = Ok tt after_attack.
Proof. vm_compute. reflexivity. Qed.

(** The repository's test scenario, replayed on the model. *)

Example game_on_roles : roles (game_at game_on 0) = Array4 2 1 3 1.
Proof. vm_compute. reflexivity. Qed.

Example role_hidden_before_start :
  getPlayerEncryptedRole (by_ alice) 0 alice lobby = Revert GameNotStarted lobby.
Proof. vm_compute. reflexivity. Qed.

Example fifth_player_turned_away : joinGame (by_ erin) 0 lobby = Revert GameFull lobby.
Proof. vm_compute. reflexivity. Qed.

Example villager_cannot_attack :
  attack (by_ bob) 0 alice game_on = Revert NotWerewolf game_on.
Proof. vm_compute. reflexivity. Qed.

Example werewolf_cannot_attack_self :
  attack (by_ alice) 0 alice game_on = Revert CannotAttackSelf game_on.
Proof. vm_compute. reflexivity. Qed.

Example dead_target_rejected :
  attack (by_ alice) 0 bob after_attack = Revert PlayerAlreadyDead after_attack.
Proof. vm_compute. reflexivity. Qed.

Example three_left_alive :
  getAlivePlayerCount (by_ erin) 0 after_attack = Ok 3 after_attack.
Proof. vm_compute. reflexivity. Qed.

Lemma startGame_roles_multiset_witness :
  startGame (by_ bob) 0 lobby = Ok tt game_on /\
  Permutation (to_list4 (roles (game_at game_on 0))) [1; 1; 2; 3] /\
  count_occ Z.eq_dec (to_list4 (roles (game_at game_on 0))) 2 = 1%nat.
Proof.
  split; [exact game_on_started|].
  destruct (startGame_roles_multiset (by_ bob) 0 lobby game_on
              game_on_started) as (P & C & _).
  split; [exact P | exact C].
Defined.

Lemma startGame_shuffle_refines_witness :
  startGame (by_ bob) 0 lobby = Ok tt game_on /\
  roles (game_at game_on 0) = reference_roles (by_ bob) 0.
Proof.
  split; [exact game_on_started|].
  exact (proj2 (startGame_shuffle_refines (by_ bob) 0 lobby game_on
                  game_on_started)).
Defined.

(** C2. Access to a seat's handle is not exclusive when the engine returns
    one handle per value.  After [bob] starts the full game 0 the seats of
    the two Villagers, [bob] and [dave], store one handle, so [dave], who
    is neither the contract nor the player of [bob]'s seat, has access to
    the handle of that seat.  And when a second game is started later, its
    Werewolf [ivan] gains access to the handle of the Werewolf's seat of
    game 0, which [ivan] did not have before. *)
Theorem startGame_shares_role_handles :
  startGame (by_ bob) 0 lobby = Ok tt game_on /\
  seat_player (game_at game_on 0) 1 = bob /\
  seat_handle (game_at game_on 0) 1 = seat_handle (game_at game_on 0) 3 /\
  allowed (fhe game_on) (seat_handle (game_at game_on 0) 1) dave /\
  dave <> contract /\ dave <> seat_player (game_at game_on 0) 1 /\
  steps game_on two_games /\
  seat_player (game_at two_games 0) 0 = alice /\
  seat_handle (game_at two_games 0) 0 = seat_handle (game_at game_on 0) 0 /\
  ~ allowed (fhe game_on) (seat_handle (game_at game_on 0) 0) ivan /\
  allowed (fhe two_games) (seat_handle (game_at two_games 0) 0) ivan.
Proof.
  split; [exact game_on_started|].
  split; [vm_compute; reflexivity|].
  split; [vm_compute; reflexivity|].
  split; [unfold allowed; refine (bool_decide_unpack _ _); vm_compute; exact I|].
  split; [discriminate|].
  split; [vm_compute; discriminate|].
  split.
  { unfold two_games. apply run_trace_steps. repeat constructor; discriminate. }
  split; [vm_compute; reflexivity|].
  split; [vm_compute; reflexivity|].
  split; unfold allowed; refine (bool_decide_unpack _ _); vm_compute; exact I.
Qed.

Lemma attack_frame_witness :
  reachable game_on /\
  attack (by_ alice) 0 bob game_on = Ok tt after_attack /\
  get4 (alive (game_at after_attack 0)) (index_at game_on 0 bob - 1) = Some false /\
  exists n,
    getAlivePlayerCount (by_ erin) 0 game_on = Ok n game_on /\
    getAlivePlayerCount (by_ erin) 0 after_attack = Ok (n - 1) after_attack.
Proof.
  split; [exact game_on_reachable|]. split; [exact after_attack_ok|].
  destruct (attack_frame (by_ alice) 0 bob game_on after_attack
              game_on_reachable after_attack_ok)
    as (_ & _ & Hdead & _ & _ & _ & _ & _ & _ & _ & Hcount & _).
  split; [exact Hdead | exact (Hcount (by_ erin))].
Defined.

Lemma attack_error_precedence_witness :
  reachable game_on /\
  match attack_error game_on (msg_sender (by_ bob)) 0 alice with
  | Some e =>
      attack (by_ bob) 0 alice game_on = Revert e game_on /\
      exec (by_ bob) (Attack 0 alice) game_on = (game_on, Failed e)
  | None => exists s', attack (by_ bob) 0 alice game_on = Ok tt s'
  end.
Proof.
  split; [exact game_on_reachable|].
  exact (attack_error_precedence (by_ bob) 0 alice game_on
           game_on_reachable).
Defined.

(** C6, as stated, fails: in the full lobby the seated [alice] joining
    again is turned away with [GameFull], not [PlayerAlreadyJoined]. *)
Lemma joinGame_seated_counterexample :
  reachable lobby /\
  index_at lobby 0 alice = 1 /\
  joinGame (by_ alice) 0 lobby = Revert GameFull lobby /\
  joinGame (by_ alice) 0 lobby <> Revert PlayerAlreadyJoined lobby.
Proof.
  split; [exact lobby_reachable|]. split; [vm_compute; reflexivity|].
  assert (H : joinGame (by_ alice) 0 lobby = Revert GameFull lobby)
    by (vm_compute; reflexivity).
  split; [exact H|]. rewrite H. discriminate.
Qed.

Lemma joinGame_seated_fails_witness :
  reachable game_on /\
  index_at game_on 0 (msg_sender (by_ carol)) <> 0 /\
  joinGame (by_ carol) 0 game_on =
    Revert (if started (game_at game_on 0) then GameAlreadyStarted
            else if 4 <=? playerCount (game_at game_on 0) then GameFull
            else PlayerAlreadyJoined) game_on.
Proof.
  assert (Hix : index_at game_on 0 (msg_sender (by_ carol)) <> 0)
    by (vm_compute; discriminate).
  split; [exact game_on_reachable|]. split; [exact Hix|].
  exact (proj1 (joinGame_seated_fails (by_ carol) 0 game_on
                  game_on_reachable Hix)).
Defined.

Lemma started_lifecycle_witness :
  reachable lobby /\
  (forall ctx gameId s1 s2,
     startGame ctx gameId lobby = Ok tt s1 ->
     steps s1 s2 ->
     forall ctx', startGame ctx' gameId s2 = Revert GameAlreadyStarted s2).
Proof.
  split; [exact lobby_reachable|].
  destruct (started_lifecycle lobby lobby_reachable) as (_ & _ & _ & H).
  exact H.
Defined.

Lemma createGame_allocates_witness :
  Forall external lobby_trace /\
  _nextGameId lobby < MAX_UINT256 /\
  created_ids (snd (run_trace lobby_trace init)) = seqZ 0 1 /\
  getNextGameId (by_ erin) lobby = Ok 1 lobby /\
  exists s',
    createGame (by_ erin) lobby = Ok 1 s' /\
    _nextGameId s' = 2 /\
    creator (game_at s' 1) = erin /\
    get4 (players (game_at s' 1)) 0 = Some erin /\
    playerCount (game_at s' 1) = 1 /\
    started (game_at s' 1) = false.
Proof.
  assert (Hlt : _nextGameId lobby < MAX_UINT256) by reflexivity.
  split; [exact lobby_trace_external|]. split; [exact Hlt|].
  destruct (createGame_allocates lobby_trace (by_ erin) lobby_trace_external)
    as (Hids & Hnext & Hcreate).
  split; [exact Hids|]. split; [exact Hnext|].
  destruct (Hcreate Hlt) as (s' & H1 & _ & H2 & _ & H3 & H4 & _ & H5 & H6).
  exists s'. repeat split; assumption.
Defined.

(** C8, as stated, fails: with the counter at [MAX_UINT256] the checked
    increment panics, and the contract can get there. *)
Lemma createGame_overflow_counterexample :
  createGame (by_ alice) counter_at_max = Revert (Panic 0x11) counter_at_max /\
  exists s, reachable s /\
            forall ctx, createGame ctx s = Revert (Panic 0x11) s.
Proof.
  split; [apply createGame_full; cbn; lia|].
  destruct (reachable_counter (Z.to_nat MAX_UINT256)) as (s & Hr & Hs).
  - rewrite Z2Nat.id; [lia | discriminate].
  - exists s. split; [exact Hr|]. intros ctx. apply createGame_full.
    rewrite Hs, Z2Nat.id; [lia | discriminate].
Qed.

Lemma werewolf_stays_alive_witness :
  reachable after_attack /\
  started (game_at after_attack 0) = true /\
  exists w,
    get4 (roles (game_at after_attack 0)) w = Some 2 /\
    get4 (alive (game_at after_attack 0)) w = Some true.
Proof.
  assert (Hr : reachable after_attack)
    by (apply reachable_exec; [apply game_on_reachable | discriminate]).
  assert (Hst : started (game_at after_attack 0) = true) by (vm_compute; reflexivity).
  split; [exact Hr|]. split; [exact Hst|].
  destruct (werewolf_stays_alive after_attack 0 Hr Hst)
    as (w & Hw & _ & Ha & _).
  exists w. split; [exact Hw | exact Ha].
Defined.

(** ** The further properties on the concrete run *)

Lemma waiting_reachable : reachable waiting.
Proof.
  apply run_trace_reachable; [apply reachable_init | repeat constructor; discriminate].
Qed.

Lemma after_attack_reachable : reachable after_attack.
Proof. apply reachable_exec; [apply game_on_reachable | discriminate]. Qed.

Lemma endgame_reachable : reachable endgame.
Proof.
  apply run_trace_reachable; [apply after_attack_reachable | repeat constructor; discriminate].
Qed.

Lemma lobby_to_after_attack : steps lobby after_attack.
Proof.
  apply steps_exec; [|discriminate]. apply steps_exec; [apply steps_refl | discriminate].
Qed.

Lemma game_on_to_after_attack : steps game_on after_attack.
Proof. apply steps_exec; [apply steps_refl | discriminate]. Qed.

Lemma game_on_is_started : started (game_at game_on 0) = true.
Proof. vm_compute. reflexivity. Qed.

Lemma joinGame_behaviour_witness :
  reachable waiting /\
  match joinGame_error waiting (msg_sender (by_ carol)) 0 with
  | Some e => False
  | None =>
      exists s', joinGame (by_ carol) 0 waiting = Ok tt s' /\
                 seat_player (game_at s' 0) 2 = carol /\ index_at s' 0 carol = 3
  end.
Proof.
  split; [exact waiting_reachable|].
  pose proof (joinGame_behaviour (by_ carol) 0 waiting waiting_reachable) as H.
  change (joinGame_error waiting (msg_sender (by_ carol)) 0) with (@None Error) in H |- *.
  destruct H as (s' & Hok & _ & _ & _ & Hseat & _ & Hix & _).
  exists s'. split; [exact Hok|]. split; [exact Hseat | exact Hix].
Defined.

Lemma startGame_behaviour_witness :
  reachable lobby /\
  exists s',
    startGame (by_ bob) 0 lobby = Ok tt s' /\
    started (game_at s' 0) = true /\
    (forall i, 0 <= i <= 3 ->
       cleartext (fhe s') !! seat_handle (game_at s' 0) i = Some (seat_role (game_at s' 0) i) /\
       allowed (fhe s') (seat_handle (game_at s' 0) i) contract /\
       allowed (fhe s') (seat_handle (game_at s' 0) i) (seat_player (game_at lobby 0) i)) /\
    events s' = events lobby ++ [GameStarted 0].
Proof.
  split; [exact lobby_reachable|].
  pose proof (startGame_behaviour (by_ bob) 0 lobby lobby_reachable) as H.
  change (startGame_error lobby (msg_sender (by_ bob)) 0) with (@None Error) in H.
  destruct H as (s' & H1 & _ & H2 & _ & _ & _ & _ & H3 & _ & _ & _ & _ & _ & H4).
  exists s'. split; [exact H1|]. split; [exact H2|]. split; [exact H3 | exact H4].
Defined.

Lemma seats_are_permanent_witness :
  reachable lobby /\ steps lobby after_attack /\
  index_at lobby 0 bob <> 0 /\
  index_at after_attack 0 bob = index_at lobby 0 bob /\
  seat_player (game_at after_attack 0) (index_at lobby 0 bob - 1) = bob.
Proof.
  assert (Hix : index_at lobby 0 bob <> 0) by (vm_compute; discriminate).
  split; [exact lobby_reachable|]. split; [exact lobby_to_after_attack|].
  split; [exact Hix|].
  destruct (seats_are_permanent lobby after_attack 0 lobby_reachable lobby_to_after_attack)
    as (_ & H & _).
  exact (H bob Hix).
Defined.

Lemma seats_are_distinct_witness :
  reachable waiting /\
  forall i, 0 <= i <= 3 ->
    (seat_player (game_at waiting 0) i <> 0 <-> i < playerCount (game_at waiting 0)).
Proof.
  split; [exact waiting_reachable|].
  destruct (seats_are_distinct waiting 0 waiting_reachable) as (_ & H & _). exact H.
Defined.

Lemma games_exist_below_counter_witness :
  reachable lobby /\
  (creator (game_at lobby 1) <> 0 <-> 0 <= 1 < _nextGameId lobby).
Proof.
  split; [exact lobby_reachable|].
  exact (proj1 (games_exist_below_counter lobby 1 lobby_reachable)).
Defined.

Lemma lobby_views_witness :
  reachable waiting /\
  creator (game_at waiting 0) <> 0 /\
  started (game_at waiting 0) = false /\
  getAlivePlayerCount (by_ erin) 0 waiting = Ok (playerCount (game_at waiting 0)) waiting.
Proof.
  assert (Hc : creator (game_at waiting 0) <> 0) by (vm_compute; discriminate).
  assert (Hs : started (game_at waiting 0) = false) by (vm_compute; reflexivity).
  split; [exact waiting_reachable|]. split; [exact Hc|]. split; [exact Hs|].
  exact (proj1 (lobby_views waiting 0 waiting_reachable Hc Hs) (by_ erin)).
Defined.

Lemma role_handle_round_trip_witness :
  reachable game_on /\
  started (game_at game_on 0) = true /\
  index_at game_on 0 alice <> 0 /\
  exists h role,
    (forall ctx, getPlayerEncryptedRole ctx 0 alice game_on = Ok h game_on) /\
    role = seat_role (game_at game_on 0) (index_at game_on 0 alice - 1) /\
    cleartext (fhe game_on) !! h = Some role /\
    userDecrypt (fhe game_on) h contract alice = Some role.
Proof.
  assert (Hix : index_at game_on 0 alice <> 0) by (vm_compute; discriminate).
  split; [exact game_on_reachable|]. split; [exact game_on_is_started|].
  split; [exact Hix|].
  destruct (proj2 (role_handle_round_trip game_on 0 alice game_on_reachable game_on_is_started)
              Hix) as (h & role & H1 & H2 & _ & H3 & _ & _ & H4).
  exists h, role. split; [exact H1|]. split; [exact H2|]. split; [exact H3 | exact H4].
Defined.

Lemma same_handle_same_role_witness :
  reachable game_on /\
  getPlayerEncryptedRole (by_ erin) 0 bob game_on = Ok 1001 game_on /\
  getPlayerEncryptedRole (by_ erin) 0 dave game_on = Ok 1001 game_on /\
  seat_role (game_at game_on 0) (index_at game_on 0 bob - 1) =
  seat_role (game_at game_on 0) (index_at game_on 0 dave - 1).
Proof.
  assert (H1 : getPlayerEncryptedRole (by_ erin) 0 bob game_on = Ok 1001 game_on)
    by (vm_compute; reflexivity).
  assert (H2 : getPlayerEncryptedRole (by_ erin) 0 dave game_on = Ok 1001 game_on)
    by (vm_compute; reflexivity).
  split; [exact game_on_reachable|]. split; [exact H1|]. split; [exact H2|].
  exact (same_handle_same_role game_on 0 0 bob dave (by_ erin) (by_ erin) 1001
           game_on_reachable H1 H2).
Defined.

Lemma dead_stay_dead_witness :
  reachable game_on /\ started (game_at game_on 0) = true /\ steps game_on after_attack /\
  exists n n',
    getAlivePlayerCount (by_ erin) 0 game_on = Ok n game_on /\
    getAlivePlayerCount (by_ erin) 0 after_attack = Ok n' after_attack /\
    n' <= n <= 4.
Proof.
  split; [exact game_on_reachable|]. split; [exact game_on_is_started|].
  split; [exact game_on_to_after_attack|].
  exact (proj2 (dead_stay_dead game_on after_attack 0 game_on_reachable game_on_is_started
                  game_on_to_after_attack) (by_ erin)).
Defined.

Lemma only_attack_kills_witness :
  reachable game_on /\ started (game_at game_on 0) = true /\
  seat_alive (game_at (fst (exec (by_ alice) (Attack 0 bob) game_on)) 0) 1 <>
    seat_alive (game_at game_on 0) 1 /\
  exists target,
    Attack 0 bob = Attack 0 target /\
    seat_role (game_at game_on 0) (index_at game_on 0 (msg_sender (by_ alice)) - 1) = 2.
Proof.
  assert (Hch : seat_alive (game_at (fst (exec (by_ alice) (Attack 0 bob) game_on)) 0) 1 <>
                seat_alive (game_at game_on 0) 1) by (vm_compute; discriminate).
  split; [exact game_on_reachable|]. split; [exact game_on_is_started|]. split; [exact Hch|].
  destruct (only_attack_kills (by_ alice) (Attack 0 bob) game_on 0 1 game_on_reachable
              game_on_is_started Hch) as (t & H1 & _ & H2 & _).
  exists t. split; [exact H1 | exact H2].
Defined.

Lemma one_event_per_success_witness :
  reachable lobby /\
  events (fst (exec (by_ bob) (StartGame 0) lobby)) =
    events lobby ++ logged (by_ bob) (StartGame 0) (snd (exec (by_ bob) (StartGame 0) lobby)).
Proof.
  split; [exact lobby_reachable|].
  exact (one_event_per_success (by_ bob) (StartGame 0) lobby lobby_reachable).
Defined.

Lemma other_games_untouched_witness :
  reachable lobby /\ 7 <> addressed (JoinGame 0) lobby /\
  game_at (fst (exec (by_ erin) (JoinGame 0) lobby)) 7 = game_at lobby 7.
Proof.
  assert (Hne : 7 <> addressed (JoinGame 0) lobby) by discriminate.
  split; [exact lobby_reachable|]. split; [exact Hne|].
  exact (proj1 (other_games_untouched (by_ erin) (JoinGame 0) lobby 7 lobby_reachable Hne)).
Defined.

Lemma panic_only_at_counter_overflow_witness :
  reachable lobby /\
  forall ctx c code,
    snd (exec ctx c lobby) = Failed (Panic code) ->
    c = CreateGame /\ _nextGameId lobby = MAX_UINT256 /\ code = 0x11.
Proof.
  split; [exact lobby_reachable|].
  exact (proj1 (panic_only_at_counter_overflow lobby lobby_reachable)).
Defined.

Lemma started_game_is_frozen_witness :
  reachable game_on /\ started (game_at game_on 0) = true /\ steps game_on after_attack /\
  same_setup (game_at game_on 0) (game_at after_attack 0).
Proof.
  split; [exact game_on_reachable|]. split; [exact game_on_is_started|].
  split; [exact game_on_to_after_attack|].
  exact (proj1 (started_game_is_frozen game_on after_attack 0 game_on_reachable
                  game_on_is_started game_on_to_after_attack)).
Defined.

Lemma last_one_standing_witness :
  reachable endgame /\ started (game_at endgame 0) = true /\
  (forall i, 0 <= i <= 3 -> seat_role (game_at endgame 0) i <> 2 ->
             seat_alive (game_at endgame 0) i = false) /\
  exists e, attack (by_ alice) 0 bob endgame = Revert e endgame.
Proof.
  assert (Hst : started (game_at endgame 0) = true) by (vm_compute; reflexivity).
  assert (Hdead : forall i, 0 <= i <= 3 -> seat_role (game_at endgame 0) i <> 2 ->
                            seat_alive (game_at endgame 0) i = false).
  { intros i Hi. assert (E : i = 0 \/ i = 1 \/ i = 2 \/ i = 3) by lia.
    destruct E as [-> | [-> | [-> | ->]]]; vm_compute; congruence. }
  split; [exact endgame_reachable|]. split; [exact Hst|]. split; [exact Hdead|].
  destruct (last_one_standing (by_ alice) 0 bob endgame endgame_reachable Hst Hdead)
    as (e & He & _).
  exists e. exact He.
Defined.

(** ** The shuffle, draw by draw *)

Import Draws.

Lemma roles_arrangement r :
  Permutation (to_list4 r) [1; 1; 2; 3] -> In r arrangements.
Proof.
  intros P.
  pose proof (proj1 (Permutation_count_occ Z.eq_dec _ _) P) as C.
  pose proof (C 1) as C1. pose proof (C 2) as C2. pose proof (C 3) as C3. clear C.
  destruct r as [a b c d]. unfold to_list4 in *. cbn [slot0 slot1 slot2 slot3] in *.
  assert (Ha : In a [1; 1; 2; 3]) by (apply (Permutation_in _ P); cbn; auto).
  assert (Hb : In b [1; 1; 2; 3]) by (apply (Permutation_in _ P); cbn; auto).
  assert (Hc : In c [1; 1; 2; 3]) by (apply (Permutation_in _ P); cbn; auto).
  assert (Hd : In d [1; 1; 2; 3]) by (apply (Permutation_in _ P); cbn; auto).
  clear P. cbn in Ha, Hb, Hc, Hd.
  destruct Ha as [<- | [<- | [<- | [<- | []]]]];
    destruct Hb as [<- | [<- | [<- | [<- | []]]]];
    destruct Hc as [<- | [<- | [<- | [<- | []]]]];
    destruct Hd as [<- | [<- | [<- | [<- | []]]]];
    try (cbn in C1; discriminate); try (cbn in C2; discriminate);
    try (cbn in C3; discriminate); cbn; auto 20.
Qed.

(** X16. The shuffle is unbiased in its draws: with a first draw below 4,
    a second below 3 and a third below 2 as the three swap indices, each
    of the twelve arrangements of the four roles comes from exactly 2 of
    the 24 combinations. *)
Theorem shuffle_is_unbiased ctx gameId r :
  Permutation (to_list4 r) [1; 1; 2; 3] ->
  length (draws_giving ctx gameId r) = 2%nat /\
  length all_draws = 24%nat /\
  forall j, In j all_draws ->
    @derive_seed (draws_env j) ctx gameId = fst (fst j) /\
    @rehash (draws_env j) (fst (fst j)) 3 = snd (fst j) /\
    @rehash (draws_env j) (snd (fst j)) 2 = snd j.
Proof.
  intros P. split; [|split; [reflexivity|]].
  - apply roles_arrangement in P. cbn [In arrangements] in P.
    repeat (destruct P as [<- | P]; [vm_compute; reflexivity|]). destruct P.
  - intros j Hj. cbn in Hj.
    repeat (destruct Hj as [<- | Hj]; [repeat split|]). destruct Hj.
Qed.

Lemma shuffle_is_unbiased_witness :
  Permutation (to_list4 (Array4 2 1 3 1)) [1; 1; 2; 3] /\
  length (draws_giving (by_ bob) 0 (Array4 2 1 3 1)) = 2%nat.
Proof.
  assert (P : Permutation (to_list4 (Array4 2 1 3 1)) [1; 1; 2; 3]).
  { cbn. solve_Permutation. }
  split; [exact P|].
  exact (proj1 (shuffle_is_unbiased (by_ bob) 0 (Array4 2 1 3 1) P)).
Defined.

Lemma repository_test_passes_witness :
  (forall i j, 0 <= i <= 4 -> 0 <= j <= 4 -> signers i = signers j -> i = j) /\
  (forall i, 0 <= i <= 4 -> signers i <> 0) /\
  test_passes signers blocks.
Proof.
  split; [unfold signers; intros; lia|].
  split; [unfold signers; intros; lia|].
  apply repository_test_passes; unfold signers; intros; lia.
Defined.

Lemma latest_game_id_after_create_witness :
  latest_game_id (by_ erin)
    (fst (run_trace [(by_ bob, CreateGame)] (fst (exec (by_ alice) CreateGame init)))) =
  Some 1.
Proof.
  refine (proj1 (latest_game_id_after_create (by_ alice) (by_ erin) [(by_ bob, CreateGame)]
                   init 0 reachable_init _ _ _ _)).
  - discriminate.
  - repeat constructor; discriminate.
  - reflexivity.
  - vm_compute. discriminate.
Defined.


